(** * Layered user memory: upsert, extraction, retrieval, rate gate

    A shallow embedding of [convex/memory.ts] (the memory engine that runs
    on the storage back end) and of [packages/lib/core/src/memory/index.ts]
    (the worker-side client: context formatter, rate gate, prompt merge),
    followed by the properties the design document states about them.

    Conventions.
    - A JavaScript string is a sequence of UTF-16 code units.  The texts
      that [hashMemory] fingerprints are lists of code units ([list Z],
      module [Utf16]): [trim] is given for every code unit, [toLowerCase]
      for the code units below 256 and the Greek letters, the capital sigma
      that ends a word included.  Everywhere else we embed the strings
      whose code units are below 256 (ISO-8859-1) as [string]: one [ascii]
      per code unit, so [String.length] is [.length] and [charCode] is
      [charCodeAt]; on that range [trim] and [toLowerCase] act on each
      code unit by itself.
    - A JavaScript number holding an integer is a [Z]; similarity scores
      and embedding coordinates, which reach the code through JSON and are
      therefore finite, are rationals ([Q]).
    - [throw new Error(msg)] is [Throw msg]; a rejected promise is the same
      thing, since every call in the source is awaited.
    - The store checks what a handler writes against its schema
      ([convex/schema.ts]), and a handler runs with what its registration
      gives it: [fetch] exists in actions only. *)

From Stdlib Require Import ZArith List Bool Ascii String Lia.
From Stdlib Require Import DecimalString DecimalPos QArith Lqa Permutation Sorted.
Import ListNotations.

Local Open Scope string_scope.
Local Open Scope Z_scope.

(* ================================================================== *)
(** * JavaScript strings and numbers                                   *)
(* ================================================================== *)

Module Js.

(** [s.charCodeAt(i)] for the code unit [c] found at index [i]. *)
Definition charCode (c : ascii) : Z := Z.of_N (N_of_ascii c).

Definition nl : string := String (ascii_of_nat 10) "".
Definition dquote : string := String (ascii_of_nat 34) "".

(** WhiteSpace and LineTerminator code units below 256: TAB, LF, VT, FF,
    CR, SP and NBSP. *)
Definition isWhiteSpace (c : ascii) : bool :=
  let n := charCode c in
  ((9 <=? n) && (n <=? 13)) || (n =? 32) || (n =? 160).

Fixpoint trimStart (s : string) : string :=
  match s with
  | EmptyString => EmptyString
  | String c s' => if isWhiteSpace c then trimStart s' else s
  end.

Fixpoint trimEnd (s : string) : string :=
  match s with
  | EmptyString => EmptyString
  | String c s' =>
      match trimEnd s' with
      | EmptyString => if isWhiteSpace c then EmptyString else String c EmptyString
      | r => String c r
      end
  end.

(** [s.trim()] *)
Definition trim (s : string) : string := trimEnd (trimStart s).

(** Lower-case mapping of one code unit below 256: A-Z, and the Latin-1
    capitals U+00C0..U+00DE except the multiplication sign U+00D7. *)
Definition isUpper (c : ascii) : bool :=
  let n := charCode c in
  ((65 <=? n) && (n <=? 90))
  || ((192 <=? n) && (n <=? 222) && negb (n =? 215)).

Definition lowerChar (c : ascii) : ascii :=
  if isUpper c then ascii_of_N (Z.to_N (charCode c + 32)) else c.

(** [s.toLowerCase()] *)
Fixpoint toLowerCase (s : string) : string :=
  match s with
  | EmptyString => EmptyString
  | String c s' => String (lowerChar c) (toLowerCase s')
  end.

(** [!s] for a string. *)
Definition isEmpty (s : string) : bool :=
  match s with EmptyString => true | _ => false end.

(** [a || b] on strings. *)
Definition orElse (a b : string) : string := if isEmpty a then b else a.

(** [`${n}`] for an integer-valued number. *)
Definition toString (n : Z) : string := NilEmpty.string_of_int (Z.to_int n).

(** [x >>> 0]: ToUint32. *)
Definition to_uint32 (x : Z) : Z := x mod 2 ^ 32.

(** [xs.join(sep)] *)
Definition join (sep : string) (xs : list string) : string := String.concat sep xs.

(** [s.slice(0, e)] for an integer [e]: a negative end counts from the
    end of the string. *)
Definition slice0 (s : string) (e : Z) : string :=
  let len := Z.of_nat (String.length s) in
  let stop := if e <? 0 then Z.max (len + e) 0 else Z.min e len in
  substring 0 (Z.to_nat stop) s.

(** Every integer below 2^53 in absolute value is a float64, and sums
    and products of such integers that stay in the range are exact. *)
Definition safeInteger (x : Z) : Prop := - 2 ^ 53 < x < 2 ^ 53.

End Js.

(** Strings as lists of UTF-16 code units, for the texts whose code units
    are read one by one. *)
Module Utf16.

(** The code units of a string of the range below 256. *)
Definition ofString (s : string) : list Z := map Js.charCode (list_ascii_of_string s).

(** WhiteSpace and LineTerminator of ECMAScript: TAB, LF, VT, FF, CR, SP,
    NBSP, U+1680, U+2000..U+200A, LS, PS, U+202F, U+205F, U+3000 and the
    byte order mark U+FEFF. *)
Definition isWhiteSpace (u : Z) : bool :=
  ((9 <=? u) && (u <=? 13)) || (u =? 32) || (u =? 160) || (u =? 5760)
  || ((8192 <=? u) && (u <=? 8202)) || (u =? 8232) || (u =? 8233)
  || (u =? 8239) || (u =? 8287) || (u =? 12288) || (u =? 65279).

Fixpoint trimStart (s : list Z) : list Z :=
  match s with
  | [] => []
  | u :: s' => if isWhiteSpace u then trimStart s' else s
  end.

Fixpoint trimEnd (s : list Z) : list Z :=
  match s with
  | [] => []
  | u :: s' =>
      match trimEnd s' with
      | [] => if isWhiteSpace u then [] else [u]
      | r => u :: r
      end
  end.

(** [s.trim()] *)
Definition trim (s : list Z) : list Z := trimEnd (trimStart s).

(** [toLowerCase] is given on the code units below 256, the Greek
    letters U+0391..U+03A9 and U+03B1..U+03C9, and the white space above;
    a code unit outside this alphabet is left as it is, which is not what
    the engine does with, say, a Cyrillic capital, and no statement below
    is about a text that holds one.

    The capitals of the alphabet: A-Z, U+00C0..U+00DE except the
    multiplication sign, and the Greek capitals; each has its small
    letter 32 above it. *)
Definition isUpper (u : Z) : bool :=
  ((65 <=? u) && (u <=? 90))
  || ((192 <=? u) && (u <=? 222) && negb (u =? 215))
  || ((913 <=? u) && (u <=? 937) && negb (u =? 930)).

(** The properties Cased and Case_Ignorable of Unicode on the alphabet;
    they decide whether a capital sigma ends a word. *)
Definition isCased (u : Z) : bool :=
  ((65 <=? u) && (u <=? 90)) || ((97 <=? u) && (u <=? 122))
  || (u =? 170) || (u =? 181) || (u =? 186)
  || ((192 <=? u) && (u <=? 214)) || ((216 <=? u) && (u <=? 246))
  || ((248 <=? u) && (u <=? 255))
  || ((913 <=? u) && (u <=? 929)) || ((931 <=? u) && (u <=? 937))
  || ((945 <=? u) && (u <=? 969)).

Definition isCaseIgnorable (u : Z) : bool :=
  (u =? 39) || (u =? 46) || (u =? 58) || (u =? 94) || (u =? 96)
  || (u =? 168) || (u =? 173) || (u =? 175) || (u =? 180) || (u =? 183) || (u =? 184).

Definition capitalSigma : Z := 931.
Definition finalSigma : Z := 962.
Definition smallSigma : Z := 963.

(** A cased letter follows, after case-ignorable code units only. *)
Fixpoint followedByCased (s : list Z) : bool :=
  match s with
  | [] => false
  | u :: s' => if isCaseIgnorable u then followedByCased s' else isCased u
  end.

(** Lower-casing from the left; [afterCased] says that a cased letter
    precedes, with case-ignorable code units only in between.  A capital
    sigma becomes the final sigma when a cased letter precedes it and none
    follows it (the condition Final_Sigma), the small sigma otherwise. *)
Fixpoint lowerFrom (afterCased : bool) (s : list Z) : list Z :=
  match s with
  | [] => []
  | u :: s' =>
      (if u =? capitalSigma
       then if afterCased && negb (followedByCased s') then finalSigma else smallSigma
       else if isUpper u then u + 32 else u)
      :: lowerFrom (if isCaseIgnorable u then afterCased else isCased u) s'
  end.

(** [s.toLowerCase()] *)
Definition toLowerCase (s : list Z) : list Z := lowerFrom false s.

End Utf16.

(* ================================================================== *)
(** * Result of a computation that may throw                           *)
(* ================================================================== *)

Inductive Result (A : Type) : Type :=
| Ok (a : A)
| Throw (message : string).
Arguments Ok {A} a.
Arguments Throw {A} message.

(* ================================================================== *)
(** * convex/memory.ts: layers                                         *)
(* ================================================================== *)

Inductive MemoryLayer : Type :=
| identities | preferences | experiences | activities | contexts | personas.

Definition layers : list MemoryLayer :=
  [identities; preferences; experiences; activities; contexts; personas].

(** The string literal behind each member of the union type. *)
Definition layerName (l : MemoryLayer) : string :=
  match l with
  | identities => "identities"
  | preferences => "preferences"
  | experiences => "experiences"
  | activities => "activities"
  | contexts => "contexts"
  | personas => "personas"
  end.

Definition layerToTable (l : MemoryLayer) : string :=
  match l with
  | identities => "memoryIdentities"
  | preferences => "memoryPreferences"
  | experiences => "memoryExperiences"
  | activities => "memoryActivities"
  | contexts => "memoryContexts"
  | personas => "memoryPersonas"
  end.

(** [layers.includes(name)] on a string that came out of [JSON.parse],
    together with the member it is then used as. *)
Definition findLayer (name : string) : option MemoryLayer :=
  find (fun l => String.eqb (layerName l) name) layers.

Definition layers_includes (name : string) : bool :=
  match findLayer name with Some _ => true | None => false end.

(* ================================================================== *)
(** * convex/memory.ts: hashMemory                                     *)
(* ================================================================== *)

(** The [for] loop of [hashMemory]: [steps] iterations remain, [i] is the
    loop index and [nth_error input i] is [input.charCodeAt(i)]. *)
Fixpoint hashLoop (input : list Z) (steps i : nat) (hash : Z) : Z :=
  match steps with
  | O => hash
  | S steps' =>
      match nth_error input i with
      | Some u => hashLoop input steps' (S i) (Js.to_uint32 (hash * 31 + u))
      | None => hash
      end
  end.

Definition hashNumber (input : list Z) : Z :=
  hashLoop input (List.length input) 0 0.

Definition hashInput (layer : MemoryLayer) (text : list Z) : list Z :=
  let normalized := Utf16.toLowerCase (Utf16.trim text) in
  (Utf16.ofString (layerName layer ++ ":") ++ normalized)%list.

Definition hashMemory (layer : MemoryLayer) (text : list Z) : string :=
  Js.toString (hashNumber (hashInput layer text)).



(* ================================================================== *)
(** * packages/lib/core/src/memory/index.ts: the pure helpers          *)
(* ================================================================== *)

Record MemoryContextItem : Type := mkMemoryContextItem {
  mci_layer : MemoryLayer;
  mci_text : string;
  mci_abstract : string;
  mci_tags : list string;
  mci_score : Q
}.

Definition memoryContextHeading : string := "User Memory Context".

Definition formatLine (item : MemoryContextItem) : string :=
  let tags :=
    match mci_tags item with
    | [] => ""
    | _ => " [" ++ Js.join ", " (mci_tags item) ++ "]"
    end in
  let content := Js.orElse (mci_abstract item) (mci_text item) in
  "- (" ++ layerName (mci_layer item) ++ ") " ++ content ++ tags.

(** The string built before the length test. *)
Definition renderMemoryContext (items : list MemoryContextItem) : string :=
  memoryContextHeading ++ ":" ++ Js.nl ++ Js.join Js.nl (map formatLine items).

(** [formatMemoryContext], with [ENV.MEMORY_CONTEXT_MAX_CHARS] as the
    first argument. *)
Definition formatMemoryContext (MEMORY_CONTEXT_MAX_CHARS : Z)
    (items : list MemoryContextItem) : string :=
  match items with
  | [] => ""
  | _ =>
      let content := renderMemoryContext items in
      if (MEMORY_CONTEXT_MAX_CHARS =? 0)
         || (Z.of_nat (String.length content) <=? MEMORY_CONTEXT_MAX_CHARS)
      then content
      else Js.slice0 content MEMORY_CONTEXT_MAX_CHARS
  end.

(** [mergeSystemPrompt]; [None] is [null]. *)
Definition mergeSystemPrompt (basePrompt : option string) (memoryPrompt : string)
    : option string :=
  if Js.isEmpty memoryPrompt then basePrompt
  else
    match basePrompt with
    | None => Some memoryPrompt
    | Some base =>
        if Js.isEmpty base then Some memoryPrompt
        else Some (base ++ Js.nl ++ Js.nl ++ memoryPrompt)
    end.

(* ================================================================== *)
(** * convex/schema.ts: the document store                             *)
(* ================================================================== *)

Definition Id : Type := nat.
Definition Embedding : Type := list Q.

(** A document of one of the six memory tables: the system field [_id],
    the table it lives in, and [memoryFields]. *)
Record MemoryDoc : Type := mkMemoryDoc {
  doc_id : Id;
  doc_table : string;
  doc_telegramUserId : string;
  doc_sourceChatId : string;
  doc_sourceMessageId : string;
  doc_text : string;
  doc_abstract : string;
  doc_tags : list string;
  doc_embedding : Embedding;
  doc_hash : string;
  doc_createdAt : Z;
  doc_updatedAt : Z
}.

(** The database: every document in creation order, and the next fresh
    identifier. *)
Record Db : Type := mkDb {
  documents : list MemoryDoc;
  nextId : Id
}.

Definition emptyDb : Db := mkDb [] 0%nat.

(** The key of the index [by_user_hash] within one table. *)
Definition by_user_hash (table telegramUserId hash : string) (d : MemoryDoc) : bool :=
  String.eqb (doc_table d) table
  && String.eqb (doc_telegramUserId d) telegramUserId
  && String.eqb (doc_hash d) hash.

(** [ctx.db.query(table).withIndex("by_user_hash", ...).first()] *)
Definition db_queryFirst (db : Db) (table telegramUserId hash : string) : option MemoryDoc :=
  find (by_user_hash table telegramUserId hash) (documents db).

(** [ctx.db.get(id)] *)
Definition db_get (db : Db) (id : Id) : option MemoryDoc :=
  find (fun d => Nat.eqb (doc_id d) id) (documents db).

(** The store after a patch it has accepted: the document [id] is
    rewritten by [f] where it stands. *)
Definition storePatch (db : Db) (id : Id) (f : MemoryDoc -> MemoryDoc) : Db :=
  mkDb (map (fun d => if Nat.eqb (doc_id d) id then f d else d) (documents db))
       (nextId db).

(** The store after an insert it has accepted; [mk] builds the document
    from the identifier the store assigns. *)
Definition storeInsert (db : Db) (mk : Id -> MemoryDoc) : Db :=
  mkDb (documents db ++ [mk (nextId db)]) (S (nextId db)).

(** The validators [memoryFields] puts on its two time stamps, and the
    numeric values a handler can write: a JavaScript number is a float64, a
    bigint an int64, and each validator lets its own kind through only. *)
Inductive Validator : Type := v_int64 | v_float64.

Inductive Numeric : Type :=
| number (n : Z)
| bigint (n : Z).

Definition validates (v : Validator) (x : Numeric) : bool :=
  match v, x with
  | v_int64, bigint _ => true
  | v_float64, number _ => true
  | _, _ => false
  end.

(** What a schema says about [createdAt] and [updatedAt]; the other
    fields of [memoryFields] are strings and arrays that the typed
    payload always satisfies. *)
Record Schema : Type := mkSchema {
  schema_createdAt : Validator;
  schema_updatedAt : Validator
}.

(** [schema.ts]: [createdAt: v.int64(), updatedAt: v.int64()]. *)
Definition memorySchema : Schema := mkSchema v_int64 v_int64.

(** The error of a write that does not match the schema. *)
Definition SchemaValidationError : string :=
  "Failed to insert or update a document because it does not match the schema".

(** [ctx.db.patch(id, { ..., updatedAt })]: the store checks the patched
    document against the schema and writes it only if it matches. *)
Definition db_patch (schema : Schema) (db : Db) (id : Id) (updatedAt : Numeric)
    (f : MemoryDoc -> MemoryDoc) : Result Db :=
  if validates (schema_updatedAt schema) updatedAt
  then Ok (storePatch db id f)
  else Throw SchemaValidationError.

(** [ctx.db.insert(table, { ..., createdAt, updatedAt })] *)
Definition db_insert (schema : Schema) (db : Db) (createdAt updatedAt : Numeric)
    (mk : Id -> MemoryDoc) : Result Db :=
  if validates (schema_createdAt schema) createdAt
     && validates (schema_updatedAt schema) updatedAt
  then Ok (storeInsert db mk)
  else Throw SchemaValidationError.

(* ================================================================== *)
(** * convex/memory.ts: upsertMemory                                   *)
(* ================================================================== *)

Record UpsertPayload : Type := mkUpsertPayload {
  up_layer : MemoryLayer;
  up_telegramUserId : string;
  up_sourceChatId : string;
  up_sourceMessageId : string;
  up_text : string;
  up_abstract : string;
  up_tags : list string;
  up_embedding : Embedding;
  up_hash : string
}.

(** [{ updated: true }] and [{ inserted: true }]. *)
Inductive UpsertResult : Type := Updated | Inserted.

(** The five fields written by the [patch] branch. *)
Definition patchFields (payload : UpsertPayload) (now : Z) (d : MemoryDoc) : MemoryDoc :=
  mkMemoryDoc (doc_id d) (doc_table d)
    (doc_telegramUserId d) (doc_sourceChatId d) (doc_sourceMessageId d)
    (up_text payload) (up_abstract payload) (up_tags payload) (up_embedding payload)
    (doc_hash d) (doc_createdAt d) now.

Definition newDoc (payload : UpsertPayload) (now : Z) (table : string) (id : Id) : MemoryDoc :=
  mkMemoryDoc id table
    (up_telegramUserId payload) (up_sourceChatId payload) (up_sourceMessageId payload)
    (up_text payload) (up_abstract payload) (up_tags payload) (up_embedding payload)
    (up_hash payload) now now.

(** The handler of [upsertMemory] on a store that enforces [schema];
    [now] is the value of [Date.now()], a number.  A write the store
    refuses makes the mutation throw, and a mutation that throws leaves the
    store as it was. *)
Definition upsertMemory (schema : Schema) (now : Z) (payload : UpsertPayload) (db : Db)
    : Result UpsertResult * Db :=
  let table := layerToTable (up_layer payload) in
  match db_queryFirst db table (up_telegramUserId payload) (up_hash payload) with
  | Some existing =>
      match db_patch schema db (doc_id existing) (number now) (patchFields payload now) with
      | Ok db' => (Ok Updated, db')
      | Throw e => (Throw e, db)
      end
  | None =>
      match db_insert schema db (number now) (number now) (newDoc payload now table) with
      | Ok db' => (Ok Inserted, db')
      | Throw e => (Throw e, db)
      end
  end.

(** States of the store when [upsertMemory] is its only writer, under
    whatever schema. *)
Inductive reachable : Db -> Prop :=
| reachable_empty : reachable emptyDb
| reachable_upsert : forall sch now payload db,
    reachable db -> reachable (snd (upsertMemory sch now payload db)).

(** Number of documents of a table under one [(telegramUserId, hash)]. *)
Definition countKey (db : Db) (table telegramUserId hash : string) : nat :=
  List.length (filter (by_user_hash table telegramUserId hash) (documents db)).

Definition uniqueKeys (db : Db) : Prop :=
  forall table telegramUserId hash, (countKey db table telegramUserId hash <= 1)%nat.

Definition uniqueIds (db : Db) : Prop :=
  NoDup (map doc_id (documents db))
  /\ Forall (fun d => (doc_id d < nextId db)%nat) (documents db).

(* ================================================================== *)
(** * convex/memory.ts: providers, events and the action monad         *)
(* ================================================================== *)

Record ChatRequest : Type := mkChatRequest {
  chat_model : string;
  chat_system : string;
  chat_user : string
}.

(** The part of a chat-completion body the code reads:
    [data.choices?.[0]?.message?.content]. *)
Record ChatMessage : Type := mkChatMessage { message_content : option string }.
Record ChatChoice : Type := mkChatChoice { choice_message : option ChatMessage }.
Record ChatResponse : Type := mkChatResponse {
  chat_ok : bool;
  chat_status : Z;
  chat_choices : option (list ChatChoice)
}.

(** The body of an embedding request.  [JSON.stringify] leaves a
    property out whose value is [undefined]: [None] is a body without
    [input]. *)
Record EmbeddingRequest : Type := embeddingBody {
  emb_input : option string;
  emb_model : string
}.

(** The body for a text that is a string. *)
Definition mkEmbeddingRequest (input model : string) : EmbeddingRequest :=
  embeddingBody (Some input) model.
Record EmbeddingDatum : Type := mkEmbeddingDatum {
  datum_embedding : Embedding;
  datum_index : Z
}.
Record EmbeddingResponse : Type := mkEmbeddingResponse {
  emb_ok : bool;
  emb_status : Z;
  emb_data : list EmbeddingDatum
}.

(** A hit of the vector index: [{ _id, _score }]. *)
Record VectorMatch : Type := mkVectorMatch {
  match_id : Id;
  match_score : Q
}.

(** What [JSON.parse(content)] is declared to be: an object with an
    optional [items] array.  The declaration is a cast that nothing
    checks: [item_layer] is an arbitrary string, which is why the loop
    tests it against [layers], and the [text] and the [abstract] of an item
    may be missing, [None] being [undefined]. *)
Record ExtractedItem : Type := mkExtractedItem {
  item_layer : string;
  item_text : option string;
  item_abstract : option string;
  item_tags : list string
}.
Record ExtractionResponse : Type := mkExtractionResponse {
  parsed_items : option (list ExtractedItem)
}.

(** What [JSON.parse] yields for a content that parses: [null], or a
    value of which [items] can be read.  A number, a string, a boolean or
    an array has no [items] and is a [ParsedObject] without them. *)
Inductive Parsed : Type :=
| ParsedNull
| ParsedObject (response : ExtractionResponse).

Record ExtractionPayload : Type := mkExtractionPayload {
  ex_telegramUserId : string;
  ex_sourceChatId : string;
  ex_sourceMessageId : string;
  ex_text : string;
  ex_context : string
}.

Record ContextPayload : Type := mkContextPayload {
  cx_telegramUserId : string;
  cx_query : string
}.

(** What leaves the handler: provider requests, mutations, index scans. *)
Inductive Event : Type :=
| FetchChat (request : ChatRequest)
| FetchEmbedding (request : EmbeddingRequest)
| RunUpsert (payload : UpsertPayload)
| VectorSearch (table : string) (vector : Embedding) (limit : nat) (telegramUserId : string).

(** Everything outside the code.  A provider answers a request knowing
    what happened before it; [Throw] is a rejected [fetch].  [JSON_parse]
    is [JSON.parse] read at the type the source declares for its result,
    [None] being the [SyntaxError].  [mutationFailure] says whether the
    back end fails to run a mutation, and with which error; [schema] is
    the schema its store enforces, [memorySchema] in the repository. *)
Record Environment : Type := mkEnvironment {
  OPENROUTER_API_KEY : option string;
  OPENROUTER_CHAT_MODEL : option string;
  OPENROUTER_EMBEDDING_MODEL : option string;
  chatCompletions : list Event -> ChatRequest -> Result ChatResponse;
  embeddings : list Event -> EmbeddingRequest -> Result EmbeddingResponse;
  JSON_parse : string -> option Parsed;
  Date_now : list Event -> Z;
  mutationFailure : list Event -> UpsertPayload -> option string;
  vectorSearch : Db -> string -> Embedding -> nat -> string -> Result (list VectorMatch);
  schema : Schema
}.

Record World : Type := mkWorld {
  db : Db;
  trace : list Event
}.

Definition M (A : Type) : Type := World -> Result A * World.

Definition ret {A} (a : A) : M A := fun w => (Ok a, w).

Definition bind {A B} (m : M A) (f : A -> M B) : M B :=
  fun w =>
    match m w with
    | (Ok a, w') => f a w'
    | (Throw e, w') => (Throw e, w')
    end.

Definition throw {A} (message : string) : M A := fun w => (Throw message, w).

Definition emit (e : Event) : M unit :=
  fun w => (Ok tt, mkWorld (db w) (trace w ++ [e])).

(** [await fetch(...)]: the request is recorded and the provider's
    answer, which may depend on what happened before, comes back. *)
Definition fetch {A} (request : Event) (answer : list Event -> Result A) : M A :=
  fun w => (answer (trace w), mkWorld (db w) (trace w ++ [request])).

Declare Scope action_scope.
Delimit Scope action_scope with action.
Notation "x <- m ;; k" := (bind m (fun x => k))
  (at level 61, m at next level, right associativity) : action_scope.
Notation "m ;;; k" := (bind m (fun _ => k))
  (at level 61, right associativity) : action_scope.
Local Open Scope action_scope.

Fixpoint mapM {A B} (f : A -> M B) (l : list A) : M (list B) :=
  match l with
  | [] => ret []
  | a :: l' => b <- f a ;; bs <- mapM f l' ;; ret (b :: bs)
  end.

(** [process.env.X || fallback] *)
Definition envOr (x : option string) (fallback : string) : string :=
  match x with
  | Some s => Js.orElse s fallback
  | None => fallback
  end.

(** [!apiKey] *)
Definition unset (x : option string) : bool :=
  match x with
  | Some s => Js.isEmpty s
  | None => true
  end.

Section Handlers.

Variable env : Environment.

(** [fetchEmbedding]; the declared type of [text] is [string], but the
    loop of [extractMemories] can hand it [undefined], which is [None]. *)
Definition fetchEmbedding (text : option string) : M Embedding :=
  let model := envOr (OPENROUTER_EMBEDDING_MODEL env) "text-embedding-3-large" in
  if unset (OPENROUTER_API_KEY env) then throw "OPENROUTER_API_KEY is not set"
  else
    let request := embeddingBody text model in
    response <- fetch (FetchEmbedding request) (fun events => embeddings env events request) ;;
    if negb (emb_ok response)
    then throw ("OpenRouter embeddings failed: " ++ Js.toString (emb_status response))
    else
      ret match emb_data response with
          | d :: _ => datum_embedding d
          | [] => []
          end.

(** [ctx.runMutation(anyApi.memory.upsertMemory, { payload })] *)
Definition runUpsert (payload : UpsertPayload) : M UpsertResult :=
  fun w =>
    let w1 := mkWorld (db w) (trace w ++ [RunUpsert payload]) in
    match mutationFailure env (trace w) payload with
    | Some e => (Throw e, w1)
    | None =>
        let (r, db') := upsertMemory (schema env) (Date_now env (trace w)) payload (db w) in
        (r, mkWorld db' (trace w1))
    end.

Definition extractionSystemPrompt : string :=
  "You are a memory extraction service. Extract JSON memories grouped by layer: identities, preferences, experiences, activities, contexts, personas. Return strict JSON with key "
  ++ Js.dquote ++ "items" ++ Js.dquote
  ++ " as array of objects {layer, text, abstract, tags}. Only include meaningful user-specific facts.".

(** [a || b] for two values that are strings or [undefined]. *)
Definition orUndefined (a b : option string) : option string :=
  match a with
  | Some s => if Js.isEmpty s then b else Some s
  | None => b
  end.

(** [item.text || item.abstract] *)
Definition embeddingInput (item : ExtractedItem) : option string :=
  orUndefined (item_text item) (item_abstract item).

(** [hashMemory(layer, undefined)]: [text.trim()] on [undefined]. *)
Definition TypeErrorTrim : string :=
  "Cannot read properties of undefined (reading 'trim')".

(** [parsed.items] on [null]. *)
Definition TypeErrorItems : string :=
  "Cannot read properties of null (reading 'items')".

(** The error of [runMutation] for arguments that do not match the
    validator [UpsertPayload], here a [text] or an [abstract] that is
    missing. *)
Definition ArgumentValidationError : string := "ArgumentValidationError".

(** The payload the loop hands to [upsertMemory] for an item with the
    given [text] and [abstract], [input] being [text || abstract]. *)
Definition itemUpsertPayload (payload : ExtractionPayload) (layer : MemoryLayer)
    (input text abstract : string) (tags : list string) (embedding : Embedding)
    : UpsertPayload :=
  let hash := hashMemory layer (Utf16.ofString input) in
  mkUpsertPayload layer
    (ex_telegramUserId payload) (ex_sourceChatId payload) (ex_sourceMessageId payload)
    text abstract tags
    embedding hash.

(** The body of [for (const item of parsed.items || [])]. *)
Fixpoint extractLoop (payload : ExtractionPayload) (items : list ExtractedItem)
    (inserted : Z) : M Z :=
  match items with
  | [] => ret inserted
  | item :: rest =>
      match findLayer (item_layer item) with
      | None => extractLoop payload rest inserted
      | Some layer =>
          embedding <- fetchEmbedding (embeddingInput item) ;;
          match embeddingInput item with
          | None => throw TypeErrorTrim
          | Some input =>
              match item_text item, item_abstract item with
              | Some text, Some abstract =>
                  runUpsert (itemUpsertPayload payload layer input text abstract
                               (item_tags item) embedding) ;;;
                  extractLoop payload rest (inserted + 1)
              | _, _ => throw ArgumentValidationError
              end
          end
      end
  end.

Definition chatRequest (payload : ExtractionPayload) : ChatRequest :=
  mkChatRequest (envOr (OPENROUTER_CHAT_MODEL env) "openai/gpt-4o-mini")
    extractionSystemPrompt
    ("Conversation message: " ++ ex_text payload ++ Js.nl
     ++ "Context window:" ++ Js.nl ++ ex_context payload).

(** [data.choices?.[0]?.message?.content] *)
Definition responseContent (response : ChatResponse) : option string :=
  match chat_choices response with
  | Some (choice :: _) =>
      match choice_message choice with
      | Some m => message_content m
      | None => None
      end
  | _ => None
  end.

(** The handler of [extractMemories]; the result is [inserted]. *)
Definition extractMemories (payload : ExtractionPayload) : M Z :=
  if unset (OPENROUTER_API_KEY env) then throw "OPENROUTER_API_KEY is not set"
  else
    let request := chatRequest payload in
    response <- fetch (FetchChat request) (fun events => chatCompletions env events request) ;;
    if negb (chat_ok response)
    then throw ("OpenRouter extraction failed: " ++ Js.toString (chat_status response))
    else
      match responseContent response with
      | None => ret 0
      | Some content =>
          if Js.isEmpty content then ret 0
          else
            match JSON_parse env content with
            | None => throw "Failed to parse memory extraction response"
            | Some ParsedNull => throw TypeErrorItems
            | Some (ParsedObject parsed) =>
                extractLoop payload
                  match parsed_items parsed with Some items => items | None => [] end
                  0
            end
      end.

End Handlers.

Definition MalformedExtractionResponse : string :=
  "Failed to parse memory extraction response".

(** [process.env.OPENROUTER_EMBEDDING_MODEL || "text-embedding-3-large"] *)
Definition embeddingModel (env : Environment) : string :=
  envOr (OPENROUTER_EMBEDDING_MODEL env) "text-embedding-3-large".

(** The items of a parsed response that name a known layer. *)
Definition accepted (items : list ExtractedItem) : list ExtractedItem :=
  filter (fun item => layers_includes (item_layer item)) items.

(** The embedding a successful answer carries: [data.data[0]?.embedding || []]. *)
Definition firstEmbedding (response : EmbeddingResponse) : Embedding :=
  match emb_data response with
  | d :: _ => datum_embedding d
  | [] => []
  end.

(** The schema lets the handler's writes through: it types both time
    stamps as numbers. *)
Definition storeAccepts (sch : Schema) : Prop :=
  schema_createdAt sch = v_float64 /\ schema_updatedAt sch = v_float64.

(** Nothing fails on the items of [items] that name a known layer: each
    has a text and an abstract, the provider answers the request for its
    embedding with success whenever it is asked, and the back end runs the
    mutation and its store accepts the write. *)
Definition itemsSucceed (env : Environment) (payload : ExtractionPayload)
    (items : list ExtractedItem) : Prop :=
  (forall tr item, In item (accepted items) ->
     exists text abstract response,
       item_text item = Some text
       /\ item_abstract item = Some abstract
       /\ embeddings env tr (mkEmbeddingRequest (Js.orElse text abstract) (embeddingModel env))
          = Ok response
       /\ emb_ok response = true)
  /\ (forall tr item layer text abstract embedding,
        In item (accepted items) ->
        item_text item = Some text -> item_abstract item = Some abstract ->
        mutationFailure env tr
          (itemUpsertPayload payload layer (Js.orElse text abstract) text abstract
             (item_tags item) embedding)
        = None)
  /\ (forall item, In item (accepted items) -> storeAccepts (schema env)).

(** The mutations and the embedding requests recorded in a trace. *)
Fixpoint upsertsOf (events : list Event) : list UpsertPayload :=
  match events with
  | [] => []
  | RunUpsert p :: events' => p :: upsertsOf events'
  | _ :: events' => upsertsOf events'
  end.

Fixpoint embeddingInputsOf (events : list Event) : list (option string) :=
  match events with
  | [] => []
  | FetchEmbedding request :: events' => emb_input request :: embeddingInputsOf events'
  | _ :: events' => embeddingInputsOf events'
  end.

(* ================================================================== *)
(** * convex/memory.ts: memoryContext                                  *)
(* ================================================================== *)

(** [Array.prototype.sort(compare)]: the stable sort by a comparator whose
    positive result sends its first argument behind the second. *)
Fixpoint sortInsert {A} (compare : A -> A -> Q) (x : A) (l : list A) : list A :=
  match l with
  | [] => [x]
  | y :: l' =>
      if Qle_bool (compare x y) 0 then x :: l
      else y :: sortInsert compare x l'
  end.

Fixpoint Array_sort {A} (compare : A -> A -> Q) (l : list A) : list A :=
  match l with
  | [] => []
  | x :: l' => sortInsert compare x (Array_sort compare l')
  end.

(** [records.filter(Boolean)] *)
Fixpoint filterBoolean {A} (l : list (option A)) : list A :=
  match l with
  | [] => []
  | Some a :: l' => a :: filterBoolean l'
  | None :: l' => filterBoolean l'
  end.

(** [xs.map((x, index) => f x index)], counting from [index]. *)
Fixpoint mapIndexed {A B} (f : A -> nat -> B) (index : nat) (l : list A) : list B :=
  match l with
  | [] => []
  | a :: l' => f a index :: mapIndexed f (S index) l'
  end.

Definition perLayerLimit : nat := 3.

(** What the callback of [layers.map] returns for the hits [matches]: the
    records behind them that exist, each with its layer; the score of the
    record at position [index] of the filtered array is
    [matches[index]?._score ?? 0]. *)
Definition layerHits (d : Db) (layer : MemoryLayer) (matches : list VectorMatch)
    : list (MemoryLayer * MemoryDoc * Q) :=
  let records := map (fun m => db_get d (match_id m)) matches in
  mapIndexed
    (fun record index =>
       (layer, record,
        match nth_error matches index with
        | Some m => match_score m
        | None => 0%Q
        end))
    0%nat (filterBoolean records).

Section Retrieval.

Variable env : Environment.

Local Open Scope action_scope.

(** The callback of [layers.map] up to its first [await]: the vector
    search is issued, with the limit and the filter on the owner.  [map]
    runs this part for all six layers before any answer is awaited. *)
Definition startSearch (payload : ContextPayload) (queryEmbedding : Embedding)
    (layer : MemoryLayer) : M unit :=
  emit (VectorSearch (layerToTable layer) queryEmbedding perLayerLimit
          (cx_telegramUserId payload)).

(** The rest of the callback: the answer of the index and the records
    behind its hits. *)
Definition awaitSearch (payload : ContextPayload) (queryEmbedding : Embedding)
    (layer : MemoryLayer) : M (list (MemoryLayer * MemoryDoc * Q)) :=
  fun w =>
    match vectorSearch env (db w) (layerToTable layer) queryEmbedding perLayerLimit
                       (cx_telegramUserId payload) with
    | Throw e => (Throw e, w)
    | Ok matches => (Ok (layerHits (db w) layer matches), w)
    end.

Definition toItem (r : MemoryLayer * MemoryDoc * Q) : MemoryContextItem :=
  let '(layer, record, score) := r in
  mkMemoryContextItem layer (doc_text record) (doc_abstract record) (doc_tags record) score.

Definition byScoreDescending (a b : MemoryContextItem) : Q :=
  (mci_score b - mci_score a)%Q.

(** The handler of [memoryContext]; the result is [items].  [Promise.all]
    rejects as soon as one search fails: of several failures the model
    reports the one of the first layer. *)
Definition memoryContext (payload : ContextPayload) : M (list MemoryContextItem) :=
  queryEmbedding <- fetchEmbedding env (Some (cx_query payload)) ;;
  mapM (startSearch payload queryEmbedding) layers ;;;
  results <- mapM (awaitSearch payload queryEmbedding) layers ;;
  let items := map toItem (List.concat results) in
  ret (Array_sort byScoreDescending items).

End Retrieval.

(** How [memory.ts] registers a function.  The runtime gives [fetch] to
    actions only: in a query or a mutation the call is refused. *)
Inductive Registration : Type :=
| queryGeneric
| mutationGeneric
| actionGeneric
| httpActionGeneric.

Definition fetchAvailable (registration : Registration) : bool :=
  match registration with
  | actionGeneric | httpActionGeneric => true
  | queryGeneric | mutationGeneric => false
  end.

(** The surroundings as a function registered in the given way meets
    them; [refusal] is the error with which the runtime refuses [fetch]. *)
Definition runtime (registration : Registration) (refusal : string) (env : Environment)
    : Environment :=
  if fetchAvailable registration then env
  else
    mkEnvironment (OPENROUTER_API_KEY env) (OPENROUTER_CHAT_MODEL env)
      (OPENROUTER_EMBEDDING_MODEL env)
      (fun _ _ => Throw refusal)
      (fun _ _ => Throw refusal)
      (JSON_parse env) (Date_now env) (mutationFailure env) (vectorSearch env)
      (schema env).

(** [export const memoryContext = queryGeneric({ handler })]: the handler
    as the back end runs it. *)
Definition memoryContextQuery (refusal : string) (env : Environment)
    (payload : ContextPayload) : M (list MemoryContextItem) :=
  memoryContext (runtime queryGeneric refusal env) payload.

(** [export const extractMemories = actionGeneric({ handler })] *)
Definition extractMemoriesAction (refusal : string) (env : Environment)
    (payload : ExtractionPayload) : M Z :=
  extractMemories (runtime actionGeneric refusal env) payload.

(* ================================================================== *)
(** * packages/lib/core/src/memory/index.ts: the rate gate             *)
(* ================================================================== *)

(** [ENV.DATABASE]: a key-value store whose entries expire.  Times are in
    milliseconds, the unit of [Date.now()]. *)
Record KvEntry : Type := mkKvEntry {
  kv_value : string;
  kv_expiration : Z
}.

Definition KV : Type := string -> option KvEntry.

Definition emptyKV : KV := fun _ => None.

(** [DATABASE.get(key)] at time [nowMs]: [None] is [null]. *)
Definition kv_get (kv : KV) (nowMs : Z) (key : string) : option string :=
  match kv key with
  | Some e => if nowMs <? kv_expiration e then Some (kv_value e) else None
  | None => None
  end.

(** [DATABASE.put(key, value, { expirationTtl })] at time [nowMs]. *)
Definition kv_put (kv : KV) (nowMs : Z) (key value : string) (expirationTtl : Z) : KV :=
  fun k =>
    if String.eqb k key then Some (mkKvEntry value (nowMs + 1000 * expirationTtl))
    else kv k.

Definition isDigit (c : ascii) : bool :=
  (48 <=? Js.charCode c) && (Js.charCode c <=? 57).

Fixpoint takeDigits (s : string) : string :=
  match s with
  | EmptyString => EmptyString
  | String c s' => if isDigit c then String c (takeDigits s') else EmptyString
  end.

(** [Number.parseInt(s, 10)]: leading white space, an optional sign, the
    longest run of decimal digits; [None] is NaN. *)
Definition parseInt10 (s : string) : option Z :=
  let s := Js.trimStart s in
  let '(negative, rest) :=
    match s with
    | String "-"%char r => (true, r)
    | String "+"%char r => (false, r)
    | _ => (false, s)
    end in
  match takeDigits rest with
  | EmptyString => None
  | digits =>
      match NilEmpty.uint_of_string digits with
      | Some d => Some (if negative then - Z.of_uint d else Z.of_uint d)
      | None => None
      end
  end.

Definition extractKey (telegramUserId : string) : string :=
  "memory_extract:last:" ++ telegramUserId.

(** What the [get(...).then(parseInt).catch(() => 0)] chain yields;
    [getRejects] says that the [get] promise is rejected. *)
Definition lastTrigger (kv : KV) (nowMs : Z) (getRejects : bool) (key : string) : option Z :=
  if getRejects then Some 0
  else
    parseInt10 match kv_get kv nowMs key with
               | Some value => Js.orElse value "0"
               | None => "0"
               end.

(** [shouldExtractMemory], with
    [ENV.MEMORY_EXTRACTION_MIN_INTERVAL_SECONDS] as the first argument and
    [Date.now()] as the second. *)
Definition shouldExtractMemory (MIN_INTERVAL_SECONDS : Z) (nowMs : Z) (getRejects : bool)
    (telegramUserId : string) (kv : KV) : bool * KV :=
  if MIN_INTERVAL_SECONDS <=? 0 then (true, kv)
  else
    let key := extractKey telegramUserId in
    let last := lastTrigger kv nowMs getRejects key in
    let now := nowMs / 1000 in
    let allow := (true, kv_put kv nowMs key (Js.toString now) MIN_INTERVAL_SECONDS) in
    match last with
    | Some last => if now - last <? MIN_INTERVAL_SECONDS then (false, kv) else allow
    | None => allow
    end.

(** A run of calls for one owner at the given times, every read of the
    store succeeding. *)
Fixpoint gateRun (MIN_INTERVAL_SECONDS : Z) (telegramUserId : string)
    (times : list Z) (kv : KV) : list (Z * bool) * KV :=
  match times with
  | [] => ([], kv)
  | t :: times' =>
      let (allowed, kv1) := shouldExtractMemory MIN_INTERVAL_SECONDS t false telegramUserId kv in
      let (rest, kv2) := gateRun MIN_INTERVAL_SECONDS telegramUserId times' kv1 in
      ((t, allowed) :: rest, kv2)
  end.

(* ================================================================== *)
(** * convex/memory.ts: the HTTP routes                                *)
(* ================================================================== *)

Local Unset Elimination Schemes.

(** What [request.json()] yields. *)
Inductive Json : Type :=
| JNull
| JBool (b : bool)
| JNumber (q : Q)
| JString (s : string)
| JArray (elements : list Json)
| JObject (fields : list (string * Json)).

Local Set Elimination Schemes.

(** [!!v] *)
Definition truthy (v : Json) : bool :=
  match v with
  | JNull => false
  | JBool b => b
  | JNumber q => negb (Qeq_bool q 0)
  | JString s => negb (Js.isEmpty s)
  | JArray _ | JObject _ => true
  end.

(** [typeof v === "object"] *)
Definition typeofObject (v : Json) : bool :=
  match v with
  | JNull | JArray _ | JObject _ => true
  | _ => false
  end.

(** The property [name] of an object; [None] is [undefined]. *)
Fixpoint lookupField (fields : list (string * Json)) (name : string) : option Json :=
  match fields with
  | [] => None
  | (k, v) :: fields' => if String.eqb k name then Some v else lookupField fields' name
  end.

(** [const { name } = payload] for a payload that passed the object test:
    an array has none of the names the parsers ask for. *)
Definition getField (payload : Json) (name : string) : option Json :=
  match payload with
  | JObject fields => lookupField fields name
  | _ => None
  end.

(** [parseExtractionPayload] *)
Definition parseExtractionPayload (payload : Json) : Result ExtractionPayload :=
  if negb (truthy payload) || negb (typeofObject payload)
  then Throw "Invalid extraction payload"
  else
    match getField payload "telegramUserId", getField payload "sourceChatId",
          getField payload "sourceMessageId", getField payload "text",
          getField payload "context" with
    | Some (JString telegramUserId), Some (JString sourceChatId),
      Some (JString sourceMessageId), Some (JString text), Some (JString context) =>
        Ok (mkExtractionPayload telegramUserId sourceChatId sourceMessageId text context)
    | _, _, _, _, _ => Throw "Invalid extraction payload fields"
    end.

(** [parseContextPayload] *)
Definition parseContextPayload (payload : Json) : Result ContextPayload :=
  if negb (truthy payload) || negb (typeofObject payload)
  then Throw "Invalid context payload"
  else
    match getField payload "telegramUserId", getField payload "query" with
    | Some (JString telegramUserId), Some (JString query) =>
        Ok (mkContextPayload telegramUserId query)
    | _, _ => Throw "Invalid context payload fields"
    end.

(** The back end with its scheduler: the jobs [ctx.scheduler.runAfter] has
    queued for [extractMemories], oldest first. *)
Record Server : Type := mkServer {
  world : World;
  scheduled : list ExtractionPayload
}.

(** The handler of [autoExtractFromMessage]; the result is [queued]. *)
Definition autoExtractFromMessage (payload : ExtractionPayload) (server : Server)
    : Result bool * Server :=
  (Ok true, mkServer (world server) (scheduled server ++ [payload])%list).

Inductive ResponseBody : Type :=
| OkBody
| ItemsBody (items : list MemoryContextItem).

Record HttpResponse : Type := mkHttpResponse {
  response_status : Z;
  response_body : ResponseBody
}.

(** The handler of [POST /memory/auto-extract]; [body] is the outcome of
    [request.json()]. *)
Definition routeAutoExtract (body : Result Json) (server : Server)
    : Result HttpResponse * Server :=
  match body with
  | Throw e => (Throw e, server)
  | Ok payload =>
      match parseExtractionPayload payload with
      | Throw e => (Throw e, server)
      | Ok parsed =>
          match autoExtractFromMessage parsed server with
          | (Throw e, server') => (Throw e, server')
          | (Ok _, server') => (Ok (mkHttpResponse 200 OkBody), server')
          end
      end
  end.

(** The handler of [POST /memory/context]. *)
Definition routeContext (env : Environment) (body : Result Json) : M HttpResponse :=
  match body with
  | Throw e => throw e
  | Ok payload =>
      match parseContextPayload payload with
      | Throw e => throw e
      | Ok parsed =>
          bind (memoryContext env parsed)
               (fun items => ret (mkHttpResponse 200 (ItemsBody items)))
      end
  end.

(** The objects the worker serialises as request bodies. *)
Definition extractionPayloadJson (p : ExtractionPayload) : Json :=
  JObject [("telegramUserId", JString (ex_telegramUserId p));
           ("sourceChatId", JString (ex_sourceChatId p));
           ("sourceMessageId", JString (ex_sourceMessageId p));
           ("text", JString (ex_text p));
           ("context", JString (ex_context p))].

Definition contextPayloadJson (p : ContextPayload) : Json :=
  JObject [("telegramUserId", JString (cx_telegramUserId p));
           ("query", JString (cx_query p))].

(* ================================================================== *)
(** * packages/lib/core/src/memory/index.ts: the worker's client       *)
(* ================================================================== *)

(** The settings of [ENV] that the module reads. *)
Record WorkerEnv : Type := mkWorkerEnv {
  MEMORY_ENABLE : bool;
  MEMORY_CONVEX_URL : string;
  MEMORY_CONVEX_SECRET : string;
  MEMORY_CONTEXT_MAX_CHARS : Z;
  MEMORY_EXTRACTION_MIN_INTERVAL_SECONDS : Z;
  MEMORY_EXTRACTION_MAX_CONTEXT_MESSAGES : Z
}.

(** [isMemoryEnabled] *)
Definition isMemoryEnabled (ENV : WorkerEnv) : bool :=
  MEMORY_ENABLE ENV && negb (Js.isEmpty (MEMORY_CONVEX_URL ENV)).

Definition isSlash (c : ascii) : bool := Js.charCode c =? 47.

(** [raw.replace(/\/+$/, '')]: the run of slashes that ends the string is
    removed. *)
Fixpoint normalizeConvexUrl (raw : string) : string :=
  match raw with
  | EmptyString => EmptyString
  | String c raw' =>
      match normalizeConvexUrl raw' with
      | EmptyString => if isSlash c then EmptyString else String c EmptyString
      | r => String c r
      end
  end.

(** The fields of a Telegram message that the module reads:
    [message.from?.id], [message.chat.id] and [message.message_id]. *)
Record Message : Type := mkMessage {
  from_id : option Z;
  chat_id : Z;
  message_id : Z
}.

(** [resolveUserId]: [message.from?.id ?? message.chat.id], printed. *)
Definition resolveUserId (message : Message) : string :=
  Js.toString match from_id message with
              | Some id => id
              | None => chat_id message
              end.

(** [resolveChatId] *)
Definition resolveChatId (message : Message) : string :=
  Js.toString (chat_id message).

(** The content of a user message as [messageToText] looks at it: a
    string, an array of parts of which those of type [text] carry a text,
    or anything else. *)
Inductive ContentPart : Type :=
| TextPart (text : string)
| OtherPart.

Inductive MessageContent : Type :=
| ContentString (s : string)
| ContentParts (parts : list ContentPart)
| ContentOther.

Definition isTextPart (part : ContentPart) : bool :=
  match part with TextPart _ => true | OtherPart => false end.

Definition partText (part : ContentPart) : string :=
  match part with TextPart text => text | OtherPart => "" end.

(** [messageToText]; [None] is a [null] message. *)
Definition messageToText (message : option MessageContent) : string :=
  match message with
  | None => ""
  | Some (ContentString s) => s
  | Some (ContentParts parts) =>
      Js.trim (Js.join " " (map partText (filter isTextPart parts)))
  | Some ContentOther => ""
  end.

(** A request the worker posts to the back end, and the two answers it
    reads. *)
Record HttpRequest : Type := mkHttpRequest {
  request_url : string;
  request_authorization : option string;
  request_body : Json
}.

Record ContextAnswer : Type := mkContextAnswer {
  context_ok : bool;
  context_statusText : string;
  context_items : option (list MemoryContextItem)
}.

Record ExtractAnswer : Type := mkExtractAnswer {
  extract_ok : bool;
  extract_status : Z;
  extract_text : string
}.

(** The worker's surroundings: the key-value store and the requests it
    has sent, oldest first. *)
Record Worker : Type := mkWorker {
  DATABASE : KV;
  sent : list HttpRequest
}.

(** The [headers.Authorization] of a request. *)
Definition authorization (ENV : WorkerEnv) : option string :=
  if Js.isEmpty (MEMORY_CONVEX_SECRET ENV) then None
  else Some ("Bearer " ++ MEMORY_CONVEX_SECRET ENV).

Definition contextRequest (ENV : WorkerEnv) (query : string) (message : Message)
    : HttpRequest :=
  mkHttpRequest (normalizeConvexUrl (MEMORY_CONVEX_URL ENV) ++ "/memory/context")
    (authorization ENV)
    (contextPayloadJson (mkContextPayload (resolveUserId message) query)).

(** [fetchMemoryContext]; [endpoint] is the back end's answer to a
    request, [Throw] a rejected [fetch]. *)
Definition fetchMemoryContext (ENV : WorkerEnv)
    (endpoint : HttpRequest -> Result ContextAnswer)
    (query : string) (message : Message) (w : Worker)
    : Result (list MemoryContextItem) * Worker :=
  if negb (isMemoryEnabled ENV) then (Ok [], w)
  else
    let request := contextRequest ENV query message in
    let w1 := mkWorker (DATABASE w) (sent w ++ [request])%list in
    match endpoint request with
    | Throw e => (Throw e, w1)
    | Ok response =>
        if negb (context_ok response)
        then (Throw ("Memory context request failed: " ++ context_statusText response), w1)
        else (Ok match context_items response with
                 | Some items => items
                 | None => []
                 end, w1)
    end.

(** [buildMemoryPrompt] *)
Definition buildMemoryPrompt (ENV : WorkerEnv)
    (endpoint : HttpRequest -> Result ContextAnswer)
    (message : Message) (params : option MessageContent) (w : Worker)
    : Result string * Worker :=
  if negb (isMemoryEnabled ENV) then (Ok "", w)
  else
    let query := messageToText params in
    if Js.isEmpty query then (Ok "", w)
    else
      match fetchMemoryContext ENV endpoint query message w with
      | (Throw e, w') => (Throw e, w')
      | (Ok items, w') => (Ok (formatMemoryContext (MEMORY_CONTEXT_MAX_CHARS ENV) items), w')
      end.

Definition extractionRequest (ENV : WorkerEnv) (payload : ExtractionPayload) : HttpRequest :=
  mkHttpRequest (normalizeConvexUrl (MEMORY_CONVEX_URL ENV) ++ "/memory/auto-extract")
    (authorization ENV)
    (extractionPayloadJson payload).

(** [sendAutoExtraction] *)
Definition sendAutoExtraction (ENV : WorkerEnv)
    (endpoint : HttpRequest -> Result ExtractAnswer)
    (payload : ExtractionPayload) (w : Worker) : Result unit * Worker :=
  if negb (isMemoryEnabled ENV) then (Ok tt, w)
  else
    let request := extractionRequest ENV payload in
    let w1 := mkWorker (DATABASE w) (sent w ++ [request])%list in
    match endpoint request with
    | Throw e => (Throw e, w1)
    | Ok response =>
        if negb (extract_ok response)
        then (Throw ("Memory extraction request failed: "
                     ++ Js.toString (extract_status response) ++ " "
                     ++ extract_text response), w1)
        else (Ok tt, w1)
    end.

Section History.

(** [HistoryItem] and [extractTextContent] come from the agent module;
    [parseHistory] is [JSON.parse] on a stored history, [None] when it
    throws or yields something that is not an array. *)
Variable HistoryItem : Type.
Variable extractTextContent : HistoryItem -> string.
Variable parseHistory : string -> option (list HistoryItem).

(** [loadHistory]: a missing key reads as [null], which parses to [null]
    and is replaced by the empty history. *)
Definition loadHistory (kv : KV) (nowMs : Z) (key : string) : list HistoryItem :=
  match kv_get kv nowMs key with
  | None => []
  | Some value =>
      match parseHistory value with
      | Some history => history
      | None => []
      end
  end.

(** [history.slice(-limit)] for a positive [limit]. *)
Definition lastItems (limit : Z) (history : list HistoryItem) : list HistoryItem :=
  skipn (List.length history - Z.to_nat limit) history.

(** [buildContextWindow] *)
Definition buildContextWindow (history : list HistoryItem) (limit : Z) : string :=
  if (limit <=? 0) || (List.length history =? 0)%nat then ""
  else
    let recent := lastItems limit history in
    let lines :=
      map (fun text => "- " ++ Js.trim text)
        (filter (fun text => negb (Js.isEmpty text)
                             && (0 <? String.length (Js.trim text))%nat)
           (map extractTextContent recent)) in
    Js.join Js.nl lines.

(** [queueMemoryExtraction]; [chatHistoryKey] is
    [context.SHARE_CONTEXT.chatHistoryKey], [nowMs] is [Date.now()] and
    [getRejects] says that the gate's read of the store is rejected. *)
Definition queueMemoryExtraction (ENV : WorkerEnv)
    (endpoint : HttpRequest -> Result ExtractAnswer) (nowMs : Z) (getRejects : bool)
    (message : Message) (params : option MessageContent) (chatHistoryKey : string)
    (w : Worker) : Result unit * Worker :=
  if negb (isMemoryEnabled ENV) then (Ok tt, w)
  else
    let telegramUserId := resolveUserId message in
    let (allowed, kv1) :=
      shouldExtractMemory (MEMORY_EXTRACTION_MIN_INTERVAL_SECONDS ENV) nowMs getRejects
        telegramUserId (DATABASE w) in
    let w1 := mkWorker kv1 (sent w) in
    if negb allowed then (Ok tt, w1)
    else
      let history := loadHistory kv1 nowMs chatHistoryKey in
      let text := messageToText params in
      if Js.isEmpty text then (Ok tt, w1)
      else
        sendAutoExtraction ENV endpoint
          (mkExtractionPayload telegramUserId (resolveChatId message)
             (Js.toString (message_id message)) text
             (buildContextWindow history (MEMORY_EXTRACTION_MAX_CONTEXT_MESSAGES ENV)))
          w1.

End History.

(* ================================================================== *)
(** * Vocabulary of the statements                                     *)
(* ================================================================== *)

(** A string made of white space only. *)
Fixpoint allWhiteSpace (s : string) : bool :=
  match s with
  | EmptyString => true
  | String c s' => Js.isWhiteSpace c && allWhiteSpace s'
  end.

(** Two code units that are the same letter, in the same or in the other
    case: equal, or one is a capital and the other lies 32 above it. *)
Definition caseTwin (a b : ascii) : bool :=
  (Js.charCode a =? Js.charCode b)
  || (Js.isUpper a && (Js.charCode b =? Js.charCode a + 32))
  || (Js.isUpper b && (Js.charCode a =? Js.charCode b + 32)).

(** Two strings that differ only in letter case. *)
Fixpoint sameUpToCase (s t : string) : bool :=
  match s, t with
  | EmptyString, EmptyString => true
  | String a s', String b t' => caseTwin a b && sameUpToCase s' t'
  | _, _ => false
  end.

(** [a] may stand before [b] in a ranking: its score is not smaller. *)
Definition rankedBefore (a b : MemoryContextItem) : Prop :=
  (mci_score b <= mci_score a)%Q.

(** The vector index answers every search, with no more hits than the
    limit it is given. *)
Definition searchHonoursLimit (env : Environment) : Prop :=
  forall d table vector limit telegramUserId,
    exists matches,
      vectorSearch env d table vector limit telegramUserId = Ok matches
      /\ (List.length matches <= limit)%nat.

(** The index scan that [memoryContext] issues for one layer. *)
Definition searchEvent (payload : ContextPayload) (queryEmbedding : Embedding)
    (layer : MemoryLayer) : Event :=
  VectorSearch (layerToTable layer) queryEmbedding perLayerLimit (cx_telegramUserId payload).

(** The documents behind the hits that still exist, in the order of the
    hits. *)
Definition recordsOf (d : Db) (matches : list VectorMatch) : list MemoryDoc :=
  flat_map (fun m => match find (fun doc => Nat.eqb (doc_id doc) (match_id m)) (documents d) with
                     | Some record => [record]
                     | None => []
                     end)
           matches.

(** The item returned for a record of [layer] that is given the score of
    the hit [m]. *)
Definition itemOf (layer : MemoryLayer) (pair : MemoryDoc * VectorMatch) : MemoryContextItem :=
  mkMemoryContextItem layer (doc_text (fst pair)) (doc_abstract (fst pair))
    (doc_tags (fst pair)) (match_score (snd pair)).

(** The contribution of one layer: the index answers the search of the
    layer's table, with limit 3 and the owner as filter, by [matches]; the
    items are the text, abstract and tags of the documents behind the hits,
    the k-th document with the score of the k-th hit, all tagged with the
    layer; they are at most three. *)
Definition layerPart (env : Environment) (d : Db) (payload : ContextPayload)
    (queryEmbedding : Embedding) (layer : MemoryLayer)
    (part : list MemoryContextItem) : Prop :=
  (exists matches,
     vectorSearch env d (layerToTable layer) queryEmbedding 3
                  (cx_telegramUserId payload) = Ok matches
     /\ part = map (itemOf layer) (combine (recordsOf d matches) matches))
  /\ (List.length part <= 3)%nat
  /\ Forall (fun item => mci_layer item = layer) part.

(** The entry [shouldExtractMemory] leaves behind when it allows a call
    made at [nowMs]. *)
Definition triggerEntry (MIN_INTERVAL_SECONDS nowMs : Z) : KvEntry :=
  mkKvEntry (Js.toString (nowMs / 1000)) (nowMs + 1000 * MIN_INTERVAL_SECONDS).

(** In a run of calls, any two allowed calls lie at least
    [MIN_INTERVAL_SECONDS] apart, in the seconds the gate counts in. *)
Definition spaced (MIN_INTERVAL_SECONDS : Z) (run : list (Z * bool)) : Prop :=
  ForallOrdPairs
    (fun a b => snd a = true -> snd b = true ->
                MIN_INTERVAL_SECONDS <= fst b / 1000 - fst a / 1000)
    run.

(** The documents of one layer's table. *)
Definition collection (layer : MemoryLayer) (d : Db) : list MemoryDoc :=
  filter (fun doc => String.eqb (doc_table doc) (layerToTable layer)) (documents d).

(** Two versions of one document: same identifier, table, owner,
    provenance, hash and creation time. *)
Definition sameIdentity (d d' : MemoryDoc) : Prop :=
  doc_id d = doc_id d'
  /\ doc_table d = doc_table d'
  /\ doc_telegramUserId d = doc_telegramUserId d'
  /\ doc_sourceChatId d = doc_sourceChatId d'
  /\ doc_sourceMessageId d = doc_sourceMessageId d'
  /\ doc_hash d = doc_hash d'
  /\ doc_createdAt d = doc_createdAt d'.

(** The store [d'] comes from [d] by zero or more calls of
    [upsertMemory]. *)
Inductive evolves (d : Db) : Db -> Prop :=
| evolves_refl : evolves d d
| evolves_step : forall sch now payload d',
    evolves d d' -> evolves d (snd (upsertMemory sch now payload d')).

(** The world [w'] comes after [w]: its store evolved from the store of
    [w] through [upsertMemory] and its trace continues the trace of [w]. *)
Definition extends (w w' : World) : Prop :=
  evolves (db w) (db w') /\ exists events, trace w' = (trace w ++ events)%list.

(** An action that can only move the world forward, whatever it returns. *)
Definition extending {A} (m : M A) : Prop :=
  forall w, extends w (snd (m w)).

(** The store holds a document under the key that the extraction loop
    computes for [item]: the table of its layer, the owner of the payload
    and the fingerprint of [item.text || item.abstract]. *)
Definition itemPresent (payload : ExtractionPayload) (d : Db) (item : ExtractedItem) : Prop :=
  exists layer input,
    findLayer (item_layer item) = Some layer
    /\ embeddingInput item = Some input
    /\ (1 <= countKey d (layerToTable layer) (ex_telegramUserId payload)
                (hashMemory layer (Utf16.ofString input)))%nat.

(** A pass over known-layer items in which nothing fails, from the trace
    [tr] on, and the events it leaves: for each item in turn, the request
    for the embedding of [text || abstract], answered with success, and
    then the mutation that carries the item's layer, text, abstract and
    tags, the provenance of the payload, the embedding just received and
    the fingerprint of [text || abstract], which the back end runs on a
    store that accepts the write. *)
Inductive itemsRun (env : Environment) (payload : ExtractionPayload)
    : list Event -> list ExtractedItem -> list Event -> Prop :=
| itemsRun_nil : forall tr, itemsRun env payload tr [] []
| itemsRun_cons : forall tr item items events layer text abstract response,
    findLayer (item_layer item) = Some layer ->
    item_text item = Some text ->
    item_abstract item = Some abstract ->
    let input := if Js.isEmpty text then abstract else text in
    let request := embeddingBody (Some input) (embeddingModel env) in
    let upsert :=
      mkUpsertPayload layer
        (ex_telegramUserId payload) (ex_sourceChatId payload) (ex_sourceMessageId payload)
        text abstract (item_tags item)
        (firstEmbedding response) (hashMemory layer (Utf16.ofString input)) in
    embeddings env tr request = Ok response ->
    emb_ok response = true ->
    mutationFailure env (tr ++ [FetchEmbedding request])%list upsert = None ->
    storeAccepts (schema env) ->
    itemsRun env payload (tr ++ [FetchEmbedding request; RunUpsert upsert])%list items events ->
    itemsRun env payload tr (item :: items)
      (FetchEmbedding request :: RunUpsert upsert :: events).

(** An action that leaves the store alone and records no mutation,
    whatever it returns. *)
Definition readOnly {A} (m : M A) : Prop :=
  forall w,
    db (snd (m w)) = db w
    /\ exists events,
         trace (snd (m w)) = (trace w ++ events)%list /\ upsertsOf events = [].

(** A string made of slashes only, and a string whose last code unit is
    a slash. *)
Fixpoint allSlashes (s : string) : bool :=
  match s with
  | EmptyString => true
  | String c s' => isSlash c && allSlashes s'
  end.

Fixpoint endsWithSlash (s : string) : bool :=
  match s with
  | EmptyString => false
  | String c EmptyString => isSlash c
  | String _ s' => endsWithSlash s'
  end.

(* ================================================================== *)
(** * Sample data                                                      *)
(* ================================================================== *)

Definition sampleItem : MemoryContextItem :=
  mkMemoryContextItem preferences "Loves coffee in the morning" "" ["coffee"; "morning"] (9 # 10).

Definition samplePayload : UpsertPayload :=
  mkUpsertPayload identities "42" "-1001" "7"
    "Loves Coffee" "likes coffee" ["coffee"] [1 # 2; 1 # 4]
    (hashMemory identities (Utf16.ofString "Loves Coffee")).

(** The same fact seen again in a later message. *)
Definition samplePayloadAgain : UpsertPayload :=
  mkUpsertPayload identities "42" "-2002" "19"
    "  loves coffee  " "coffee lover" ["coffee"; "drinks"] [3 # 4; 1 # 8]
    (hashMemory identities (Utf16.ofString "  loves coffee  ")).

(** A schema that types the two time stamps as numbers, which is what
    the handler writes. *)
Definition numberSchema : Schema := mkSchema v_float64 v_float64.

Definition sampleDb : Db := snd (upsertMemory numberSchema 1000 samplePayload emptyDb).

Definition sampleDoc : MemoryDoc :=
  newDoc samplePayload 1000 "memoryIdentities" 0%nat.

Definition quoted (s : string) : string := (Js.dquote ++ s ++ Js.dquote)%string.

Definition jsonItem (layer text : string) : string :=
  ("{" ++ quoted "layer" ++ ":" ++ quoted layer ++ ","
   ++ quoted "text" ++ ":" ++ quoted text ++ ","
   ++ quoted "abstract" ++ ":" ++ quoted text ++ ","
   ++ quoted "tags" ++ ":[]}")%string.

(** The response of the design document: one item of a known layer and
    one of the layer [bogus]. *)
Definition sampleContent : string :=
  ("{" ++ quoted "items" ++ ":["
   ++ jsonItem "identities" "A" ++ "," ++ jsonItem "bogus" "B" ++ "]}")%string.

Definition sampleParsed : ExtractionResponse :=
  mkExtractionResponse
    (Some [mkExtractedItem "identities" (Some "A") (Some "A") [];
           mkExtractedItem "bogus" (Some "B") (Some "B") []]).

(** A response whose only item names a known layer and has neither text
    nor abstract. *)
Definition bareContent : string :=
  ("{" ++ quoted "items" ++ ":[{" ++ quoted "layer" ++ ":" ++ quoted "identities" ++ "}]}")%string.

Definition bareItem : ExtractedItem := mkExtractedItem "identities" None None [].

(** [JSON.parse] on the strings the samples use. *)
Definition sampleParse (s : string) : option Parsed :=
  if String.eqb s sampleContent then Some (ParsedObject sampleParsed)
  else if String.eqb s bareContent
       then Some (ParsedObject (mkExtractionResponse (Some [bareItem])))
  else if String.eqb s "{}" then Some (ParsedObject (mkExtractionResponse None))
  else if String.eqb s "null" then Some ParsedNull
  else None.

(** A vector index that scores a document of the table and owner by its
    identifier and keeps the first [limit] of them. *)
Definition sampleVectorSearch (d : Db) (table : string) (vector : Embedding)
    (limit : nat) (telegramUserId : string) : Result (list VectorMatch) :=
  Ok (firstn limit
        (map (fun doc => mkVectorMatch (doc_id doc) (Z.of_nat (S (doc_id doc)) # 10))
           (filter (fun doc => String.eqb (doc_table doc) table
                               && String.eqb (doc_telegramUserId doc) telegramUserId)
              (documents d)))).

Definition chatAnswer (ok : bool) (status : Z) (content : option string) : ChatResponse :=
  mkChatResponse ok status (Some [mkChatChoice (Some (mkChatMessage content))]).

(** An environment whose chat provider always gives the same answer,
    whose embedding provider answers every request, and whose store takes
    numbers as time stamps. *)
Definition sampleEnv (answer : ChatResponse) : Environment :=
  mkEnvironment (Some "sk-or-sample") None None
    (fun _ _ => Ok answer)
    (fun _ _ => Ok (mkEmbeddingResponse true 200 [mkEmbeddingDatum [1 # 2; 1 # 3] 0]))
    sampleParse
    (fun events => 1700000000000 + Z.of_nat (List.length events))
    (fun _ _ => None)
    sampleVectorSearch
    numberSchema.

(** The same surroundings with the store of the repository. *)
Definition repositoryEnv (answer : ChatResponse) : Environment :=
  mkEnvironment (Some "sk-or-sample") None None
    (fun _ _ => Ok answer)
    (fun _ _ => Ok (mkEmbeddingResponse true 200 [mkEmbeddingDatum [1 # 2; 1 # 3] 0]))
    sampleParse
    (fun events => 1700000000000 + Z.of_nat (List.length events))
    (fun _ _ => None)
    sampleVectorSearch
    memorySchema.

Definition sampleExtraction : ExtractionPayload :=
  mkExtractionPayload "42" "-1001" "7" "I am A and I love B" "- hello".

Definition sampleWorld : World := mkWorld emptyDb [].

(** The request [extractMemories] sends for [sampleExtraction]. *)
Definition sampleChatRequest : ChatRequest :=
  mkChatRequest "openai/gpt-4o-mini" extractionSystemPrompt
    ("Conversation message: I am A and I love B" ++ Js.nl
     ++ "Context window:" ++ Js.nl ++ "- hello")%string.

(** A store with three memories of owner 42 in two layers. *)
Definition sampleStore : Db :=
  snd (upsertMemory numberSchema 3000
         (mkUpsertPayload preferences "42" "-1001" "9" "tea at night" "tea" [] [1 # 5] "3")
         (snd (upsertMemory numberSchema 2000
                 (mkUpsertPayload identities "42" "-1001" "8" "is a nurse" "nurse" [] [1 # 4] "2")
                 sampleDb))).

Definition sampleQuery : ContextPayload := mkContextPayload "42" "what do I drink?".

(** An environment without the provider credential. *)
Definition keylessEnv : Environment :=
  mkEnvironment None None None
    (fun _ _ => Ok (chatAnswer true 200 (Some sampleContent)))
    (fun _ _ => Ok (mkEmbeddingResponse true 200 []))
    sampleParse (fun _ => 0) (fun _ _ => None) sampleVectorSearch numberSchema.

(** A response with two items of known layers, and an environment whose
    embedding provider is down for the text of the second. *)
Definition twoItems : list ExtractedItem :=
  [mkExtractedItem "identities" (Some "A") (Some "A") [];
   mkExtractedItem "preferences" (Some "B") (Some "B") []].

Definition flakyEnv : Environment :=
  mkEnvironment (Some "sk-or-sample") None None
    (fun _ _ => Ok (chatAnswer true 200 (Some "{...}")))
    (fun _ request =>
       match emb_input request with
       | Some "B"%string => Ok (mkEmbeddingResponse false 503 [])
       | _ => Ok (mkEmbeddingResponse true 200 [mkEmbeddingDatum [1 # 2] 0])
       end)
    (fun _ => Some (ParsedObject (mkExtractionResponse (Some twoItems))))
    (fun events => 1700000000000 + Z.of_nat (List.length events))
    (fun _ _ => None)
    sampleVectorSearch
    numberSchema.

(** An environment whose vector index is down for one table. *)
Definition brokenIndexEnv : Environment :=
  mkEnvironment (Some "sk-or-sample") None None
    (fun _ _ => Ok (chatAnswer true 200 None))
    (fun _ _ => Ok (mkEmbeddingResponse true 200 [mkEmbeddingDatum [1 # 2; 1 # 3] 0]))
    sampleParse (fun _ => 0) (fun _ _ => None)
    (fun d table vector limit telegramUserId =>
       if String.eqb table "memoryContexts" then Throw "index unavailable"
       else sampleVectorSearch d table vector limit telegramUserId)
    numberSchema.

(** Hits of which the first points at a document that is gone. *)
Definition staleMatches : list VectorMatch :=
  [mkVectorMatch 7%nat (9 # 10); mkVectorMatch 0%nat (5 # 10); mkVectorMatch 1%nat (4 # 10)].

(** A worker configuration with memory switched on and a one-minute
    gate, a back end that accepts everything, and a message. *)
Definition sampleWorkerEnv : WorkerEnv :=
  mkWorkerEnv true "https://memory.convex.site/" "s3cret" 600 60 4.

Definition acceptingEndpoint (request : HttpRequest) : Result ExtractAnswer :=
  Ok (mkExtractAnswer true 200 "").

Definition sampleMessage : Message := mkMessage (Some 42) (-1001) 7.

Definition emptyWorker : Worker := mkWorker emptyKV [].

(** A message that is a photo without caption, and the worker after
    [queueMemoryExtraction] has seen it. *)
Definition photoOnly : option MessageContent := Some (ContentParts [OtherPart]).

Definition workerAfterPhoto : Worker :=
  snd (queueMemoryExtraction string (fun text => text) (fun _ => None)
         sampleWorkerEnv acceptingEndpoint 1700000000000 false
         sampleMessage photoOnly "history:-1001" emptyWorker).

(* ================================================================== *)
(** * Strings: trimming, case, length                                  *)
(* ================================================================== *)


Lemma charCode_range : forall c, 0 <= Js.charCode c < 256.
Proof.
  intro c. unfold Js.charCode.
  pose proof (N_ascii_bounded c). lia.
Qed.








Lemma caseTwin_refl : forall a, caseTwin a a = true.
Proof. intro a. unfold caseTwin. now rewrite Z.eqb_refl. Qed.

Lemma sameUpToCase_refl : forall s, sameUpToCase s s = true.
Proof.
  induction s as [|c s IH]; simpl; [reflexivity|].
  now rewrite caseTwin_refl, IH.
Qed.




Lemma trimStart_allWhiteSpace : forall s,
  allWhiteSpace s = true -> Js.trimStart s = "".
Proof.
  induction s as [|c s IH]; simpl; intro H; auto.
  apply andb_true_iff in H as [Hc Hs]. rewrite Hc. auto.
Qed.

Lemma trimEnd_allWhiteSpace : forall s,
  allWhiteSpace s = true -> Js.trimEnd s = "".
Proof.
  induction s as [|c s IH]; simpl; intro H; auto.
  apply andb_true_iff in H as [Hc Hs]. now rewrite (IH Hs), Hc.
Qed.

Lemma trimStart_lead : forall lead s,
  allWhiteSpace lead = true -> Js.trimStart (lead ++ s) = Js.trimStart s.
Proof.
  induction lead as [|c lead IH]; simpl; intros s H; auto.
  apply andb_true_iff in H as [Hc Hs]. rewrite Hc. auto.
Qed.

Lemma trimEnd_trail : forall s trail,
  allWhiteSpace trail = true -> Js.trimEnd (s ++ trail) = Js.trimEnd s.
Proof.
  induction s as [|c s IH]; simpl; intros trail H.
  - now apply trimEnd_allWhiteSpace.
  - now rewrite IH.
Qed.

Lemma trim_margin : forall lead s trail,
  allWhiteSpace lead = true -> allWhiteSpace trail = true ->
  Js.trim (lead ++ s ++ trail) = Js.trim s.
Proof.
  intros lead s trail Hl Ht. unfold Js.trim.
  rewrite trimStart_lead by assumption.
  induction s as [|c s IH]; simpl.
  - now rewrite trimStart_allWhiteSpace.
  - destruct (Js.isWhiteSpace c); [assumption|].
    change (String c (s ++ trail)) with (String c s ++ trail).
    now apply trimEnd_trail.
Qed.

Lemma length_substring_0 : forall n s,
  String.length (substring 0 n s) = Nat.min n (String.length s).
Proof.
  induction n as [|n IH]; intros [|c s]; simpl; auto.
Qed.

Lemma prefix_substring_0 : forall n s, prefix (substring 0 n s) s = true.
Proof.
  induction n as [|n IH]; intros [|c s]; simpl; auto.
  destruct (ascii_dec c c); [apply IH | congruence].
Qed.

Lemma prefix_append : forall s t, prefix s (s ++ t) = true.
Proof.
  induction s as [|c s IH]; intro t; simpl.
  - now destruct t.
  - destruct (ascii_dec c c); [apply IH | congruence].
Qed.

Lemma prefix_refl : forall s, prefix s s = true.
Proof.
  induction s as [|c s IH]; simpl; auto.
  destruct (ascii_dec c c); [apply IH | congruence].
Qed.

(* ================================================================== *)
(** * Code units: the strings below 256 among all strings              *)
(* ================================================================== *)

Local Open Scope list_scope.

Lemma ofString_app : forall a b : string,
  Utf16.ofString (a ++ b)%string = Utf16.ofString a ++ Utf16.ofString b.
Proof.
  unfold Utf16.ofString. induction a as [|c a IH]; intro b; simpl; [reflexivity|].
  now rewrite IH.
Qed.

Lemma ofString_range : forall s, Forall (fun u => 0 <= u < 256) (Utf16.ofString s).
Proof.
  unfold Utf16.ofString. induction s as [|c s IH]; simpl; constructor;
    [apply charCode_range | exact IH].
Qed.
















(* ================================================================== *)
(** * hashMemory                                                       *)
(* ================================================================== *)






(** No rounding happens in the loop body: with [hash] below 2^32 and a
    code unit [u] the number [hash * 31 + u] is an exact float64. *)
Lemma hash_step_exact : forall h u,
  0 <= h < 2 ^ 32 -> 0 <= u < 2 ^ 16 -> Js.safeInteger (h * 31 + u).
Proof. intros h u Hh Hu. unfold Js.safeInteger. lia. Qed.





Local Open Scope string_scope.
Local Open Scope Z_scope.

(* ================================================================== *)
(** * formatMemoryContext and mergeSystemPrompt                        *)
(* ================================================================== *)

Lemma slice0_length : forall s e,
  0 <= e <= Z.of_nat (String.length s) ->
  Z.of_nat (String.length (Js.slice0 s e)) = e.
Proof.
  intros s e He. unfold Js.slice0.
  destruct (Z.ltb_spec e 0); [lia|].
  rewrite length_substring_0. lia.
Qed.

Lemma slice0_prefix : forall s e, prefix (Js.slice0 s e) s = true.
Proof. intros. apply prefix_substring_0. Qed.

(** The length test and the [slice] of [formatMemoryContext], on any
    rendered string. *)
Lemma truncation_spec : forall (content : string) (maxChars : Z),
  0 < maxChars ->
  let out :=
    if (maxChars =? 0) || (Z.of_nat (String.length content) <=? maxChars)
    then content else Js.slice0 content maxChars in
  Z.of_nat (String.length out) <= maxChars
  /\ (maxChars < Z.of_nat (String.length content) ->
      Z.of_nat (String.length out) = maxChars /\ prefix out content = true)
  /\ (Z.of_nat (String.length content) <= maxChars -> out = content).
Proof.
  intros content maxChars Hpos out. subst out.
  destruct (Z.eqb_spec maxChars 0) as [|_]; [lia|].
  rewrite orb_false_l.
  destruct (Z.leb_spec (Z.of_nat (String.length content)) maxChars) as [Hfit|Hlong].
  - split; [assumption|]. split; [lia | reflexivity].
  - split; [rewrite slice0_length; lia|]. split; [|lia].
    intros _. split; [rewrite slice0_length; lia | apply slice0_prefix].
Qed.

(** C8.  For a non-empty item list and a positive configured maximum [M],
    the formatted context has at most [M] characters; when the rendering
    is longer than [M], what is returned has exactly [M] characters and is
    a prefix of the rendering (and a rendering that fits is returned as it
    is). *)
Theorem formatMemoryContext_truncation :
  forall (maxChars : Z) (items : list MemoryContextItem),
    items <> [] -> 0 < maxChars ->
    let rendering := renderMemoryContext items in
    let out := formatMemoryContext maxChars items in
    Z.of_nat (String.length out) <= maxChars
    /\ (maxChars < Z.of_nat (String.length rendering) ->
        Z.of_nat (String.length out) = maxChars /\ prefix out rendering = true)
    /\ (Z.of_nat (String.length rendering) <= maxChars -> out = rendering).
Proof.
  intros maxChars items Hne Hpos.
  destruct items as [|item items]; [now elim Hne|].
  exact (truncation_spec (renderMemoryContext (item :: items)) maxChars Hpos).
Qed.

Lemma formatMemoryContext_truncation_witness :
  formatMemoryContext 30 [sampleItem]
  = "User Memory Context:" ++ Js.nl ++ "- (prefer"
  /\ Z.of_nat (String.length (formatMemoryContext 30 [sampleItem])) = 30
  /\ prefix (formatMemoryContext 30 [sampleItem]) (renderMemoryContext [sampleItem]) = true.
Proof.
  split; [reflexivity|].
  refine ((fun H => proj1 (proj2 H) _)
            (formatMemoryContext_truncation 30 [sampleItem] _ _)).
  - reflexivity.
  - discriminate.
  - reflexivity.
Defined.

(** C10.  [mergeSystemPrompt] returns the base prompt unchanged when the
    memory prompt is empty; the memory prompt when it is not empty and the
    base prompt is null or empty; otherwise the base prompt, a blank line,
    and the memory prompt.  So the empty memory prompt is an identity and
    the base prompt's text is never altered: it is a prefix of the result. *)
Theorem mergeSystemPrompt_cases :
  forall (basePrompt : option string) (memoryPrompt : string),
    mergeSystemPrompt basePrompt "" = basePrompt
    /\ (memoryPrompt <> "" ->
        (basePrompt = None \/ basePrompt = Some "") ->
        mergeSystemPrompt basePrompt memoryPrompt = Some memoryPrompt)
    /\ (forall base, memoryPrompt <> "" -> base <> "" -> basePrompt = Some base ->
        mergeSystemPrompt basePrompt memoryPrompt
        = Some (base ++ Js.nl ++ Js.nl ++ memoryPrompt))
    /\ (forall base, basePrompt = Some base ->
        exists result,
          mergeSystemPrompt basePrompt memoryPrompt = Some result
          /\ prefix base result = true).
Proof.
  intros basePrompt memoryPrompt. unfold mergeSystemPrompt.
  split; [reflexivity|]. split; [|split].
  - intros Hm [Hb|Hb]; subst; destruct memoryPrompt; simpl; congruence.
  - intros base Hm Hb ->. destruct memoryPrompt, base; simpl; congruence.
  - intros base ->.
    destruct memoryPrompt as [|c m]; simpl.
    + exists base. split; [reflexivity | apply prefix_refl].
    + destruct base as [|b base]; simpl.
      * eexists. split; reflexivity.
      * eexists. split; [reflexivity|].
        change (prefix (String b base) (String b base ++ Js.nl ++ Js.nl ++ String c m) = true).
        apply prefix_append.
Qed.

Lemma mergeSystemPrompt_cases_witness :
  mergeSystemPrompt (Some "You are helpful.") ""
  = Some "You are helpful."
  /\ mergeSystemPrompt None "User Memory Context:" = Some "User Memory Context:"
  /\ mergeSystemPrompt (Some "You are helpful.") "User Memory Context:"
     = Some ("You are helpful." ++ Js.nl ++ Js.nl ++ "User Memory Context:").
Proof.
  pose proof (mergeSystemPrompt_cases (Some "You are helpful.") "User Memory Context:")
    as [H0 [_ [H2 _]]].
  pose proof (mergeSystemPrompt_cases None "User Memory Context:") as [_ [H1 _]].
  split; [exact H0|]. split.
  - apply H1; [discriminate | now left].
  - apply (H2 "You are helpful."); [discriminate | discriminate | reflexivity].
Defined.

(* ================================================================== *)
(** * upsertMemory                                                     *)
(* ================================================================== *)

Local Open Scope list_scope.

Lemma validates_number : forall v n,
  validates v (number n) = match v with v_float64 => true | v_int64 => false end.
Proof. now intros []. Qed.

Section Upsert.

Variables (sch : Schema) (now : Z) (payload : UpsertPayload).

Let table := layerToTable (up_layer payload).
Let owner := up_telegramUserId payload.
Let hash := up_hash payload.

Lemma by_user_hash_patchFields : forall t o h now' payload' d,
  by_user_hash t o h (patchFields payload' now' d) = by_user_hash t o h d.
Proof. reflexivity. Qed.

Lemma by_user_hash_newDoc : forall id,
  by_user_hash table owner hash (newDoc payload now table id) = true.
Proof.
  intro id. unfold by_user_hash, newDoc; simpl.
  now rewrite !String.eqb_refl.
Qed.

Lemma filter_patch : forall (p : MemoryDoc -> bool) (g : MemoryDoc -> MemoryDoc) l,
  (forall d, p (g d) = p d) ->
  List.length (filter p (map g l)) = List.length (filter p l).
Proof.
  intros p g l Hg. induction l as [|d l IH]; simpl; [reflexivity|].
  rewrite Hg. destruct (p d); simpl; auto.
Qed.

Lemma countKey_patch : forall db id t o h,
  countKey (storePatch db id (patchFields payload now)) t o h = countKey db t o h.
Proof.
  intros db id t o h. unfold countKey, storePatch; simpl.
  apply filter_patch. intro d.
  destruct (Nat.eqb (doc_id d) id); reflexivity.
Qed.

Lemma countKey_insert : forall db t o h,
  countKey (storeInsert db (newDoc payload now table)) t o h
  = (countKey db t o h
     + if by_user_hash t o h (newDoc payload now table (nextId db)) then 1 else 0)%nat.
Proof.
  intros db t o h. unfold countKey, storeInsert; simpl.
  rewrite filter_app, length_app. simpl.
  destruct (by_user_hash t o h _); reflexivity.
Qed.

Lemma find_none_filter : forall (p : MemoryDoc -> bool) l,
  find p l = None <-> List.length (filter p l) = 0%nat.
Proof.
  intros p l. induction l as [|d l IH]; simpl; [tauto|].
  destruct (p d); simpl; [split; discriminate | exact IH].
Qed.

Lemma queryFirst_none_countKey : forall db t o h,
  db_queryFirst db t o h = None <-> countKey db t o h = 0%nat.
Proof. intros. apply find_none_filter. Qed.

(** A key of the new document that differs from the queried key. *)
Lemma by_user_hash_newDoc_eq : forall t o h id,
  by_user_hash t o h (newDoc payload now table id) = true ->
  t = table /\ o = owner /\ h = hash.
Proof.
  intros t o h id H. unfold by_user_hash, newDoc in H; simpl in H.
  apply andb_true_iff in H as [H Hh]. apply andb_true_iff in H as [Ht Ho].
  apply String.eqb_eq in Ht, Ho, Hh. subst table owner hash. auto.
Qed.

(** The handler, branch by branch: what it answers and what the store is
    afterwards depend on the lookup and on the two validators only. *)
Lemma upsertMemory_outcome : forall db,
  upsertMemory sch now payload db
  = match db_queryFirst db table owner hash with
    | Some existing =>
        match schema_updatedAt sch with
        | v_float64 => (Ok Updated, storePatch db (doc_id existing) (patchFields payload now))
        | v_int64 => (Throw SchemaValidationError, db)
        end
    | None =>
        match schema_createdAt sch, schema_updatedAt sch with
        | v_float64, v_float64 => (Ok Inserted, storeInsert db (newDoc payload now table))
        | _, _ => (Throw SchemaValidationError, db)
        end
    end.
Proof.
  intro db. unfold upsertMemory, db_patch, db_insert. fold table owner hash.
  rewrite !validates_number.
  destruct (db_queryFirst db table owner hash);
    destruct (schema_createdAt sch), (schema_updatedAt sch); reflexivity.
Qed.

(** Whatever the schema, the store afterwards is the store before, the
    store with the found document patched, or the store with the new
    document appended. *)
Lemma upsertMemory_store : forall db,
  snd (upsertMemory sch now payload db) = db
  \/ (exists existing,
        db_queryFirst db table owner hash = Some existing
        /\ snd (upsertMemory sch now payload db)
           = storePatch db (doc_id existing) (patchFields payload now))
  \/ (db_queryFirst db table owner hash = None
      /\ snd (upsertMemory sch now payload db) = storeInsert db (newDoc payload now table)).
Proof.
  intro db. rewrite upsertMemory_outcome.
  destruct (db_queryFirst db table owner hash) as [existing|];
    destruct (schema_createdAt sch), (schema_updatedAt sch); simpl; auto;
    right; left; exists existing; auto.
Qed.

Lemma storePatch_uniqueKeys : forall db id,
  uniqueKeys db -> uniqueKeys (storePatch db id (patchFields payload now)).
Proof. intros db id Hu t o h. rewrite countKey_patch. apply Hu. Qed.

Lemma storeInsert_uniqueKeys : forall db,
  uniqueKeys db -> db_queryFirst db table owner hash = None ->
  uniqueKeys (storeInsert db (newDoc payload now table)).
Proof.
  intros db Hu Hq t o h. rewrite countKey_insert.
  destruct (by_user_hash t o h _) eqn:Hk.
  - apply by_user_hash_newDoc_eq in Hk as (-> & -> & ->).
    apply queryFirst_none_countKey in Hq. rewrite Hq. auto.
  - specialize (Hu t o h). lia.
Qed.

Lemma upsertMemory_uniqueKeys : forall db,
  uniqueKeys db -> uniqueKeys (snd (upsertMemory sch now payload db)).
Proof.
  intros db Hu.
  destruct (upsertMemory_store db) as [-> | [(existing & _ & ->) | [Hq ->]]].
  - assumption.
  - now apply storePatch_uniqueKeys.
  - now apply storeInsert_uniqueKeys.
Qed.

Lemma upsertMemory_uniqueIds : forall db,
  uniqueIds db -> uniqueIds (snd (upsertMemory sch now payload db)).
Proof.
  intros db [Hnd Hlt].
  destruct (upsertMemory_store db) as [-> | [(existing & _ & ->) | [Hq ->]]].
  - now split.
  - unfold uniqueIds, storePatch; simpl. rewrite map_map.
    assert (E : map (fun d => doc_id (if Nat.eqb (doc_id d) (doc_id existing)
                                      then patchFields payload now d else d))
                    (documents db)
                = map doc_id (documents db)).
    { apply map_ext. intro d. now destruct (Nat.eqb _ _). }
    rewrite E. split; [assumption|].
    apply Forall_map. eapply Forall_impl; [|exact Hlt].
    intros d Hd. now destruct (Nat.eqb _ _).
  - unfold uniqueIds, storeInsert; simpl. split.
    + rewrite map_app. simpl. apply NoDup_app_remove_l with (l := []). simpl.
      apply Permutation_NoDup with (l := nextId db :: map doc_id (documents db)).
      * apply Permutation_cons_append.
      * constructor; [|assumption].
        intro Hin. apply in_map_iff in Hin as (d & Hd & Hin).
        rewrite Forall_forall in Hlt. specialize (Hlt d Hin). lia.
    + apply Forall_app. split.
      * eapply Forall_impl; [|exact Hlt]. simpl. intros; lia.
      * constructor; [simpl; lia | constructor].
Qed.

End Upsert.

Lemma reachable_invariants : forall db,
  reachable db -> uniqueKeys db /\ uniqueIds db.
Proof.
  induction 1 as [|sch now payload db Hr [IHk IHi]].
  - split; [intros t o h; cbv; lia | split; constructor].
  - split; [now apply upsertMemory_uniqueKeys | now apply upsertMemory_uniqueIds].
Qed.

(** With distinct identifiers, a patch by identifier rewrites one place. *)
Lemma patch_in_place : forall (f : MemoryDoc -> MemoryDoc) pre e post,
  NoDup (map doc_id (pre ++ e :: post)) ->
  map (fun d => if Nat.eqb (doc_id d) (doc_id e) then f d else d) (pre ++ e :: post)
  = pre ++ f e :: post.
Proof.
  intros f pre e post Hnd.
  assert (Hother : forall d, In d pre \/ In d post -> Nat.eqb (doc_id d) (doc_id e) = false).
  { intros d Hd. apply Nat.eqb_neq. intro Heq.
    rewrite map_app in Hnd. simpl in Hnd.
    apply NoDup_remove_2 in Hnd. apply Hnd.
    rewrite <- Heq. apply in_or_app.
    destruct Hd as [Hd|Hd]; [left|right]; now apply in_map. }
  rewrite map_app. simpl. rewrite Nat.eqb_refl. f_equal; [|f_equal].
  - rewrite <- (map_id pre) at 2. apply map_ext_in.
    intros d Hd. now rewrite Hother by auto.
  - rewrite <- (map_id post) at 2. apply map_ext_in.
    intros d Hd. now rewrite Hother by auto.
Qed.

Lemma find_split : forall (p : MemoryDoc -> bool) l e,
  find p l = Some e ->
  exists pre post, l = pre ++ e :: post /\ p e = true /\ find p pre = None.
Proof.
  intros p l e. induction l as [|d l IH]; simpl; [discriminate|].
  destruct (p d) eqn:Hd.
  - intros [= ->]. exists [], l. auto.
  - intro H. destruct (IH H) as (pre & post & -> & He & Hpre).
    exists (d :: pre), post. simpl. rewrite Hd. auto.
Qed.

(** The [patch] branch of [upsertMemory]: where the store takes a number
    for [updatedAt], the first document under the key is rewritten where
    it stands; where it does not, the call throws and nothing changes. *)
Lemma upsertMemory_updated_in_place : forall sch now payload db existing,
  uniqueIds db ->
  db_queryFirst db (layerToTable (up_layer payload))
                (up_telegramUserId payload) (up_hash payload) = Some existing ->
  exists pre post,
    documents db = pre ++ existing :: post
    /\ (schema_updatedAt sch = v_float64 ->
        upsertMemory sch now payload db
        = (Ok Updated, mkDb (pre ++ patchFields payload now existing :: post) (nextId db)))
    /\ (schema_updatedAt sch = v_int64 ->
        upsertMemory sch now payload db = (Throw SchemaValidationError, db)).
Proof.
  intros sch now payload db existing [Hnd _] Hq.
  rewrite upsertMemory_outcome, Hq.
  apply find_split in Hq as (pre & post & Hdocs & _ & _).
  exists pre, post. split; [assumption|].
  split; intros ->; [|reflexivity].
  unfold storePatch. rewrite Hdocs in *.
  now rewrite patch_in_place.
Qed.

(** One call of [upsertMemory] on a store that only it has written and
    that takes numbers as time stamps. *)
Lemma upsertMemory_step : forall sch db now payload,
  storeAccepts sch ->
  reachable db ->
  let table := layerToTable (up_layer payload) in
  let owner := up_telegramUserId payload in
  let hash := up_hash payload in
  let result := fst (upsertMemory sch now payload db) in
  let db' := snd (upsertMemory sch now payload db) in
  (result = Ok Inserted <-> countKey db table owner hash = 0%nat)
  /\ (result = Ok Updated <-> countKey db table owner hash = 1%nat)
  /\ (result = Ok Inserted ->
      documents db'
      = documents db
        ++ [mkMemoryDoc (nextId db) table
              owner (up_sourceChatId payload) (up_sourceMessageId payload)
              (up_text payload) (up_abstract payload) (up_tags payload)
              (up_embedding payload) hash now now])
  /\ (result = Ok Updated ->
      exists existing pre post,
        documents db = pre ++ existing :: post
        /\ by_user_hash table owner hash existing = true
        /\ documents db'
           = pre
             ++ mkMemoryDoc (doc_id existing) (doc_table existing)
                  (doc_telegramUserId existing) (doc_sourceChatId existing)
                  (doc_sourceMessageId existing)
                  (up_text payload) (up_abstract payload) (up_tags payload)
                  (up_embedding payload)
                  (doc_hash existing) (doc_createdAt existing) now
                :: post)
  /\ countKey db' table owner hash = 1%nat.
Proof.
  intros sch db now payload [Hc Hu] Hr table owner hash result db'.
  destruct (reachable_invariants db Hr) as [Hk Hi].
  subst result db'.
  destruct (db_queryFirst db table owner hash) as [existing|] eqn:Hq.
  - destruct (upsertMemory_updated_in_place sch now payload db existing Hi Hq)
      as (pre & post & Hdocs & Hup & _).
    specialize (Hup Hu).
    assert (Hcount : countKey db table owner hash = 1%nat).
    { specialize (Hk table owner hash).
      destruct (countKey db table owner hash) as [|[|n]] eqn:Hcnt; [|reflexivity|lia].
      apply queryFirst_none_countKey in Hcnt. fold table owner hash in Hq. congruence. }
    assert (E : snd (upsertMemory sch now payload db)
                = storePatch db (doc_id existing) (patchFields payload now)).
    { rewrite upsertMemory_outcome. fold table owner hash. now rewrite Hq, Hu. }
    rewrite Hup in E |- *. simpl in E |- *. rewrite Hcount.
    split; [split; discriminate|]. split; [tauto|]. split; [discriminate|]. split.
    + intros _. exists existing, pre, post. split; [assumption|]. split; [|reflexivity].
      apply find_some in Hq. apply Hq.
    + rewrite E, countKey_patch. exact Hcount.
  - assert (Hcount : countKey db table owner hash = 0%nat)
      by now apply queryFirst_none_countKey.
    rewrite upsertMemory_outcome. fold table owner hash. rewrite Hq, Hc, Hu. simpl.
    rewrite Hcount.
    split; [tauto|]. split; [split; discriminate|]. split; [auto|].
    split; [discriminate|].
    rewrite countKey_insert. fold table owner hash.
    assert (Hn := by_user_hash_newDoc now payload (nextId db)).
    fold table owner hash in Hn. now rewrite Hn, Hcount.
Qed.

(** On a store that takes numbers as time stamps the handler keeps one
    document per key: in every state it has produced a table holds at
    most one document per [(telegramUserId, hash)]; a call answers
    [Inserted] exactly when no document has the pair, and then appends one
    with [createdAt = updatedAt = now]; otherwise it answers [Updated] and
    rewrites the existing document where it stands.  Either way exactly
    one document has the pair afterwards, and a second call with the same
    payload answers [Updated] and leaves exactly one. *)
Lemma upsertMemory_dedup : forall sch db,
  storeAccepts sch ->
  reachable db ->
  uniqueKeys db
  /\ forall now payload,
      let table := layerToTable (up_layer payload) in
      let owner := up_telegramUserId payload in
      let hash := up_hash payload in
      let result := fst (upsertMemory sch now payload db) in
      let db' := snd (upsertMemory sch now payload db) in
      (result = Ok Inserted <-> countKey db table owner hash = 0%nat)
      /\ (result = Ok Updated <-> countKey db table owner hash = 1%nat)
      /\ (result = Ok Inserted ->
          documents db'
          = documents db
            ++ [mkMemoryDoc (nextId db) table
                  owner (up_sourceChatId payload) (up_sourceMessageId payload)
                  (up_text payload) (up_abstract payload) (up_tags payload)
                  (up_embedding payload) hash now now])
      /\ (result = Ok Updated ->
          exists existing pre post,
            documents db = pre ++ existing :: post
            /\ by_user_hash table owner hash existing = true
            /\ documents db'
               = pre
                 ++ mkMemoryDoc (doc_id existing) (doc_table existing)
                      (doc_telegramUserId existing) (doc_sourceChatId existing)
                      (doc_sourceMessageId existing)
                      (up_text payload) (up_abstract payload) (up_tags payload)
                      (up_embedding payload)
                      (doc_hash existing) (doc_createdAt existing) now
                    :: post)
      /\ countKey db' table owner hash = 1%nat
      /\ uniqueKeys db'
      /\ forall now',
          fst (upsertMemory sch now' payload db') = Ok Updated
          /\ countKey (snd (upsertMemory sch now' payload db')) table owner hash = 1%nat
          /\ List.length (documents (snd (upsertMemory sch now' payload db')))
             = List.length (documents db').
Proof.
  intros sch db Hsch Hr. split; [apply (reachable_invariants db Hr)|].
  intros now payload table owner hash result db'.
  destruct (upsertMemory_step sch db now payload Hsch Hr) as (H1 & H2 & H3 & H4 & H5).
  fold table owner hash result db' in H1, H2, H3, H4, H5.
  assert (Hr' : reachable db') by (apply reachable_upsert; assumption).
  repeat (split; [assumption|]).
  split; [apply (reachable_invariants db' Hr')|].
  intro now'.
  destruct (upsertMemory_step sch db' now' payload Hsch Hr') as (_ & G2 & _ & G4 & G5).
  fold table owner hash in G2, G4, G5.
  assert (Hu : fst (upsertMemory sch now' payload db') = Ok Updated) by now apply G2.
  split; [assumption|]. split; [assumption|].
  destruct (G4 Hu) as (existing & pre & post & Hdocs & _ & Hdocs').
  rewrite Hdocs', Hdocs, !length_app. reflexivity.
Qed.

(** The first sighting and the second, on a store that takes numbers. *)
Example upsertMemory_dedup_sample :
  fst (upsertMemory numberSchema 1000 samplePayload emptyDb) = Ok Inserted
  /\ fst (upsertMemory numberSchema 2000 samplePayload sampleDb) = Ok Updated
  /\ countKey (snd (upsertMemory numberSchema 2000 samplePayload sampleDb))
       "memoryIdentities" "42" "776993385" = 1%nat
  /\ List.length (documents (snd (upsertMemory numberSchema 2000 samplePayload sampleDb)))
     = 1%nat.
Proof.
  destruct (upsertMemory_dedup numberSchema emptyDb (conj eq_refl eq_refl) reachable_empty)
    as [_ H].
  destruct (H 1000 samplePayload) as (H1 & _ & _ & _ & _ & _ & H7).
  destruct (H7 2000) as (G1 & G2 & G3).
  split; [apply H1; reflexivity|].
  split; [exact G1|]. split; [exact G2 | exact G3].
Qed.

(** C1.  The store of the repository does not take what the handler
    writes.  [schema.ts] types [createdAt] and [updatedAt] as int64, the
    handler writes [Date.now()], a number: neither the insert nor the patch
    passes the schema, so every call of [upsertMemory] throws and leaves the
    store as it was, on the empty store to begin with, where the claim
    expects [Inserted] and one record. *)
Theorem upsertMemory_refused_by_schema : forall now payload db,
  schema_createdAt memorySchema = v_int64
  /\ schema_updatedAt memorySchema = v_int64
  /\ validates v_int64 (number now) = false
  /\ upsertMemory memorySchema now payload db = (Throw SchemaValidationError, db)
  /\ upsertMemory memorySchema now payload emptyDb = (Throw SchemaValidationError, emptyDb)
  /\ documents (snd (upsertMemory memorySchema now payload emptyDb)) = [].
Proof.
  intros now payload db.
  assert (H : forall d, upsertMemory memorySchema now payload d
                        = (Throw SchemaValidationError, d)).
  { intro d. rewrite upsertMemory_outcome.
    now destruct (db_queryFirst d _ _ _). }
  split; [reflexivity|]. split; [reflexivity|]. split; [reflexivity|].
  split; [apply H|]. split; [apply H|]. now rewrite H.
Qed.

(** C9.  When [upsertMemory] finds a document under the key, the store
    afterwards differs from the store before in that document only, and in
    that document only in [text], [abstract], [tags], [embedding] and
    [updatedAt]: its identifier, table, [telegramUserId], [sourceChatId],
    [sourceMessageId], [hash] and [createdAt] are what they were, and every
    other document of every table is untouched.  That is the outcome where
    the store takes a number for [updatedAt]; where it does not, the call
    throws and the store is what it was. *)
Theorem upsertMemory_update_frame : forall sch db now payload existing,
  reachable db ->
  db_queryFirst db (layerToTable (up_layer payload))
                (up_telegramUserId payload) (up_hash payload) = Some existing ->
  exists pre post patched,
    documents db = pre ++ existing :: post
    /\ (schema_updatedAt sch = v_float64 ->
        upsertMemory sch now payload db
        = (Ok Updated, mkDb (pre ++ patched :: post) (nextId db)))
    /\ (schema_updatedAt sch = v_int64 ->
        upsertMemory sch now payload db = (Throw SchemaValidationError, db))
    /\ patched
       = mkMemoryDoc (doc_id existing) (doc_table existing)
           (doc_telegramUserId existing) (doc_sourceChatId existing)
           (doc_sourceMessageId existing)
           (up_text payload) (up_abstract payload) (up_tags payload)
           (up_embedding payload)
           (doc_hash existing) (doc_createdAt existing) now.
Proof.
  intros sch db now payload existing Hr Hq.
  destruct (reachable_invariants db Hr) as [_ Hi].
  destruct (upsertMemory_updated_in_place sch now payload db existing Hi Hq)
    as (pre & post & Hdocs & Hup & Hno).
  exists pre, post, (patchFields payload now existing). auto.
Qed.

Lemma upsertMemory_update_frame_witness :
  exists pre post patched,
    documents sampleDb = pre ++ sampleDoc :: post
    /\ upsertMemory numberSchema 2000 samplePayloadAgain sampleDb
       = (Ok Updated, mkDb (pre ++ patched :: post) (nextId sampleDb))
    /\ upsertMemory memorySchema 2000 samplePayloadAgain sampleDb
       = (Throw SchemaValidationError, sampleDb)
    /\ patched
       = mkMemoryDoc 0%nat "memoryIdentities" "42" "-1001" "7"
           "  loves coffee  " "coffee lover" ["coffee"; "drinks"] [3 # 4; 1 # 8]
           "776993385" 1000 2000.
Proof.
  destruct (upsertMemory_update_frame numberSchema sampleDb 2000 samplePayloadAgain sampleDoc
              (reachable_upsert numberSchema 1000 samplePayload emptyDb reachable_empty)
              eq_refl)
    as (pre & post & patched & Hdocs & Hup & _ & Hpatched).
  exists pre, post, patched.
  split; [exact Hdocs|]. split; [exact (Hup eq_refl)|]. split; [reflexivity | exact Hpatched].
Defined.

(* ================================================================== *)
(** * extractMemories                                                  *)
(* ================================================================== *)

Lemma upsertsOf_app : forall a b, upsertsOf (a ++ b) = upsertsOf a ++ upsertsOf b.
Proof.
  induction a as [|e a IH]; intro b; simpl; [reflexivity|].
  destruct e; simpl; now rewrite IH.
Qed.

Lemma embeddingInputsOf_app : forall a b,
  embeddingInputsOf (a ++ b) = embeddingInputsOf a ++ embeddingInputsOf b.
Proof.
  induction a as [|e a IH]; intro b; simpl; [reflexivity|].
  destruct e; simpl; now rewrite IH.
Qed.

Section Extraction.

Variable env : Environment.
Variable payload : ExtractionPayload.

Hypothesis apiKey_set : unset (OPENROUTER_API_KEY env) = false.

Let request := chatRequest env payload.

(** The handler up to the provider's answer: one request goes out, and
    what follows depends on the answer alone. *)
Lemma extractMemories_after_fetch : forall w,
  extractMemories env payload w
  = let w1 := mkWorld (db w) (trace w ++ [FetchChat request]) in
    match chatCompletions env (trace w) request with
    | Throw e => (Throw e, w1)
    | Ok response =>
        if negb (chat_ok response)
        then (Throw ("OpenRouter extraction failed: "
                     ++ Js.toString (chat_status response))%string, w1)
        else
          match responseContent response with
          | None => (Ok 0, w1)
          | Some content =>
              if Js.isEmpty content then (Ok 0, w1)
              else
                match JSON_parse env content with
                | None => (Throw MalformedExtractionResponse, w1)
                | Some ParsedNull => (Throw TypeErrorItems, w1)
                | Some (ParsedObject parsed) =>
                    extractLoop env payload
                      match parsed_items parsed with
                      | Some items => items
                      | None => []
                      end 0 w1
                end
          end
    end.
Proof.
  intro w. unfold extractMemories. rewrite apiKey_set.
  unfold bind, fetch. simpl. fold request.
  destruct (chatCompletions env (trace w) request) as [response|e]; [|reflexivity].
  destruct (chat_ok response); simpl; [|reflexivity].
  destruct (responseContent response) as [content|]; [|reflexivity].
  destruct (Js.isEmpty content); [reflexivity|].
  destruct (JSON_parse env content) as [[|parsed]|]; reflexivity.
Qed.

Lemma fetchEmbedding_ok : forall text w response,
  embeddings env (trace w) (embeddingBody text (embeddingModel env)) = Ok response ->
  emb_ok response = true ->
  fetchEmbedding env text w
  = (Ok (firstEmbedding response),
     mkWorld (db w)
       (trace w ++ [FetchEmbedding (embeddingBody text (embeddingModel env))])).
Proof.
  intros text w response Hresp Hok.
  unfold fetchEmbedding. rewrite apiKey_set.
  unfold bind, fetch, embeddingModel in *. simpl.
  rewrite Hresp, Hok. reflexivity.
Qed.

Lemma fetchEmbedding_failed : forall text w response,
  embeddings env (trace w) (embeddingBody text (embeddingModel env)) = Ok response ->
  emb_ok response = false ->
  fetchEmbedding env text w
  = (Throw ("OpenRouter embeddings failed: " ++ Js.toString (emb_status response))%string,
     mkWorld (db w)
       (trace w ++ [FetchEmbedding (embeddingBody text (embeddingModel env))])).
Proof.
  intros text w response Hresp Hbad.
  unfold fetchEmbedding. rewrite apiKey_set.
  unfold bind, fetch, embeddingModel in *. simpl.
  rewrite Hresp, Hbad. reflexivity.
Qed.

Lemma runUpsert_ok : forall p w,
  mutationFailure env (trace w) p = None ->
  runUpsert env p w
  = (fst (upsertMemory (schema env) (Date_now env (trace w)) p (db w)),
     mkWorld (snd (upsertMemory (schema env) (Date_now env (trace w)) p (db w)))
             (trace w ++ [RunUpsert p])).
Proof.
  intros p w Hm. unfold runUpsert. rewrite Hm.
  now destruct (upsertMemory _ _ p (db w)).
Qed.

End Extraction.

(** C4.  When the extraction provider answers with a success status and a
    non-empty content that [JSON.parse] rejects, [extractMemories] throws
    the parse-failure error, and the only thing that has happened is the
    request to the provider: the store is what it was and the trace holds
    no embedding request and no mutation. *)
Theorem extractMemories_parse_failure :
  forall env payload w response content,
    unset (OPENROUTER_API_KEY env) = false ->
    chatCompletions env (trace w) (chatRequest env payload) = Ok response ->
    chat_ok response = true ->
    responseContent response = Some content ->
    content <> ""%string ->
    JSON_parse env content = None ->
    extractMemories env payload w
    = (Throw MalformedExtractionResponse,
       mkWorld (db w) (trace w ++ [FetchChat (chatRequest env payload)]))
    /\ upsertsOf [FetchChat (chatRequest env payload)] = []
    /\ embeddingInputsOf [FetchChat (chatRequest env payload)] = [].
Proof.
  intros env payload w response content Hkey Hresp Hok Hcontent Hne Hparse.
  split; [|split; reflexivity].
  rewrite extractMemories_after_fetch by assumption.
  simpl. rewrite Hresp, Hok, Hcontent. simpl.
  destruct content; [congruence|]. simpl. now rewrite Hparse.
Qed.

(** C5.  A provider answer with a non-success status makes
    [extractMemories] throw and write nothing; a successful answer whose
    content is missing or empty, or parses to an object without [items],
    makes it return [inserted = 0], again with nothing written and no
    error.  In all these cases the request to the provider is the only
    event. *)
Theorem extractMemories_failure_or_nothing :
  forall env payload w response,
    unset (OPENROUTER_API_KEY env) = false ->
    chatCompletions env (trace w) (chatRequest env payload) = Ok response ->
    let w1 := mkWorld (db w) (trace w ++ [FetchChat (chatRequest env payload)]) in
    (chat_ok response = false ->
       extractMemories env payload w
       = (Throw ("OpenRouter extraction failed: " ++ Js.toString (chat_status response))%string,
          w1))
    /\ (chat_ok response = true ->
        (responseContent response = None \/ responseContent response = Some ""%string) ->
        extractMemories env payload w = (Ok 0, w1))
    /\ (forall content parsed,
          chat_ok response = true ->
          responseContent response = Some content ->
          JSON_parse env content = Some (ParsedObject parsed) ->
          parsed_items parsed = None ->
          extractMemories env payload w = (Ok 0, w1)).
Proof.
  intros env payload w response Hkey Hresp w1. subst w1.
  rewrite extractMemories_after_fetch by assumption.
  simpl. rewrite Hresp.
  split; [|split].
  - intros ->. reflexivity.
  - intros -> [-> | ->]; reflexivity.
  - intros content parsed -> -> Hparse Hitems. simpl.
    destruct (Js.isEmpty content); [reflexivity|].
    rewrite Hparse, Hitems. reflexivity.
Qed.

Lemma extractMemories_parse_failure_witness :
  extractMemories (sampleEnv (chatAnswer true 200 (Some "Sorry, nothing to remember.")))
    sampleExtraction sampleWorld
  = (Throw "Failed to parse memory extraction response",
     mkWorld emptyDb
       [FetchChat (sampleChatRequest)]).
Proof.
  refine (proj1 (extractMemories_parse_failure
                   (sampleEnv (chatAnswer true 200 (Some "Sorry, nothing to remember.")))
                   sampleExtraction sampleWorld
                   (chatAnswer true 200 (Some "Sorry, nothing to remember."))
                   "Sorry, nothing to remember."
                   eq_refl eq_refl eq_refl eq_refl _ eq_refl)).
  discriminate.
Defined.

Lemma extractMemories_failure_or_nothing_witness :
  extractMemories (sampleEnv (chatAnswer false 503 None)) sampleExtraction sampleWorld
  = (Throw "OpenRouter extraction failed: 503",
     mkWorld emptyDb
       [FetchChat (sampleChatRequest)])
  /\ extractMemories (sampleEnv (chatAnswer true 200 (Some ""))) sampleExtraction sampleWorld
     = (Ok 0,
        mkWorld emptyDb
          [FetchChat (sampleChatRequest)])
  /\ extractMemories (sampleEnv (chatAnswer true 200 (Some "{}"))) sampleExtraction sampleWorld
     = (Ok 0,
        mkWorld emptyDb
          [FetchChat (sampleChatRequest)]).
Proof.
  split; [|split].
  - exact (proj1 (extractMemories_failure_or_nothing
                    (sampleEnv (chatAnswer false 503 None)) sampleExtraction sampleWorld
                    (chatAnswer false 503 None) eq_refl eq_refl) eq_refl).
  - exact (proj1 (proj2 (extractMemories_failure_or_nothing
                    (sampleEnv (chatAnswer true 200 (Some ""))) sampleExtraction sampleWorld
                    (chatAnswer true 200 (Some "")) eq_refl eq_refl))
             eq_refl (or_intror eq_refl)).
  - exact (proj2 (proj2 (extractMemories_failure_or_nothing
                    (sampleEnv (chatAnswer true 200 (Some "{}"))) sampleExtraction sampleWorld
                    (chatAnswer true 200 (Some "{}")) eq_refl eq_refl))
             "{}"%string (mkExtractionResponse None) eq_refl eq_refl eq_refl eq_refl).
Defined.

(* ================================================================== *)
(** * memoryContext                                                    *)
(* ================================================================== *)

Lemma sortInsert_perm : forall A (compare : A -> A -> Q) x l,
  Permutation (x :: l) (sortInsert compare x l).
Proof.
  intros A compare x l. induction l as [|y l IH]; simpl; [reflexivity|].
  destruct (Qle_bool (compare x y) 0); [reflexivity|].
  rewrite perm_swap. now constructor.
Qed.

Lemma Array_sort_perm : forall A (compare : A -> A -> Q) l,
  Permutation l (Array_sort compare l).
Proof.
  intros A compare l. induction l as [|x l IH]; simpl; [reflexivity|].
  rewrite <- sortInsert_perm. now constructor.
Qed.

Lemma byScoreDescending_le : forall x y,
  Qle_bool (byScoreDescending x y) 0 = true <-> rankedBefore x y.
Proof.
  intros x y. rewrite Qle_bool_iff. unfold byScoreDescending, rankedBefore.
  split; intro H; lra.
Qed.

Lemma rankedBefore_trans : forall a b c,
  rankedBefore a b -> rankedBefore b c -> rankedBefore a c.
Proof. unfold rankedBefore. intros a b c H1 H2. lra. Qed.

Lemma sortInsert_sorted : forall x l,
  StronglySorted rankedBefore l ->
  StronglySorted rankedBefore (sortInsert byScoreDescending x l).
Proof.
  intros x l Hs. induction Hs as [|y l Hs IH Hy]; simpl.
  - repeat constructor.
  - destruct (Qle_bool (byScoreDescending x y) 0) eqn:Hc.
    + apply byScoreDescending_le in Hc.
      constructor; [now constructor|].
      constructor; [assumption|].
      eapply Forall_impl; [|exact Hy].
      intros z Hz. eapply rankedBefore_trans; eassumption.
    + constructor; [assumption|].
      apply (Permutation_Forall (sortInsert_perm _ byScoreDescending x l)).
      constructor; [|assumption].
      destruct (Qlt_le_dec (mci_score x) (mci_score y)) as [Hlt|Hle].
      * unfold rankedBefore. lra.
      * apply byScoreDescending_le in Hle. congruence.
Qed.

Lemma Array_sort_sorted : forall l,
  StronglySorted rankedBefore (Array_sort byScoreDescending l).
Proof.
  induction l as [|x l IH]; simpl; [constructor | now apply sortInsert_sorted].
Qed.

Lemma filterBoolean_length : forall A (l : list (option A)),
  (List.length (filterBoolean l) <= List.length l)%nat.
Proof.
  induction l as [|[a|] l IH]; simpl; lia.
Qed.

Lemma mapIndexed_length : forall A B (f : A -> nat -> B) l index,
  List.length (mapIndexed f index l) = List.length l.
Proof.
  induction l as [|a l IH]; intro index; simpl; auto.
Qed.

Lemma mapIndexed_Forall : forall A B (f : A -> nat -> B) (P : B -> Prop) l index,
  (forall a i, P (f a i)) -> Forall P (mapIndexed f index l).
Proof.
  induction l as [|a l IH]; intros index H; simpl; constructor; auto.
Qed.

Lemma concat_length_bound : forall A (parts : list (list A)) n,
  Forall (fun part => (List.length part <= n)%nat) parts ->
  (List.length (List.concat parts) <= n * List.length parts)%nat.
Proof.
  induction 1 as [|part parts Hp _ IH]; simpl; [lia|].
  rewrite length_app. lia.
Qed.

Lemma recordsOf_filterBoolean : forall d matches,
  recordsOf d matches = filterBoolean (map (fun m => db_get d (match_id m)) matches).
Proof.
  intros d matches. unfold recordsOf, db_get.
  induction matches as [|m matches IH]; simpl; [reflexivity|].
  rewrite IH. now destruct (find _ (documents d)).
Qed.

Lemma skipn_nth_error : forall (matches : list VectorMatch) index m,
  nth_error matches index = Some m ->
  skipn index matches = m :: skipn (S index) matches.
Proof.
  induction matches as [|m0 matches IH]; intros [|index] m H; simpl in *;
    try discriminate.
  - now injection H as ->.
  - now apply IH.
Qed.

(** The score looked up by position is the score of the hit paired with
    the record. *)
Lemma mapIndexed_combine : forall (layer : MemoryLayer) (matches : list VectorMatch)
    (records : list MemoryDoc) (index : nat),
  (index + List.length records <= List.length matches)%nat ->
  map toItem
    (mapIndexed
       (fun record i =>
          (layer, record,
           match nth_error matches i with
           | Some m => match_score m
           | None => 0%Q
           end))
       index records)
  = map (itemOf layer) (combine records (skipn index matches)).
Proof.
  intros layer matches records. induction records as [|r records IH]; intros index Hlen.
  - reflexivity.
  - simpl in Hlen. simpl mapIndexed.
    destruct (nth_error matches index) as [m|] eqn:Hn.
    + rewrite (skipn_nth_error _ _ _ Hn). simpl. rewrite IH by lia. reflexivity.
    + apply nth_error_None in Hn. lia.
Qed.

Lemma layerHits_items : forall d layer matches,
  map toItem (layerHits d layer matches)
  = map (itemOf layer) (combine (recordsOf d matches) matches).
Proof.
  intros d layer matches. unfold layerHits.
  rewrite recordsOf_filterBoolean.
  rewrite mapIndexed_combine; [reflexivity|].
  pose proof (filterBoolean_length _ (map (fun m => db_get d (match_id m)) matches)).
  rewrite length_map in *. simpl. lia.
Qed.

Section RetrievalFacts.

Variable env : Environment.
Variable payload : ContextPayload.
Variable queryEmbedding : Embedding.

Let searchEvent := searchEvent payload queryEmbedding.

(** The six searches are issued whatever the index will answer. *)
Lemma mapM_startSearch : forall ls w,
  mapM (startSearch payload queryEmbedding) ls w
  = (Ok (map (fun _ => tt) ls), mkWorld (db w) (trace w ++ map searchEvent ls)).
Proof.
  induction ls as [|layer ls IH]; intro w; simpl.
  - rewrite app_nil_r. now destruct w.
  - unfold bind at 1. unfold startSearch at 1, emit.
    unfold bind at 1. rewrite IH. simpl. now rewrite <- app_assoc.
Qed.

Hypothesis search_ok : searchHonoursLimit env.

Lemma awaitSearch_spec : forall layer w,
  exists hits,
    awaitSearch env payload queryEmbedding layer w = (Ok hits, w)
    /\ layerPart env (db w) payload queryEmbedding layer (map toItem hits).
Proof.
  intros layer w. unfold awaitSearch.
  destruct (search_ok (db w) (layerToTable layer) queryEmbedding perLayerLimit
              (cx_telegramUserId payload)) as (matches & Hm & Hlen).
  rewrite Hm. eexists. split; [reflexivity|]. split; [|split].
  - exists matches. split; [exact Hm | apply layerHits_items].
  - unfold layerHits. rewrite length_map, mapIndexed_length.
    pose proof (filterBoolean_length _ (map (fun m => db_get (db w) (match_id m)) matches)).
    rewrite length_map in *. unfold perLayerLimit in Hlen. lia.
  - apply Forall_map. apply mapIndexed_Forall. intros record index. reflexivity.
Qed.

Lemma mapM_awaitSearch_spec : forall ls w,
  exists results,
    mapM (awaitSearch env payload queryEmbedding) ls w = (Ok results, w)
    /\ Forall2 (layerPart env (db w) payload queryEmbedding) ls
         (map (map toItem) results).
Proof.
  induction ls as [|layer ls IH]; intro w; simpl.
  - exists []. split; [reflexivity | constructor].
  - destruct (awaitSearch_spec layer w) as (hits & Hrun & Hpart).
    unfold bind at 1. rewrite Hrun.
    destruct (IH w) as (results & Hrest & Hparts).
    unfold bind at 1. rewrite Hrest.
    exists (hits :: results). simpl.
    split; [reflexivity | now constructor].
Qed.

End RetrievalFacts.

(** The handler of [memoryContext] where [fetch] and the vector index
    answer: with a working embedding provider and an index that honours
    its limit, it requests one embedding, of the query; searches each of
    the six layers once, with limit 3 and the filter on the query's owner;
    and returns, for every layer, the text, abstract and tags of the
    documents behind the hits with the hits' scores, tagged with the layer,
    at most three per layer and so at most 18, ordered by descending
    score: no item has a smaller score than an item after it.  Nothing is
    written. *)
Lemma memoryContext_ranked :
  forall env payload w response,
    unset (OPENROUTER_API_KEY env) = false ->
    embeddings env (trace w) (mkEmbeddingRequest (cx_query payload) (embeddingModel env))
    = Ok response ->
    emb_ok response = true ->
    searchHonoursLimit env ->
    exists items queryEmbedding perLayer,
      let events :=
        FetchEmbedding (mkEmbeddingRequest (cx_query payload) (embeddingModel env))
        :: map (fun layer =>
                  VectorSearch (layerToTable layer) queryEmbedding 3 (cx_telegramUserId payload))
               layers in
      memoryContext env payload w = (Ok items, mkWorld (db w) (trace w ++ events))
      /\ embeddingInputsOf events = [Some (cx_query payload)]
      /\ queryEmbedding = firstEmbedding response
      /\ Forall2 (layerPart env (db w) payload queryEmbedding) layers perLayer
      /\ Permutation (List.concat perLayer) items
      /\ (List.length items <= 18)%nat
      /\ StronglySorted rankedBefore items.
Proof.
  intros env payload w response Hkey Hresp Hok Hsearch.
  set (queryEmbedding := firstEmbedding response).
  set (w1 := mkWorld (db w)
               (trace w ++ [FetchEmbedding (embeddingBody (Some (cx_query payload))
                                              (embeddingModel env))])).
  set (w2 := mkWorld (db w1)
               (trace w1 ++ map (searchEvent payload queryEmbedding) layers)).
  destruct (mapM_awaitSearch_spec env payload queryEmbedding Hsearch layers w2)
    as (results & Hrun & Hparts).
  exists (Array_sort byScoreDescending (map toItem (List.concat results))),
         queryEmbedding, (map (map toItem) results).
  assert (Hperm : Permutation (List.concat (map (map toItem) results))
                    (Array_sort byScoreDescending (map toItem (List.concat results)))).
  { rewrite <- concat_map. apply Array_sort_perm. }
  split; [|split; [reflexivity|split; [reflexivity|split;
             [exact Hparts|split; [assumption|split]]]]].
  - unfold memoryContext. unfold bind at 1.
    rewrite (fetchEmbedding_ok env Hkey _ _ _ Hresp Hok).
    fold queryEmbedding. fold w1.
    unfold bind at 1. rewrite mapM_startSearch. fold w2.
    unfold bind at 1. rewrite Hrun.
    unfold ret, w2, w1. simpl. rewrite <- app_assoc. reflexivity.
  - rewrite <- (Permutation_length Hperm).
    assert (Hlen : List.length (map (map toItem) results) = 6%nat).
    { rewrite <- (Forall2_length Hparts). reflexivity. }
    assert (Hb : Forall (fun part => (List.length part <= 3)%nat) (map (map toItem) results)).
    { clear - Hparts. induction Hparts as [|layer part ls parts (_ & Hp & _) _ IH];
        constructor; assumption. }
    pose proof (concat_length_bound _ _ _ Hb). lia.
  - apply Array_sort_sorted.
Qed.

Lemma sampleEnv_searchHonoursLimit : forall answer,
  searchHonoursLimit (sampleEnv answer).
Proof.
  intros answer d table vector limit telegramUserId.
  eexists. split; [reflexivity|]. apply firstn_le_length.
Defined.

(** What the handler returns on the sample store where [fetch] answers:
    the three memories of owner 42, best score first. *)
Example memoryContext_sample :
  fst (memoryContext (sampleEnv (chatAnswer true 200 None)) sampleQuery
         (mkWorld sampleStore []))
  = Ok [mkMemoryContextItem preferences "tea at night" "tea" [] (3 # 10);
        mkMemoryContextItem identities "is a nurse" "nurse" [] (2 # 10);
        mkMemoryContextItem identities "Loves Coffee" "likes coffee" ["coffee"] (1 # 10)].
Proof. vm_compute. reflexivity. Qed.

Lemma runtime_query : forall refusal env,
  OPENROUTER_API_KEY (runtime queryGeneric refusal env) = OPENROUTER_API_KEY env
  /\ embeddingModel (runtime queryGeneric refusal env) = embeddingModel env
  /\ (forall tr request,
        embeddings (runtime queryGeneric refusal env) tr request = Throw refusal).
Proof. intros. repeat split. Qed.

(** C3.  [memoryContext] is registered with [queryGeneric], and the
    runtime gives a query no [fetch]: the request for the embedding of the
    query is refused, so the call throws before any layer is searched,
    whatever the store holds, and never returns items; without the
    credential it throws the configuration error before that.
    [extractMemories], which is registered as an action, keeps its
    [fetch].  (Where [fetch] answers the handler does rank as claimed:
    [memoryContext_ranked].) *)
Theorem memoryContext_query_cannot_fetch : forall refusal env payload w,
  fetchAvailable queryGeneric = false
  /\ fetchAvailable actionGeneric = true
  /\ (forall extraction,
        extractMemoriesAction refusal env extraction = extractMemories env extraction)
  /\ (unset (OPENROUTER_API_KEY env) = true ->
      memoryContextQuery refusal env payload w
      = (Throw "OPENROUTER_API_KEY is not set"%string, w))
  /\ (unset (OPENROUTER_API_KEY env) = false ->
      memoryContextQuery refusal env payload w
      = (Throw refusal,
         mkWorld (db w)
           (trace w ++ [FetchEmbedding (mkEmbeddingRequest (cx_query payload)
                                          (embeddingModel env))])))
  /\ exists e, fst (memoryContextQuery refusal env payload w) = Throw e.
Proof.
  intros refusal env payload w.
  destruct (runtime_query refusal env) as (Hkey & Hmodel & Hfetch).
  assert (H1 : unset (OPENROUTER_API_KEY env) = true ->
               memoryContextQuery refusal env payload w
               = (Throw "OPENROUTER_API_KEY is not set"%string, w)).
  { intro H. unfold memoryContextQuery, memoryContext, bind, fetchEmbedding.
    now rewrite Hkey, H. }
  assert (H2 : unset (OPENROUTER_API_KEY env) = false ->
               memoryContextQuery refusal env payload w
               = (Throw refusal,
                  mkWorld (db w)
                    (trace w ++ [FetchEmbedding (mkEmbeddingRequest (cx_query payload)
                                                   (embeddingModel env))]))).
  { intro H. unfold memoryContextQuery, memoryContext, fetchEmbedding.
    rewrite Hkey, H. unfold bind, fetch. cbv beta zeta.
    fold (embeddingModel (runtime queryGeneric refusal env)).
    now rewrite Hfetch, Hmodel. }
  split; [reflexivity|]. split; [reflexivity|]. split; [reflexivity|].
  split; [exact H1|]. split; [exact H2|].
  destruct (unset (OPENROUTER_API_KEY env)) eqn:Hk.
  - rewrite (H1 eq_refl). now eexists.
  - rewrite (H2 eq_refl). now eexists.
Qed.

(** The sample retrieval as the back end runs it: refused. *)
Example memoryContextQuery_sample :
  memoryContextQuery "fetch is not available in a query"
    (sampleEnv (chatAnswer true 200 None)) sampleQuery (mkWorld sampleStore [])
  = (Throw "fetch is not available in a query"%string,
     mkWorld sampleStore
       [FetchEmbedding (mkEmbeddingRequest "what do I drink?" "text-embedding-3-large")]).
Proof. reflexivity. Qed.

(* ================================================================== *)
(** * shouldExtractMemory                                              *)
(* ================================================================== *)

Lemma string_of_uint_digits : forall d,
  takeDigits (NilEmpty.string_of_uint d) = NilEmpty.string_of_uint d.
Proof.
  induction d; simpl; try reflexivity;
    (change (isDigit _) with true; cbv iota; now rewrite IHd).
Qed.

Lemma string_of_uint_head : forall d,
  d <> Decimal.Nil ->
  exists c rest,
    NilEmpty.string_of_uint d = String c rest
    /\ isDigit c = true /\ Js.isWhiteSpace c = false.
Proof.
  destruct d; intro H; try congruence; simpl; do 2 eexists; repeat split.
Qed.

(** Digits only: what [parseInt] reads back is the numeral. *)
Lemma parseInt10_digits : forall d,
  d <> Decimal.Nil ->
  parseInt10 (NilEmpty.string_of_uint d) = Some (Z.of_uint d).
Proof.
  intros d Hd.
  destruct (string_of_uint_head d Hd) as (c & rest & Hs & Hdig & Hws).
  unfold parseInt10.
  assert (Htrim : Js.trimStart (NilEmpty.string_of_uint d) = NilEmpty.string_of_uint d).
  { rewrite Hs. simpl. now rewrite Hws. }
  rewrite Htrim.
  assert (Hsign : (let '(negative, rest0) :=
                     match NilEmpty.string_of_uint d with
                     | String "-"%char r => (true, r)
                     | String "+"%char r => (false, r)
                     | _ => (false, NilEmpty.string_of_uint d)
                     end in (negative, rest0))
                  = (false, NilEmpty.string_of_uint d)).
  { rewrite Hs.
    destruct c as [[|] [|] [|] [|] [|] [|] [|] [|]]; try reflexivity; discriminate. }
  revert Hsign.
  destruct (match NilEmpty.string_of_uint d with
            | String "-"%char r => (true, r)
            | String "+"%char r => (false, r)
            | _ => (false, NilEmpty.string_of_uint d)
            end) as [negative rest0].
  intros [= -> ->].
  rewrite string_of_uint_digits, Hs, <- Hs, NilEmpty.usu. reflexivity.
Qed.

Lemma parseInt10_toString : forall z, parseInt10 (Js.toString z) = Some z.
Proof.
  intros [|p|p].
  - reflexivity.
  - unfold Js.toString. simpl.
    rewrite parseInt10_digits by apply Unsigned.to_uint_nonnil.
    unfold Z.of_uint. now rewrite Unsigned.of_to.
  - unfold Js.toString. simpl. unfold parseInt10.
    change (Js.trimStart (String "-" ?s)) with (String "-" s).
    cbv beta iota. rewrite string_of_uint_digits.
    destruct (string_of_uint_head (Pos.to_uint p) (Unsigned.to_uint_nonnil p))
      as (c & rest & Hs & _).
    rewrite Hs, <- Hs, NilEmpty.usu.
    unfold Z.of_uint. now rewrite Unsigned.of_to.
Qed.

Lemma toString_nonempty : forall z, Js.isEmpty (Js.toString z) = false.
Proof.
  intros [|p|p]; try reflexivity.
  unfold Js.toString. simpl.
  destruct (string_of_uint_head (Pos.to_uint p) (Unsigned.to_uint_nonnil p))
    as (c & rest & -> & _). reflexivity.
Qed.

Section RateGate.

Variable MIN_INTERVAL_SECONDS : Z.
Variable telegramUserId : string.

Let key := extractKey telegramUserId.

(** While the entry of an allowed call lives, the gate reads its time
    back; once it has expired the gate reads 0. *)
Lemma lastTrigger_after : forall kv t1 t,
  kv key = Some (triggerEntry MIN_INTERVAL_SECONDS t1) ->
  lastTrigger kv t false key
  = Some (if t <? t1 + 1000 * MIN_INTERVAL_SECONDS then t1 / 1000 else 0).
Proof.
  intros kv t1 t Hkv. unfold lastTrigger, kv_get. rewrite Hkv.
  unfold triggerEntry. cbn [kv_value kv_expiration].
  destruct (t <? t1 + 1000 * MIN_INTERVAL_SECONDS); [|reflexivity].
  unfold Js.orElse. rewrite toString_nonempty. apply parseInt10_toString.
Qed.

Lemma lastTrigger_missing : forall kv t getRejects,
  kv_get kv t key = None -> lastTrigger kv t getRejects key = Some 0.
Proof.
  intros kv t getRejects H. unfold lastTrigger. rewrite H.
  now destruct getRejects.
Qed.

Lemma kv_put_key : forall kv t value ttl,
  kv_put kv t key value ttl key = Some (mkKvEntry value (t + 1000 * ttl)).
Proof. intros. unfold kv_put. now rewrite String.eqb_refl. Qed.

Lemma kv_put_other : forall kv t value ttl k,
  k <> key -> kv_put kv t key value ttl k = kv k.
Proof.
  intros kv t value ttl k Hk. unfold kv_put.
  apply String.eqb_neq in Hk. now rewrite Hk.
Qed.

Hypothesis interval_positive : 0 < MIN_INTERVAL_SECONDS.

(** What one call decides and leaves behind. *)
Lemma shouldExtractMemory_decision : forall t getRejects kv,
  shouldExtractMemory MIN_INTERVAL_SECONDS t getRejects telegramUserId kv
  = match lastTrigger kv t getRejects key with
    | Some last =>
        if t / 1000 - last <? MIN_INTERVAL_SECONDS then (false, kv)
        else (true, kv_put kv t key (Js.toString (t / 1000)) MIN_INTERVAL_SECONDS)
    | None => (true, kv_put kv t key (Js.toString (t / 1000)) MIN_INTERVAL_SECONDS)
    end.
Proof.
  intros t getRejects kv. unfold shouldExtractMemory.
  destruct (Z.leb_spec MIN_INTERVAL_SECONDS 0); [lia | reflexivity].
Qed.

(** A call at [t], made no earlier than an allowed call at [t1] whose
    entry is still what the store holds: it is allowed only when at
    least the interval has passed, and the store then holds its entry. *)
Lemma shouldExtractMemory_after : forall kv t1 t,
  kv key = Some (triggerEntry MIN_INTERVAL_SECONDS t1) ->
  t1 <= t ->
  let (allowed, kv') := shouldExtractMemory MIN_INTERVAL_SECONDS t false telegramUserId kv in
  (allowed = true ->
     MIN_INTERVAL_SECONDS <= t / 1000 - t1 / 1000
     /\ kv' key = Some (triggerEntry MIN_INTERVAL_SECONDS t))
  /\ (allowed = false -> kv' = kv)
  /\ (0 <= t1 -> MIN_INTERVAL_SECONDS <= t / 1000 - t1 / 1000 -> allowed = true).
Proof.
  intros kv t1 t Hkv Hle.
  rewrite shouldExtractMemory_decision, (lastTrigger_after kv t1 t Hkv).
  assert (Hexp : t1 + 1000 * MIN_INTERVAL_SECONDS <= t ->
                 MIN_INTERVAL_SECONDS <= t / 1000 - t1 / 1000).
  { intro H.
    assert (t1 / 1000 + MIN_INTERVAL_SECONDS <= t / 1000); [|lia].
    rewrite <- Z.div_add by lia.
    apply Z.div_le_mono; lia. }
  assert (H0 : 0 <= t1 -> 0 <= t1 / 1000) by (intro; apply Z.div_pos; lia).
  destruct (Z.ltb_spec t (t1 + 1000 * MIN_INTERVAL_SECONDS)) as [Hlive|Hdead].
  - destruct (Z.ltb_spec (t / 1000 - t1 / 1000) MIN_INTERVAL_SECONDS).
    + repeat split; try discriminate; auto; lia.
    + repeat split; try discriminate; auto. apply kv_put_key.
  - specialize (Hexp Hdead).
    destruct (Z.ltb_spec (t / 1000 - 0) MIN_INTERVAL_SECONDS).
    + repeat split; try discriminate; auto. intros H1 _. specialize (H0 H1). lia.
    + repeat split; try discriminate; auto. apply kv_put_key.
Qed.

Lemma gateRun_after : forall times kv t1,
  kv key = Some (triggerEntry MIN_INTERVAL_SECONDS t1) ->
  StronglySorted Z.le (t1 :: times) ->
  Forall (fun r => snd r = true ->
                   MIN_INTERVAL_SECONDS <= fst r / 1000 - t1 / 1000)
         (fst (gateRun MIN_INTERVAL_SECONDS telegramUserId times kv))
  /\ spaced MIN_INTERVAL_SECONDS
       (fst (gateRun MIN_INTERVAL_SECONDS telegramUserId times kv)).
Proof.
  induction times as [|t times IH]; intros kv t1 Hkv Hsorted; simpl.
  - split; constructor.
  - assert (Ht : t1 <= t).
    { apply StronglySorted_inv in Hsorted as [_ H]. now inversion H. }
    assert (Hs1 : StronglySorted Z.le (t1 :: times)).
    { apply StronglySorted_inv in Hsorted as [Hs H].
      apply StronglySorted_inv in Hs as [Hs _].
      constructor; [assumption | now inversion H]. }
    assert (Hs2 : StronglySorted Z.le (t :: times)).
    { now apply StronglySorted_inv in Hsorted as [Hs _]. }
    pose proof (shouldExtractMemory_after kv t1 t Hkv Ht) as Hstep.
    destruct (shouldExtractMemory MIN_INTERVAL_SECONDS t false telegramUserId kv)
      as [allowed kv1].
    destruct Hstep as (Hallow & Hdeny & _).
    destruct allowed.
    + destruct (Hallow eq_refl) as [Hgap Hkv1].
      destruct (IH kv1 t Hkv1 Hs2) as [Hall Hsp].
      destruct (gateRun MIN_INTERVAL_SECONDS telegramUserId times kv1) as [rest kv2].
      simpl in *. split.
      * constructor; [auto|].
        eapply Forall_impl; [|exact Hall]. simpl. intros r Hr Htrue.
        specialize (Hr Htrue). lia.
      * constructor; [|assumption].
        eapply Forall_impl; [|exact Hall]. simpl. auto.
    + rewrite (Hdeny eq_refl).
      destruct (IH kv t1 Hkv Hs1) as [Hall Hsp].
      destruct (gateRun MIN_INTERVAL_SECONDS telegramUserId times kv) as [rest kv2].
      simpl in *. split.
      * constructor; [discriminate | assumption].
      * constructor; [|assumption].
        apply Forall_forall. intros r _. discriminate.
Qed.

(** From any store: calls at non-decreasing times are spaced. *)
Lemma gateRun_spaced : forall times kv,
  StronglySorted Z.le times ->
  spaced MIN_INTERVAL_SECONDS
    (fst (gateRun MIN_INTERVAL_SECONDS telegramUserId times kv)).
Proof.
  induction times as [|t times IH]; intros kv Hsorted; simpl; [constructor|].
  pose proof (shouldExtractMemory_decision t false kv) as Hstep.
  destruct (shouldExtractMemory MIN_INTERVAL_SECONDS t false telegramUserId kv)
    as [allowed kv1].
  destruct allowed.
  - assert (Hkv1 : kv1 key = Some (triggerEntry MIN_INTERVAL_SECONDS t)).
    { destruct (lastTrigger kv t false key) as [last|];
        [destruct (t / 1000 - last <? MIN_INTERVAL_SECONDS); [discriminate|]|];
        injection Hstep as ->; apply kv_put_key. }
    destruct (gateRun_after times kv1 t Hkv1 Hsorted) as [Hall Hsp].
    destruct (gateRun MIN_INTERVAL_SECONDS telegramUserId times kv1) as [rest kv2].
    simpl in *. constructor; [|assumption].
    eapply Forall_impl; [|exact Hall]. simpl. auto.
  - apply StronglySorted_inv in Hsorted as [Hs _].
    specialize (IH kv1 Hs).
    destruct (gateRun MIN_INTERVAL_SECONDS telegramUserId times kv1) as [rest kv2].
    simpl in *. constructor; [|assumption].
    apply Forall_forall. intros r _. discriminate.
Qed.

End RateGate.

(** C7 (amended).  With interval [I]: if [I <= 0] the gate answers true
    and leaves the store alone.  If [I > 0] it compares [now - last] with
    [I], where [last] is the stored last-trigger time and a missing or
    expired record, or a failed read, counts as [last = 0]: below [I] it
    answers false and leaves the store alone; otherwise it stores [now]
    under the owner's key with expiry [I] and answers true.  So a call
    whose read fails is allowed whenever [I <= now], whatever the store
    holds, also right after an allowed call.  Where the read succeeds, the
    stored time is read back as long as the record lives, so a later call
    less than [I] seconds after an allowed one is denied and one at least
    [I] seconds after it is allowed.  Hence, over calls at non-decreasing
    times whose reads succeed, two allowed calls are never less than [I]
    seconds apart. *)
Theorem shouldExtractMemory_gate :
  forall (I nowMs : Z) (getRejects : bool) (telegramUserId : string) (kv : KV),
    let key := extractKey telegramUserId in
    let now := nowMs / 1000 in
    let allow := (true, kv_put kv nowMs key (Js.toString now) I) in
    (I <= 0 -> shouldExtractMemory I nowMs getRejects telegramUserId kv = (true, kv))
    /\ (kv_get kv nowMs key = None \/ getRejects = true ->
        lastTrigger kv nowMs getRejects key = Some 0)
    /\ (forall last, 0 < I ->
          lastTrigger kv nowMs getRejects key = Some last -> now - last < I ->
          shouldExtractMemory I nowMs getRejects telegramUserId kv = (false, kv))
    /\ (forall last, 0 < I ->
          lastTrigger kv nowMs getRejects key = Some last -> I <= now - last ->
          shouldExtractMemory I nowMs getRejects telegramUserId kv = allow)
    /\ (0 < I -> lastTrigger kv nowMs getRejects key = None ->
        shouldExtractMemory I nowMs getRejects telegramUserId kv = allow)
    /\ (snd allow key = Some (mkKvEntry (Js.toString now) (nowMs + 1000 * I))
        /\ forall t, lastTrigger (snd allow) t false key
                     = Some (if t <? nowMs + 1000 * I then now else 0))
    /\ (forall t, 0 < I -> nowMs <= t -> t / 1000 - now < I ->
          shouldExtractMemory I t false telegramUserId (snd allow) = (false, snd allow))
    /\ (forall t, 0 < I -> 0 <= nowMs <= t -> I <= t / 1000 - now ->
          fst (shouldExtractMemory I t false telegramUserId (snd allow)) = true)
    /\ (forall times, 0 < I -> StronglySorted Z.le times ->
          spaced I (fst (gateRun I telegramUserId times kv)))
    /\ (0 < I -> I <= now ->
        shouldExtractMemory I nowMs true telegramUserId kv = allow)
    /\ (forall t, 0 < I -> I <= t / 1000 ->
          fst (shouldExtractMemory I t true telegramUserId (snd allow)) = true).
Proof.
  intros I nowMs getRejects telegramUserId kv key now allow.
  assert (Hfailed : forall t kv0, 0 < I -> I <= t / 1000 ->
            shouldExtractMemory I t true telegramUserId kv0
            = (true, kv_put kv0 t key (Js.toString (t / 1000)) I)).
  { intros t kv0 HI Hge.
    rewrite shouldExtractMemory_decision by assumption.
    unfold lastTrigger.
    destruct (Z.ltb_spec (t / 1000 - 0) I); [lia | reflexivity]. }
  split; [|split; [|split; [|split; [|split; [|split; [|split; [|split; [|split; [|split]]]]]]]]].
  - intro HI. unfold shouldExtractMemory.
    destruct (Z.leb_spec I 0); [reflexivity | lia].
  - intros [H | ->]; [now apply lastTrigger_missing | reflexivity].
  - intros last HI Hlast Hlt.
    rewrite shouldExtractMemory_decision by assumption.
    fold key. rewrite Hlast. fold now.
    destruct (Z.ltb_spec (now - last) I); [reflexivity | lia].
  - intros last HI Hlast Hge.
    rewrite shouldExtractMemory_decision by assumption.
    fold key. rewrite Hlast. fold now.
    destruct (Z.ltb_spec (now - last) I); [lia | reflexivity].
  - intros HI Hlast.
    rewrite shouldExtractMemory_decision by assumption.
    fold key. now rewrite Hlast.
  - split; [apply kv_put_key|].
    intro t. apply lastTrigger_after. apply kv_put_key.
  - intros t HI Ht Hlt.
    rewrite shouldExtractMemory_decision by assumption.
    rewrite (lastTrigger_after I telegramUserId (snd allow) nowMs t) by apply kv_put_key.
    fold now.
    assert (Hlive : t < nowMs + 1000 * I) by (subst now; Z.div_mod_to_equations; lia).
    destruct (Z.ltb_spec t (nowMs + 1000 * I)); [|lia].
    destruct (Z.ltb_spec (t / 1000 - now) I); [reflexivity | lia].
  - intros t HI Ht Hge.
    pose proof (shouldExtractMemory_after I telegramUserId HI (snd allow) nowMs t
                  (kv_put_key telegramUserId kv nowMs (Js.toString now) I)
                  (proj2 Ht)) as Hstep.
    destruct (shouldExtractMemory I t false telegramUserId (snd allow)) as [allowed kv'].
    destruct Hstep as (_ & _ & Hlive). simpl. apply Hlive; [lia | exact Hge].
  - intros times HI Hsorted. now apply gateRun_spaced.
  - intros HI Hge. now apply Hfailed.
  - intros t HI Hge. now rewrite Hfailed.
Qed.

(** The example of the design document, [I = 60]: allowed, denied 30
    seconds later, allowed again after 60 seconds. *)
Lemma shouldExtractMemory_gate_witness :
  fst (gateRun 60 "42" [1700000000000; 1700000030000; 1700000060000] emptyKV)
  = [(1700000000000, true); (1700000030000, false); (1700000060000, true)]
  /\ spaced 60 (fst (gateRun 60 "42" [1700000000000; 1700000030000; 1700000060000] emptyKV)).
Proof.
  split; [reflexivity|].
  refine (proj1 (proj2 (proj2 (proj2 (proj2 (proj2 (proj2 (proj2 (proj2
            (shouldExtractMemory_gate 60 0 false "42" emptyKV)))))))))
            [1700000000000; 1700000030000; 1700000060000] _ _).
  - reflexivity.
  - repeat constructor; discriminate.
Defined.

(** C7 as it was stated fails twice.  With no record for the owner the
    gate still denies when the interval exceeds the current epoch time:
    the missing record counts as time 0, not as infinitely long ago.  And
    with [I = 60] a call one second after an allowed call is allowed again
    when its read of the store fails: two triggers in one window. *)
Lemma shouldExtractMemory_claim_fails :
  kv_get emptyKV 1700000000000 (extractKey "42") = None
  /\ shouldExtractMemory 2000000000 1700000000000 false "42" emptyKV = (false, emptyKV)
  /\ fst (shouldExtractMemory 60 1700000000000 false "42" emptyKV) = true
  /\ fst (shouldExtractMemory 60 1700000001000 true "42"
            (snd (shouldExtractMemory 60 1700000000000 false "42" emptyKV)))
     = true.
Proof. repeat split; reflexivity. Qed.

(* ================================================================== *)
(** * More on upsertMemory                                             *)
(* ================================================================== *)

Lemma layerToTable_inj : forall a b, layerToTable a = layerToTable b -> a = b.
Proof. intros [] []; simpl; intro H; try reflexivity; discriminate. Qed.

Lemma find_map_preserved : forall (p : MemoryDoc -> bool) (g : MemoryDoc -> MemoryDoc) l,
  (forall d, p (g d) = p d) ->
  find p (map g l) = option_map g (find p l).
Proof.
  intros p g l Hg. induction l as [|d l IH]; simpl; [reflexivity|].
  rewrite Hg. destruct (p d); [reflexivity | exact IH].
Qed.

Lemma find_app_none : forall (p : MemoryDoc -> bool) l l',
  find p l = None -> find p (l ++ l') = find p l'.
Proof.
  intros p l l'. induction l as [|d l IH]; simpl; [reflexivity|].
  destruct (p d); [discriminate | exact IH].
Qed.

(** X1.  Layers do not share documents: distinct layers have distinct
    tables, and on a store that only [upsertMemory] has written, a call
    for one layer leaves the collection of every other layer exactly as
    it was, whether the store takes the write or refuses it. *)
Theorem upsertMemory_layer_isolation : forall sch db now payload layer,
  reachable db ->
  layer <> up_layer payload ->
  layerToTable layer <> layerToTable (up_layer payload)
  /\ collection layer (snd (upsertMemory sch now payload db)) = collection layer db.
Proof.
  intros sch db now payload layer Hr Hneq.
  assert (Ht : layerToTable layer <> layerToTable (up_layer payload)).
  { intro H. apply Hneq. now apply layerToTable_inj. }
  split; [assumption|].
  assert (E : String.eqb (layerToTable (up_layer payload)) (layerToTable layer) = false).
  { apply String.eqb_neq. congruence. }
  unfold collection.
  destruct (db_queryFirst db (layerToTable (up_layer payload))
              (up_telegramUserId payload) (up_hash payload)) as [existing|] eqn:Hq.
  - destruct (reachable_invariants db Hr) as [_ Hi].
    destruct (upsertMemory_updated_in_place sch now payload db existing Hi Hq)
      as (pre & post & Hdocs & Hup & Hno).
    destruct (schema_updatedAt sch); [now rewrite (Hno eq_refl)|].
    rewrite (Hup eq_refl), Hdocs. simpl. rewrite !filter_app. simpl.
    apply find_some in Hq as [_ Hk]. unfold by_user_hash in Hk.
    apply andb_true_iff in Hk as [Hk _]. apply andb_true_iff in Hk as [Hk _].
    apply String.eqb_eq in Hk. rewrite Hk.
    now rewrite E.
  - rewrite upsertMemory_outcome, Hq.
    destruct (schema_createdAt sch), (schema_updatedAt sch); try reflexivity.
    simpl. rewrite filter_app. simpl. rewrite E. apply app_nil_r.
Qed.

Lemma upsertMemory_layer_isolation_witness :
  collection identities
    (snd (upsertMemory numberSchema 2000
            (mkUpsertPayload preferences "42" "-1001" "7" "Loves Coffee" "likes coffee"
               [] [] (hashMemory preferences (Utf16.ofString "Loves Coffee")))
            sampleDb))
  = [sampleDoc]
  /\ List.length
       (collection preferences
          (snd (upsertMemory numberSchema 2000
                  (mkUpsertPayload preferences "42" "-1001" "7" "Loves Coffee" "likes coffee"
                     [] [] (hashMemory preferences (Utf16.ofString "Loves Coffee")))
                  sampleDb)))
     = 1%nat.
Proof.
  split; [|reflexivity].
  refine (proj2 (upsertMemory_layer_isolation numberSchema sampleDb 2000 _ identities _ _)).
  - apply (reachable_upsert numberSchema 1000 samplePayload emptyDb reachable_empty).
  - discriminate.
Defined.

(** X2.  No call of [upsertMemory] removes a document or changes the
    identifier, table, owner, provenance, hash or creation time of one:
    the store afterwards holds a version of every document it held, in
    the same order, followed by at most one new document. *)
Theorem upsertMemory_keeps_documents : forall sch db now payload,
  exists kept added,
    documents (snd (upsertMemory sch now payload db)) = kept ++ added
    /\ Forall2 sameIdentity (documents db) kept
    /\ (added = []
        \/ added = [newDoc payload now (layerToTable (up_layer payload)) (nextId db)]).
Proof.
  intros sch db now payload.
  assert (Hsame : Forall2 sameIdentity (documents db) (documents db)).
  { induction (documents db) as [|d l IH]; constructor; [repeat split | exact IH]. }
  destruct (upsertMemory_store sch now payload db)
    as [-> | [(existing & _ & ->) | [_ ->]]].
  - exists (documents db), []. rewrite app_nil_r. auto.
  - exists (map (fun d => if Nat.eqb (doc_id d) (doc_id existing)
                          then patchFields payload now d else d) (documents db)), [].
    rewrite app_nil_r. split; [reflexivity|]. split; [|now left].
    clear Hsame.
    induction (documents db) as [|d l IH]; simpl; constructor; [|exact IH].
    destruct (Nat.eqb (doc_id d) (doc_id existing)); repeat split.
  - exists (documents db), [newDoc payload now (layerToTable (up_layer payload)) (nextId db)].
    split; [reflexivity|]. split; [assumption | now right].
Qed.

(** X3.  Read your write, when there was one.  A call of [upsertMemory]
    either returns, and then the index lookup under the payload's table,
    owner and hash finds a document that carries the payload's text,
    abstract, tags and embedding and whose [updatedAt] is the time of the
    call; or it throws the schema error and the store is what it was.  It
    returns on a store that takes numbers as time stamps, and it throws on
    the store of [schema.ts]. *)
Theorem upsertMemory_read_back : forall sch db now payload,
  let outcome := upsertMemory sch now payload db in
  let lookup := fun d =>
    db_queryFirst d (layerToTable (up_layer payload)) (up_telegramUserId payload)
      (up_hash payload) in
  (forall r, fst outcome = Ok r ->
     exists d,
       lookup (snd outcome) = Some d
       /\ doc_text d = up_text payload
       /\ doc_abstract d = up_abstract payload
       /\ doc_tags d = up_tags payload
       /\ doc_embedding d = up_embedding payload
       /\ doc_updatedAt d = now)
  /\ (forall e, fst outcome = Throw e -> e = SchemaValidationError /\ snd outcome = db)
  /\ (storeAccepts sch -> exists r, fst outcome = Ok r)
  /\ (sch = memorySchema -> outcome = (Throw SchemaValidationError, db)).
Proof.
  intros sch db now payload outcome lookup. subst outcome lookup.
  rewrite upsertMemory_outcome.
  destruct (db_queryFirst db _ _ _) as [existing|] eqn:Hq.
  - split; [|split; [|split]].
    + intros r Hr. destruct (schema_updatedAt sch); [discriminate|]. simpl.
      exists (patchFields payload now existing).
      split; [|repeat split].
      unfold db_queryFirst, storePatch in *. simpl.
      rewrite find_map_preserved.
      * rewrite Hq. simpl. now rewrite Nat.eqb_refl.
      * intro d. now destruct (Nat.eqb (doc_id d) (doc_id existing)).
    + intros e He. destruct (schema_updatedAt sch); [|discriminate].
      simpl in *. split; [congruence | reflexivity].
    + intros [_ ->]. now eexists.
    + intros ->. reflexivity.
  - split; [|split; [|split]].
    + intros r Hr.
      destruct (schema_createdAt sch), (schema_updatedAt sch); try discriminate. simpl.
      exists (newDoc payload now (layerToTable (up_layer payload)) (nextId db)).
      split; [|repeat split].
      unfold db_queryFirst, storeInsert in *. simpl.
      rewrite find_app_none by assumption. simpl.
      now rewrite by_user_hash_newDoc.
    + intros e He.
      destruct (schema_createdAt sch), (schema_updatedAt sch); try discriminate;
        simpl in *; (split; [congruence | reflexivity]).
    + intros [-> ->]. now eexists.
    + intros ->. reflexivity.
Qed.

(* ================================================================== *)
(** * More on extractMemories                                          *)
(* ================================================================== *)

(** X4.  Without the provider credential, [fetchEmbedding],
    [extractMemories] and [memoryContext] throw the configuration error
    before anything else happens: no request is sent, nothing is searched
    and nothing is written. *)
Theorem missing_api_key_stops_everything : forall env w,
  unset (OPENROUTER_API_KEY env) = true ->
  (forall text, fetchEmbedding env text w = (Throw "OPENROUTER_API_KEY is not set", w))
  /\ (forall payload,
        extractMemories env payload w = (Throw "OPENROUTER_API_KEY is not set", w))
  /\ (forall payload,
        memoryContext env payload w = (Throw "OPENROUTER_API_KEY is not set", w)).
Proof.
  intros env w Hkey. split; [|split].
  - intro text. unfold fetchEmbedding. now rewrite Hkey.
  - intro payload. unfold extractMemories. now rewrite Hkey.
  - intro payload. unfold memoryContext, bind, fetchEmbedding. now rewrite Hkey.
Qed.

Lemma missing_api_key_stops_everything_witness :
  extractMemories keylessEnv sampleExtraction sampleWorld
  = (Throw "OPENROUTER_API_KEY is not set", sampleWorld)
  /\ memoryContext keylessEnv sampleQuery sampleWorld
     = (Throw "OPENROUTER_API_KEY is not set", sampleWorld).
Proof.
  destruct (missing_api_key_stops_everything keylessEnv sampleWorld eq_refl)
    as (_ & He & Hm).
  split; [apply He | apply Hm].
Defined.

Lemma evolves_trans : forall a b c, evolves a b -> evolves b c -> evolves a c.
Proof.
  intros a b c Hab Hbc. induction Hbc; [assumption | now constructor].
Qed.

Lemma evolves_reachable : forall a b, reachable a -> evolves a b -> reachable b.
Proof.
  intros a b Ha Hab. induction Hab; [assumption | now constructor].
Qed.

Lemma extends_refl : forall w, extends w w.
Proof.
  intro w. split; [constructor | exists []; now rewrite app_nil_r].
Qed.

Lemma extends_trans : forall a b c, extends a b -> extends b c -> extends a c.
Proof.
  intros a b c [Hab (e1 & H1)] [Hbc (e2 & H2)]. split.
  - eapply evolves_trans; eassumption.
  - exists (e1 ++ e2). now rewrite H2, H1, app_assoc.
Qed.

Lemma extending_ret : forall A (a : A), extending (ret a).
Proof. intros A a w. apply extends_refl. Qed.

Lemma extending_throw : forall A e, extending (@throw A e).
Proof. intros A e w. apply extends_refl. Qed.

Lemma extending_bind : forall A B (m : M A) (f : A -> M B),
  extending m -> (forall a, extending (f a)) -> extending (bind m f).
Proof.
  intros A B m f Hm Hf w. unfold bind.
  specialize (Hm w). destruct (m w) as [[a|e] w1]; simpl in *; [|assumption].
  eapply extends_trans; [exact Hm | apply Hf].
Qed.

Lemma extending_fetch : forall A request (answer : list Event -> Result A),
  extending (fetch request answer).
Proof.
  intros A request answer w. unfold fetch. simpl.
  split; [constructor | now exists [request]].
Qed.

Lemma extending_fetchEmbedding : forall env text, extending (fetchEmbedding env text).
Proof.
  intros env text. unfold fetchEmbedding.
  destruct (unset (OPENROUTER_API_KEY env)); [apply extending_throw|].
  apply extending_bind; [apply extending_fetch|].
  intro response. destruct (negb (emb_ok response));
    [apply extending_throw | apply extending_ret].
Qed.

Lemma extending_runUpsert : forall env p, extending (runUpsert env p).
Proof.
  intros env p w. unfold runUpsert.
  destruct (mutationFailure env (trace w) p).
  - simpl. split; [constructor | now exists [RunUpsert p]].
  - destruct (upsertMemory (schema env) (Date_now env (trace w)) p (db w)) as [r db'] eqn:E.
    simpl. split; [|now exists [RunUpsert p]].
    replace db' with (snd (upsertMemory (schema env) (Date_now env (trace w)) p (db w)))
      by now rewrite E.
    constructor. constructor.
Qed.

Lemma extending_extractLoop : forall env payload items inserted,
  extending (extractLoop env payload items inserted).
Proof.
  intros env payload items. induction items as [|item items IH]; intro inserted; simpl.
  - apply extending_ret.
  - destruct (findLayer (item_layer item)); [|apply IH].
    apply extending_bind; [apply extending_fetchEmbedding|].
    intro embedding.
    destruct (embeddingInput item); [|apply extending_throw].
    destruct (item_text item), (item_abstract item); try apply extending_throw.
    apply extending_bind; [apply extending_runUpsert|].
    intros _. apply IH.
Qed.

Lemma extending_extractMemories : forall env payload,
  extending (extractMemories env payload).
Proof.
  intros env payload. unfold extractMemories.
  destruct (unset (OPENROUTER_API_KEY env)); [apply extending_throw|].
  apply extending_bind; [apply extending_fetch|].
  intro response. destruct (negb (chat_ok response)); [apply extending_throw|].
  destruct (responseContent response) as [content|]; [|apply extending_ret].
  destruct (Js.isEmpty content); [apply extending_ret|].
  destruct (JSON_parse env content) as [[|parsed]|];
    [apply extending_throw | apply extending_extractLoop | apply extending_throw].
Qed.

(** X6.  Whatever the providers answer and however the call ends, what
    [extractMemories] does to the store is a sequence of [upsertMemory]
    calls: a store that only [upsertMemory] has written stays one, so it
    still holds at most one document per table, owner and hash, and the
    trace of earlier events is only ever continued. *)
Theorem extractMemories_keeps_store_invariant : forall env payload w,
  reachable (db w) ->
  let w' := snd (extractMemories env payload w) in
  reachable (db w')
  /\ uniqueKeys (db w')
  /\ exists events, trace w' = trace w ++ events.
Proof.
  intros env payload w Hr w'.
  destruct (extending_extractMemories env payload w) as [Hev Htr].
  fold w' in Hev, Htr.
  assert (Hr' : reachable (db w')) by (eapply evolves_reachable; eassumption).
  split; [assumption|]. split; [|assumption].
  apply (reachable_invariants _ Hr').
Qed.

Lemma sampleStore_reachable : reachable sampleStore.
Proof.
  unfold sampleStore, sampleDb.
  apply reachable_upsert, reachable_upsert, reachable_upsert, reachable_empty.
Qed.

Lemma extractMemories_keeps_store_invariant_witness :
  uniqueKeys
    (db (snd (extractMemories (sampleEnv (chatAnswer true 200 (Some sampleContent)))
                sampleExtraction (mkWorld sampleStore [])))).
Proof.
  refine (proj1 (proj2 (extractMemories_keeps_store_invariant
                          (sampleEnv (chatAnswer true 200 (Some sampleContent)))
                          sampleExtraction (mkWorld sampleStore [])
                          sampleStore_reachable))).
Defined.

Lemma bind_assoc : forall A B C (m : M A) (f : A -> M B) (g : B -> M C) w,
  bind (bind m f) g w = bind m (fun a => bind (f a) g) w.
Proof.
  intros. unfold bind. destruct (m w) as [[a|e] w1]; reflexivity.
Qed.

Lemma bind_ext : forall A B (m : M A) (f g : A -> M B) w,
  (forall a w', f a w' = g a w') -> bind m f w = bind m g w.
Proof.
  intros A B m f g w H. unfold bind. destruct (m w) as [[a|e] w1]; [apply H | reflexivity].
Qed.

(** The loop over a concatenation is the loop over the first part
    followed, if that went well, by the loop over the second. *)
Lemma extractLoop_app : forall env payload pre rest inserted w,
  extractLoop env payload (pre ++ rest) inserted w
  = bind (extractLoop env payload pre inserted)
         (fun n => extractLoop env payload rest n) w.
Proof.
  intros env payload pre rest. induction pre as [|item pre IH]; intros inserted w; simpl.
  - reflexivity.
  - destruct (findLayer (item_layer item)); [|apply IH].
    rewrite bind_assoc. apply bind_ext. intros embedding w1.
    destruct (embeddingInput item); [|reflexivity].
    destruct (item_text item), (item_abstract item); try reflexivity.
    rewrite bind_assoc. apply bind_ext. intros _ w2. apply IH.
Qed.

Lemma countKey_upsertMemory_mono : forall sch now payload d t o h,
  (countKey d t o h <= countKey (snd (upsertMemory sch now payload d)) t o h)%nat.
Proof.
  intros sch now payload d t o h.
  destruct (upsertMemory_store sch now payload d)
    as [-> | [(existing & _ & ->) | [_ ->]]].
  - lia.
  - now rewrite countKey_patch.
  - rewrite countKey_insert. lia.
Qed.

Lemma countKey_evolves_mono : forall d d' t o h,
  evolves d d' -> (countKey d t o h <= countKey d' t o h)%nat.
Proof.
  intros d d' t o h H. induction H as [|sch now payload d' _ IH]; [lia|].
  pose proof (countKey_upsertMemory_mono sch now payload d' t o h). lia.
Qed.

(** On a store that accepts the write the call returns, and a document
    stands under the payload's key afterwards. *)
Lemma upsertMemory_accepted : forall sch now payload d,
  storeAccepts sch ->
  (exists r, fst (upsertMemory sch now payload d) = Ok r)
  /\ (1 <= countKey (snd (upsertMemory sch now payload d))
            (layerToTable (up_layer payload)) (up_telegramUserId payload)
            (up_hash payload))%nat.
Proof.
  intros sch now payload d [Hc Hu]. rewrite upsertMemory_outcome, Hc, Hu.
  destruct (db_queryFirst d _ _ _) as [existing|] eqn:Hq; simpl.
  - split; [now eexists|]. rewrite countKey_patch.
    destruct (countKey d _ _ _) eqn:Hcnt; [|lia].
    apply queryFirst_none_countKey in Hcnt. congruence.
  - split; [now eexists|]. rewrite countKey_insert, by_user_hash_newDoc. lia.
Qed.

Lemma upsertMemory_length : forall sch now payload d,
  (List.length (documents (snd (upsertMemory sch now payload d)))
   <= S (List.length (documents d)))%nat.
Proof.
  intros sch now payload d.
  destruct (upsertMemory_store sch now payload d)
    as [-> | [(existing & _ & ->) | [_ ->]]]; simpl.
  - lia.
  - rewrite length_map. lia.
  - rewrite length_app. simpl. lia.
Qed.

Lemma upsertMemory_present_length : forall sch now payload d,
  (1 <= countKey d (layerToTable (up_layer payload)) (up_telegramUserId payload)
          (up_hash payload))%nat ->
  List.length (documents (snd (upsertMemory sch now payload d))) = List.length (documents d).
Proof.
  intros sch now payload d Hc.
  destruct (upsertMemory_store sch now payload d)
    as [-> | [(existing & _ & ->) | [Hq ->]]]; simpl.
  - reflexivity.
  - apply length_map.
  - apply queryFirst_none_countKey in Hq. lia.
Qed.

Lemma itemPresent_evolves : forall payload d d' item,
  evolves d d' -> itemPresent payload d item -> itemPresent payload d' item.
Proof.
  intros payload d d' item Hev (layer & input & Hl & Hi & Hc).
  exists layer, input. split; [assumption|]. split; [assumption|].
  pose proof (countKey_evolves_mono d d' (layerToTable layer) (ex_telegramUserId payload)
                (hashMemory layer (Utf16.ofString input)) Hev). lia.
Qed.

Lemma embeddingInput_both : forall item text abstract,
  item_text item = Some text -> item_abstract item = Some abstract ->
  embeddingInput item = Some (if Js.isEmpty text then abstract else text).
Proof.
  intros item text abstract Ht Ha. unfold embeddingInput, orUndefined.
  rewrite Ht, Ha. now destruct (Js.isEmpty text).
Qed.


Lemma accepted_cons : forall item items,
  accepted (item :: items)
  = match findLayer (item_layer item) with
    | Some _ => item :: accepted items
    | None => accepted items
    end.
Proof.
  intros item items. unfold accepted, layers_includes. simpl.
  now destruct (findLayer (item_layer item)).
Qed.

(** The loop on items that run through: it returns the count of the
    known-layer items, leaves exactly the events of the run, and every
    known-layer item stands in the store afterwards; it adds at most one
    document per known-layer item, and none when they all stood there
    already. *)
Lemma extractLoop_run : forall env payload,
  unset (OPENROUTER_API_KEY env) = false ->
  forall items inserted w events,
    itemsRun env payload (trace w) (accepted items) events ->
    exists d',
      extractLoop env payload items inserted w
      = (Ok (inserted + Z.of_nat (List.length (accepted items))),
         mkWorld d' (trace w ++ events))
      /\ evolves (db w) d'
      /\ Forall (itemPresent payload d') (accepted items)
      /\ (List.length (documents d')
          <= List.length (documents (db w)) + List.length (accepted items))%nat
      /\ (Forall (itemPresent payload (db w)) (accepted items) ->
          List.length (documents d') = List.length (documents (db w))).
Proof.
  intros env payload Hkey items.
  induction items as [|item items IH]; intros inserted w events Hrun.
  - inversion Hrun; subst. exists (db w). simpl.
    rewrite Z.add_0_r, app_nil_r. destruct w. simpl.
    split; [reflexivity|]. split; [apply evolves_refl|]. split; [constructor|].
    split; [lia | reflexivity].
  - rewrite accepted_cons in *. simpl extractLoop.
    destruct (findLayer (item_layer item)) as [layer|] eqn:Hl; [|now apply IH].
    inversion Hrun as [|tr it its events' layer' text abstract response
                        Hl' Htext Habs input request upsert Hemb Hok Hmut Hacc Hrest];
      subst.
    assert (layer' = layer) by congruence. subst layer'.
    rewrite (embeddingInput_both item text abstract Htext Habs). fold input.
    unfold bind at 1.
    rewrite (fetchEmbedding_ok env Hkey (Some input) w response Hemb Hok).
    rewrite Htext, Habs.
    pose (w1 := mkWorld (db w) (trace w ++ [FetchEmbedding request])).
    unfold bind at 1.
    change (itemUpsertPayload payload layer input text abstract (item_tags item)
              (firstEmbedding response)) with upsert.
    match goal with
    | |- context [runUpsert env upsert ?x] => change x with w1
    end.
    rewrite (runUpsert_ok env upsert w1 Hmut).
    destruct (upsertMemory_accepted (schema env) (Date_now env (trace w1)) upsert (db w1) Hacc)
      as [(r & Hr) Hown].
    rewrite Hr.
    set (d1 := snd (upsertMemory (schema env) (Date_now env (trace w1)) upsert (db w1))) in *.
    set (w2 := mkWorld d1 (trace w1 ++ [RunUpsert upsert])).
    assert (Htrace : trace w2 = trace w ++ [FetchEmbedding request; RunUpsert upsert]).
    { unfold w2, w1. simpl. now rewrite <- app_assoc. }
    rewrite <- Htrace in Hrest.
    destruct (IH (inserted + 1) w2 events' Hrest) as (d' & Hloop & Hev & Hpresent & Hle & Hsame).
    exists d'.
    assert (Hstep : evolves (db w) d1) by (unfold d1; constructor; constructor).
    split.
    { rewrite Hloop, Htrace. simpl List.length.
      f_equal; [f_equal; lia|]. f_equal. now rewrite <- app_assoc. }
    split; [eapply evolves_trans; eassumption|].
    split.
    { constructor; [|assumption].
      apply (itemPresent_evolves payload d1 d' item Hev).
      exists layer, input. split; [assumption|].
      split; [apply (embeddingInput_both item text abstract Htext Habs)|].
      exact Hown. }
    split.
    { pose proof (upsertMemory_length (schema env) (Date_now env (trace w1)) upsert (db w1)).
      fold d1 in H. simpl in *. lia. }
    intro Hall. apply Forall_cons_iff in Hall as [Hhead Hrest'].
    rewrite Hsame.
    + unfold w2, d1. simpl. apply upsertMemory_present_length.
      destruct Hhead as (layer2 & input2 & Hl2 & Hi2 & Hc).
      assert (layer2 = layer) by congruence. subst layer2.
      rewrite (embeddingInput_both item text abstract Htext Habs) in Hi2.
      injection Hi2 as <-. exact Hc.
    + eapply Forall_impl; [|exact Hrest'].
      intros it Hit. eapply itemPresent_evolves; eassumption.
Qed.

Lemma itemsSucceed_tail : forall env payload item items,
  itemsSucceed env payload (item :: items) -> itemsSucceed env payload items.
Proof.
  intros env payload item items (He & Hm & Hs).
  unfold itemsSucceed in *. rewrite accepted_cons in *.
  destruct (findLayer (item_layer item)); repeat split; intros;
    try (eapply He; simpl; eauto); try (eapply Hm; simpl; eauto);
    try (eapply Hs; simpl; eauto).
Qed.

(** Where nothing fails on the known-layer items, whenever they are
    tried, they run through from any trace. *)
Lemma itemsSucceed_run : forall env payload items tr,
  itemsSucceed env payload items ->
  exists events, itemsRun env payload tr (accepted items) events.
Proof.
  intros env payload items. induction items as [|item items IH]; intros tr Hs.
  - exists []. constructor.
  - pose proof (itemsSucceed_tail _ _ _ _ Hs) as Hs'.
    rewrite accepted_cons.
    destruct (findLayer (item_layer item)) as [layer|] eqn:Hl; [|now apply IH].
    destruct Hs as (He & Hm & Hacc).
    rewrite accepted_cons, Hl in He, Hm, Hacc.
    destruct (He tr item (or_introl eq_refl)) as (text & abstract & response & Ht & Ha & Hr & Hok).
    set (input := if Js.isEmpty text then abstract else text).
    set (request := embeddingBody (Some input) (embeddingModel env)).
    set (upsert := mkUpsertPayload layer
                     (ex_telegramUserId payload) (ex_sourceChatId payload)
                     (ex_sourceMessageId payload)
                     text abstract (item_tags item)
                     (firstEmbedding response) (hashMemory layer (Utf16.ofString input))).
    destruct (IH (tr ++ [FetchEmbedding request; RunUpsert upsert]) Hs') as (events & Hrun).
    exists (FetchEmbedding request :: RunUpsert upsert :: events).
    eapply itemsRun_cons; try eassumption.
    + apply (Hm _ item layer text abstract (firstEmbedding response) (or_introl eq_refl) Ht Ha).
    + apply (Hacc item (or_introl eq_refl)).
Qed.


Lemma sampleEnv_itemsSucceed : forall answer payload,
  itemsSucceed (sampleEnv answer) payload
    [mkExtractedItem "identities" (Some "A"%string) (Some "A"%string) [];
     mkExtractedItem "bogus" (Some "B"%string) (Some "B"%string) []].
Proof.
  intros answer payload. split; [|split].
  - intros tr item [<-|[]]. do 3 eexists. repeat split.
  - reflexivity.
  - intros item _. split; reflexivity.
Defined.


(** What the sample run does and leaves in the store. *)
Example extractMemories_filters_layers_sample :
  extractMemories (sampleEnv (chatAnswer true 200 (Some sampleContent)))
    sampleExtraction sampleWorld
  = (Ok 1,
     mkWorld
       (mkDb [mkMemoryDoc 0%nat "memoryIdentities" "42" "-1001" "7" "A" "A" []
                [1 # 2; 1 # 3] "4159965763" 1700000000002 1700000000002] 1%nat)
       [FetchChat sampleChatRequest;
        FetchEmbedding (mkEmbeddingRequest "A" "text-embedding-3-large");
        RunUpsert (mkUpsertPayload identities "42" "-1001" "7" "A" "A" []
                     [1 # 2; 1 # 3] "4159965763")]).
Proof. vm_compute. reflexivity. Qed.

(** The same run against the store of the repository: the first write is
    refused and the call throws with nothing stored. *)
Example extractMemories_repository_sample :
  extractMemories (repositoryEnv (chatAnswer true 200 (Some sampleContent)))
    sampleExtraction sampleWorld
  = (Throw SchemaValidationError,
     mkWorld emptyDb
       [FetchChat sampleChatRequest;
        FetchEmbedding (mkEmbeddingRequest "A" "text-embedding-3-large");
        RunUpsert (mkUpsertPayload identities "42" "-1001" "7" "A" "A" []
                     [1 # 2; 1 # 3] "4159965763")]).
Proof. vm_compute. reflexivity. Qed.


(** X5.  A failure on one item is not contained: when the known-layer
    items before an item have run through and the embedding provider
    answers the request for that item with a non-success status,
    [extractMemories] throws that error at once.  The store is the one the
    items before have left: each of them stands in it, and nothing has
    been written for the failing item or for any later one, the refused
    request being the last event. *)
Theorem extractMemories_item_failure_aborts :
  forall env payload w response content parsed pre item post layer events failed,
    unset (OPENROUTER_API_KEY env) = false ->
    chatCompletions env (trace w) (chatRequest env payload) = Ok response ->
    chat_ok response = true ->
    responseContent response = Some content ->
    content <> ""%string ->
    JSON_parse env content = Some (ParsedObject parsed) ->
    parsed_items parsed = Some (pre ++ item :: post) ->
    let tr := trace w ++ [FetchChat (chatRequest env payload)] in
    let request := embeddingBody (embeddingInput item) (embeddingModel env) in
    itemsRun env payload tr (accepted pre) events ->
    findLayer (item_layer item) = Some layer ->
    embeddings env (tr ++ events) request = Ok failed ->
    emb_ok failed = false ->
    exists d',
      extractMemories env payload w
      = (Throw ("OpenRouter embeddings failed: " ++ Js.toString (emb_status failed))%string,
         mkWorld d' (tr ++ events ++ [FetchEmbedding request]))
      /\ extractLoop env payload pre 0 (mkWorld (db w) tr)
         = (Ok (Z.of_nat (List.length (accepted pre))), mkWorld d' (tr ++ events))
      /\ Forall (itemPresent payload d') (accepted pre)
      /\ (List.length (documents d')
          <= List.length (documents (db w)) + List.length (accepted pre))%nat
      /\ List.length (upsertsOf (events ++ [FetchEmbedding request]))
         = List.length (accepted pre).
Proof.
  intros env payload w response content parsed pre item post layer events failed
         Hkey Hresp Hok Hcontent Hne Hparse Hitems tr request Hpre Hlayer Hemb Hbad.
  rewrite extractMemories_after_fetch by assumption.
  simpl. rewrite Hresp, Hok, Hcontent. simpl.
  destruct content as [|c content]; [congruence|]. simpl. rewrite Hparse, Hitems.
  fold tr. rewrite extractLoop_app.
  destruct (extractLoop_run env payload Hkey pre 0 (mkWorld (db w) tr) events Hpre)
    as (d' & Hloop & _ & Hpresent & Hle & _).
  simpl in Hloop, Hle.
  exists d'. unfold bind at 1. rewrite Hloop.
  split; [|split; [reflexivity|split; [exact Hpresent|split; [exact Hle|]]]].
  - simpl extractLoop. rewrite Hlayer.
    unfold bind at 1.
    rewrite (fetchEmbedding_failed env Hkey (embeddingInput item)
               (mkWorld d' (tr ++ events)) failed Hemb Hbad).
    simpl. fold request. now rewrite <- app_assoc.
  - rewrite upsertsOf_app. simpl. rewrite app_nil_r.
    clear - Hpre. induction Hpre; simpl; [reflexivity | now f_equal].
Qed.

Lemma extractMemories_item_failure_aborts_witness :
  exists d',
    extractMemories flakyEnv sampleExtraction sampleWorld
    = (Throw "OpenRouter embeddings failed: 503"%string,
       mkWorld d'
         (([] ++ [FetchChat (chatRequest flakyEnv sampleExtraction)])
          ++ [FetchEmbedding (mkEmbeddingRequest "A" "text-embedding-3-large");
              RunUpsert (mkUpsertPayload identities "42" "-1001" "7" "A" "A" []
                           [1 # 2] "4159965763")]
          ++ [FetchEmbedding (mkEmbeddingRequest "B" "text-embedding-3-large")]))
    /\ extractLoop flakyEnv sampleExtraction
         [mkExtractedItem "identities" (Some "A"%string) (Some "A"%string) []] 0
         (mkWorld emptyDb ([] ++ [FetchChat (chatRequest flakyEnv sampleExtraction)]))
       = (Ok 1,
          mkWorld d'
            (([] ++ [FetchChat (chatRequest flakyEnv sampleExtraction)])
             ++ [FetchEmbedding (mkEmbeddingRequest "A" "text-embedding-3-large");
                 RunUpsert (mkUpsertPayload identities "42" "-1001" "7" "A" "A" []
                              [1 # 2] "4159965763")]))
    /\ Forall (itemPresent sampleExtraction d')
         [mkExtractedItem "identities" (Some "A"%string) (Some "A"%string) []]
    /\ (List.length (documents d') <= 0 + 1)%nat
    /\ List.length
         (upsertsOf
            ([FetchEmbedding (mkEmbeddingRequest "A" "text-embedding-3-large");
              RunUpsert (mkUpsertPayload identities "42" "-1001" "7" "A" "A" []
                           [1 # 2] "4159965763")]
             ++ [FetchEmbedding (mkEmbeddingRequest "B" "text-embedding-3-large")]))
       = 1%nat.
Proof.
  refine (extractMemories_item_failure_aborts flakyEnv sampleExtraction sampleWorld
            (chatAnswer true 200 (Some "{...}")) "{...}"
            (mkExtractionResponse (Some twoItems))
            [mkExtractedItem "identities" (Some "A"%string) (Some "A"%string) []]
            (mkExtractedItem "preferences" (Some "B"%string) (Some "B"%string) []) []
            preferences
            [FetchEmbedding (mkEmbeddingRequest "A" "text-embedding-3-large");
             RunUpsert (mkUpsertPayload identities "42" "-1001" "7" "A" "A" []
                          [1 # 2] "4159965763")]
            (mkEmbeddingResponse false 503 [])
            eq_refl eq_refl eq_refl eq_refl _ eq_refl eq_refl _ eq_refl eq_refl eq_refl).
  - discriminate.
  - refine (itemsRun_cons flakyEnv sampleExtraction
              ([] ++ [FetchChat (chatRequest flakyEnv sampleExtraction)])
              (mkExtractedItem "identities" (Some "A"%string) (Some "A"%string) [])
              [] [] identities "A" "A"
              (mkEmbeddingResponse true 200 [mkEmbeddingDatum [1 # 2] 0])
              eq_refl eq_refl eq_refl eq_refl eq_refl eq_refl (conj eq_refl eq_refl)
              (itemsRun_nil _ _ _)).
Defined.

(** What the failing sample run leaves in the store: the first item. *)
Example extractMemories_item_failure_sample :
  map doc_text (documents (db (snd (extractMemories flakyEnv sampleExtraction sampleWorld))))
  = ["A"%string].
Proof. vm_compute. reflexivity. Qed.

(** X7.  Extracting the same response a second time adds no document:
    when the provider gives the same answer again and nothing fails, the
    second run reports the same [inserted] count as the first, every
    upsert of it being an update, and the store has as many documents as
    after the first run. *)
Theorem extractMemories_rerun_adds_nothing :
  forall env payload w response content parsed,
    unset (OPENROUTER_API_KEY env) = false ->
    (forall tr, chatCompletions env tr (chatRequest env payload) = Ok response) ->
    chat_ok response = true ->
    responseContent response = Some content ->
    content <> ""%string ->
    JSON_parse env content = Some (ParsedObject parsed) ->
    let items := match parsed_items parsed with Some items => items | None => [] end in
    itemsSucceed env payload items ->
    let w1 := snd (extractMemories env payload w) in
    let w2 := snd (extractMemories env payload w1) in
    fst (extractMemories env payload w) = Ok (Z.of_nat (List.length (accepted items)))
    /\ fst (extractMemories env payload w1) = Ok (Z.of_nat (List.length (accepted items)))
    /\ List.length (documents (db w2)) = List.length (documents (db w1)).
Proof.
  intros env payload w response content parsed Hkey Hresp Hok Hcontent Hne Hparse
         items Hs w1 w2.
  assert (Hrun : forall w0,
             extractMemories env payload w0
             = extractLoop env payload items 0
                 (mkWorld (db w0) (trace w0 ++ [FetchChat (chatRequest env payload)]))).
  { intro w0. rewrite extractMemories_after_fetch by assumption.
    simpl. rewrite Hresp, Hok, Hcontent. simpl.
    destruct content as [|c content]; [congruence|]. simpl. now rewrite Hparse. }
  subst w2 w1. rewrite !Hrun.
  set (wa := mkWorld (db w) (trace w ++ [FetchChat (chatRequest env payload)])).
  destruct (itemsSucceed_run env payload items (trace wa) Hs) as (events1 & Hrun1).
  destruct (extractLoop_run env payload Hkey items 0 wa events1 Hrun1)
    as (d1 & Hloop1 & _ & Hpresent & _ & _).
  rewrite Hloop1. cbn [fst snd db trace].
  match goal with
  | |- context [extractLoop env payload items 0 ?x] => set (wb := x)
  end.
  destruct (itemsSucceed_run env payload items (trace wb) Hs) as (events2 & Hrun2).
  destruct (extractLoop_run env payload Hkey items 0 wb events2 Hrun2)
    as (d2 & Hloop2 & _ & _ & _ & Hsame).
  rewrite Hloop2. simpl.
  split; [reflexivity|]. split; [reflexivity|].
  now apply Hsame.
Qed.

Lemma extractMemories_rerun_adds_nothing_witness :
  fst (extractMemories (sampleEnv (chatAnswer true 200 (Some sampleContent)))
         sampleExtraction sampleWorld) = Ok 1
  /\ fst (extractMemories (sampleEnv (chatAnswer true 200 (Some sampleContent)))
           sampleExtraction
           (snd (extractMemories (sampleEnv (chatAnswer true 200 (Some sampleContent)))
                   sampleExtraction sampleWorld))) = Ok 1
  /\ List.length
       (documents
          (db (snd (extractMemories (sampleEnv (chatAnswer true 200 (Some sampleContent)))
                      sampleExtraction
                      (snd (extractMemories
                              (sampleEnv (chatAnswer true 200 (Some sampleContent)))
                              sampleExtraction sampleWorld))))))
     = List.length
         (documents
            (db (snd (extractMemories (sampleEnv (chatAnswer true 200 (Some sampleContent)))
                        sampleExtraction sampleWorld)))).
Proof.
  refine (extractMemories_rerun_adds_nothing
            (sampleEnv (chatAnswer true 200 (Some sampleContent)))
            sampleExtraction sampleWorld
            (chatAnswer true 200 (Some sampleContent)) sampleContent sampleParsed
            eq_refl (fun _ => eq_refl) eq_refl eq_refl _ eq_refl
            (sampleEnv_itemsSucceed _ _)).
  discriminate.
Defined.

(* ================================================================== *)
(** * More on memoryContext                                            *)
(* ================================================================== *)

Lemma readOnly_ret : forall A (a : A), readOnly (ret a).
Proof.
  intros A a w. split; [reflexivity|]. exists []. now rewrite app_nil_r.
Qed.

Lemma readOnly_throw : forall A e, readOnly (@throw A e).
Proof.
  intros A e w. split; [reflexivity|]. exists []. now rewrite app_nil_r.
Qed.

Lemma readOnly_bind : forall A B (m : M A) (f : A -> M B),
  readOnly m -> (forall a, readOnly (f a)) -> readOnly (bind m f).
Proof.
  intros A B m f Hm Hf w. unfold bind.
  specialize (Hm w). destruct (m w) as [[a|e] w1]; simpl in *; [|assumption].
  destruct Hm as [Hdb (e1 & Ht1 & Hu1)].
  destruct (Hf a w1) as [Hdb2 (e2 & Ht2 & Hu2)].
  split; [congruence|].
  exists (e1 ++ e2). split.
  - now rewrite Ht2, Ht1, app_assoc.
  - now rewrite upsertsOf_app, Hu1, Hu2.
Qed.

Lemma readOnly_fetchEmbedding : forall env text, readOnly (fetchEmbedding env text).
Proof.
  intros env text. unfold fetchEmbedding.
  destruct (unset (OPENROUTER_API_KEY env)); [apply readOnly_throw|].
  apply readOnly_bind.
  - intro w. unfold fetch. simpl. split; [reflexivity|]. eexists. split; reflexivity.
  - intro response. destruct (negb (emb_ok response));
      [apply readOnly_throw | apply readOnly_ret].
Qed.

Lemma readOnly_startSearch : forall payload queryEmbedding layer,
  readOnly (startSearch payload queryEmbedding layer).
Proof.
  intros payload queryEmbedding layer w. unfold startSearch, emit. simpl.
  split; [reflexivity|]. eexists. split; reflexivity.
Qed.

Lemma readOnly_awaitSearch : forall env payload queryEmbedding layer,
  readOnly (awaitSearch env payload queryEmbedding layer).
Proof.
  intros env payload queryEmbedding layer w. unfold awaitSearch.
  destruct (vectorSearch env (db w) _ _ _ _); simpl;
    (split; [reflexivity|]; exists []; now rewrite app_nil_r).
Qed.

Lemma readOnly_mapM : forall A B (f : A -> M B) l,
  (forall a, readOnly (f a)) -> readOnly (mapM f l).
Proof.
  intros A B f l Hf. induction l as [|a l IH]; simpl.
  - apply readOnly_ret.
  - apply readOnly_bind; [apply Hf|]. intro b.
    apply readOnly_bind; [apply IH|]. intro bs. apply readOnly_ret.
Qed.

(** X8.  [memoryContext] only reads: however it ends, with items or with
    an error of a provider or of the index, the store is what it was and
    no mutation has been run. *)
Theorem memoryContext_read_only : forall env payload w,
  db (snd (memoryContext env payload w)) = db w
  /\ exists events,
       trace (snd (memoryContext env payload w)) = trace w ++ events
       /\ upsertsOf events = [].
Proof.
  intros env payload. change (readOnly (memoryContext env payload)).
  unfold memoryContext.
  apply readOnly_bind; [apply readOnly_fetchEmbedding|]. intro queryEmbedding.
  apply readOnly_bind;
    [apply readOnly_mapM; intro layer; apply readOnly_startSearch|].
  intros _.
  apply readOnly_bind; [|intro results; apply readOnly_ret].
  apply readOnly_mapM. intro layer. apply readOnly_awaitSearch.
Qed.

(** X9.  When the embedding of the query fails, by a rejected request or
    by a non-success status, [memoryContext] throws without searching any
    layer: the request to the embedding provider is the only event. *)
Theorem memoryContext_embedding_failure : forall env payload w,
  unset (OPENROUTER_API_KEY env) = false ->
  let request := mkEmbeddingRequest (cx_query payload) (embeddingModel env) in
  let w1 := mkWorld (db w) (trace w ++ [FetchEmbedding request]) in
  (forall e, embeddings env (trace w) request = Throw e ->
     memoryContext env payload w = (Throw e, w1))
  /\ (forall response,
        embeddings env (trace w) request = Ok response -> emb_ok response = false ->
        memoryContext env payload w
        = (Throw ("OpenRouter embeddings failed: " ++ Js.toString (emb_status response))%string,
           w1)).
Proof.
  intros env payload w Hkey request w1. subst request w1.
  unfold mkEmbeddingRequest.
  split.
  - intros e He.
    unfold memoryContext, fetchEmbedding. rewrite Hkey.
    unfold bind, fetch. cbv beta zeta. fold (embeddingModel env). now rewrite He.
  - intros response Hresp Hbad.
    unfold memoryContext, fetchEmbedding. rewrite Hkey.
    unfold bind, fetch. cbv beta zeta. fold (embeddingModel env). now rewrite Hresp, Hbad.
Qed.

Lemma memoryContext_embedding_failure_witness :
  memoryContext flakyEnv (mkContextPayload "42" "B") (mkWorld sampleStore [])
  = (Throw "OpenRouter embeddings failed: 503",
     mkWorld sampleStore [FetchEmbedding (mkEmbeddingRequest "B" "text-embedding-3-large")]).
Proof.
  exact (proj2 (memoryContext_embedding_failure flakyEnv (mkContextPayload "42" "B")
                  (mkWorld sampleStore []) eq_refl)
           (mkEmbeddingResponse false 503 []) eq_refl eq_refl).
Defined.

Lemma mapM_awaitSearch_failure : forall env payload queryEmbedding failing e ls w,
  In failing ls ->
  vectorSearch env (db w) (layerToTable failing) queryEmbedding perLayerLimit
               (cx_telegramUserId payload) = Throw e ->
  exists e', fst (mapM (awaitSearch env payload queryEmbedding) ls w) = Throw e'.
Proof.
  intros env payload queryEmbedding failing e ls.
  induction ls as [|layer ls IH]; intros w Hin Hfail; [destruct Hin|].
  simpl. unfold bind at 1. unfold awaitSearch at 1.
  destruct (vectorSearch env (db w) (layerToTable layer) queryEmbedding perLayerLimit
              (cx_telegramUserId payload)) as [matches|e1] eqn:Hrun;
    [|now exists e1].
  destruct Hin as [->|Hin]; [congruence|].
  destruct (IH w Hin Hfail) as (e' & He').
  unfold bind at 1.
  destruct (mapM (awaitSearch env payload queryEmbedding) ls w) as [[results|e2] w2];
    simpl in He'; [discriminate|]. now exists e2.
Qed.

(** X10.  Retrieval is all or nothing across layers: when the embedding
    succeeds but the search of any one layer fails, [memoryContext] throws
    and returns no items, not even those of the layers that answered. *)
Theorem memoryContext_search_failure : forall env payload w response failing e,
  unset (OPENROUTER_API_KEY env) = false ->
  embeddings env (trace w) (mkEmbeddingRequest (cx_query payload) (embeddingModel env))
  = Ok response ->
  emb_ok response = true ->
  vectorSearch env (db w) (layerToTable failing)
    match emb_data response with d :: _ => datum_embedding d | [] => [] end
    perLayerLimit (cx_telegramUserId payload) = Throw e ->
  exists e', fst (memoryContext env payload w) = Throw e'.
Proof.
  intros env payload w response failing e Hkey Hresp Hok Hfail.
  unfold memoryContext. unfold bind at 1.
  rewrite (fetchEmbedding_ok env Hkey _ _ _ Hresp Hok).
  assert (Hin : In failing layers) by (destruct failing; simpl; tauto).
  unfold bind at 1. rewrite mapM_startSearch.
  unfold bind at 1.
  match goal with
  | |- context [mapM (awaitSearch env payload ?q) layers ?w2] =>
      destruct (mapM_awaitSearch_failure env payload q failing e layers w2 Hin Hfail)
        as (e' & He')
  end.
  destruct (mapM _ layers _) as [[results|e2] w2]; simpl in He'; [discriminate|].
  now exists e2.
Qed.

Lemma memoryContext_search_failure_witness :
  exists e', fst (memoryContext brokenIndexEnv sampleQuery (mkWorld sampleStore [])) = Throw e'.
Proof.
  exact (memoryContext_search_failure brokenIndexEnv sampleQuery (mkWorld sampleStore [])
           (mkEmbeddingResponse true 200 [mkEmbeddingDatum [1 # 2; 1 # 3] 0])
           contexts "index unavailable" eq_refl eq_refl eq_refl eq_refl).
Defined.

Lemma mapIndexed_scores : forall (layer : MemoryLayer) (matches : list VectorMatch)
    (records : list MemoryDoc) (index : nat),
  (index + List.length records <= List.length matches)%nat ->
  map snd
    (mapIndexed
       (fun record i =>
          (layer, record,
           match nth_error matches i with
           | Some m => match_score m
           | None => 0%Q
           end))
       index records)
  = firstn (List.length records) (skipn index (map match_score matches)).
Proof.
  intros layer matches records. induction records as [|r records IH]; intros index Hlen.
  - reflexivity.
  - simpl in *. rewrite IH by lia.
    destruct (nth_error matches index) as [m|] eqn:Hn.
    + assert (Hs : skipn index (map match_score matches)
                   = match_score m :: skipn (S index) (map match_score matches)).
      { clear - Hn. revert index Hn.
        induction matches as [|m0 matches IHm]; intros [|index] Hn; simpl in *;
          try discriminate.
        - now injection Hn as ->.
        - now apply IHm. }
      now rewrite Hs.
    + apply nth_error_None in Hn. lia.
Qed.

Lemma mapIndexed_records : forall (layer : MemoryLayer) (score : nat -> Q)
    (records : list MemoryDoc) (index : nat),
  map (fun h => snd (fst h))
    (mapIndexed (fun record i => (layer, record, score i)) index records)
  = records.
Proof.
  intros layer score records. induction records as [|r records IH]; intro index; simpl.
  - reflexivity.
  - now rewrite IH.
Qed.

Lemma filterBoolean_all_present : forall (d : Db) (matches : list VectorMatch),
  Forall (fun m => db_get d (match_id m) <> None) matches ->
  List.length (filterBoolean (map (fun m => db_get d (match_id m)) matches))
  = List.length matches.
Proof.
  intros d matches H. induction H as [|m matches Hm _ IH]; simpl; [reflexivity|].
  destruct (db_get d (match_id m)); [simpl; now rewrite IH | congruence].
Qed.

(** X11.  Scores go by position: the records a layer contributes are the
    documents behind the hits that still exist, in the order of the hits,
    and the k-th of them carries the score of the k-th hit.  So when every
    hit's document exists each record has its own hit's score, and when a
    document is gone the records after it carry the scores of earlier
    hits. *)
Theorem layerHits_scores_by_position : forall d layer matches,
  let hits := layerHits d layer matches in
  map (fun h => snd (fst h)) hits
  = filterBoolean (map (fun m => db_get d (match_id m)) matches)
  /\ map snd hits = firstn (List.length hits) (map match_score matches)
  /\ (Forall (fun m => db_get d (match_id m) <> None) matches ->
      map snd hits = map match_score matches).
Proof.
  intros d layer matches hits. subst hits. unfold layerHits.
  set (records := filterBoolean (map (fun m => db_get d (match_id m)) matches)).
  assert (Hlen : (List.length records <= List.length matches)%nat).
  { subst records.
    pose proof (filterBoolean_length _ (map (fun m => db_get d (match_id m)) matches)).
    now rewrite length_map in *. }
  split; [apply mapIndexed_records|].
  rewrite mapIndexed_scores by (simpl; lia).
  rewrite mapIndexed_length. simpl skipn.
  split; [reflexivity|].
  intro Hall. subst records. rewrite filterBoolean_all_present by assumption.
  rewrite <- (length_map match_score matches). apply firstn_all.
Qed.

(** A stale first hit: the two documents found carry the scores of the
    first two hits, 9/10 and 5/10, not their own 5/10 and 4/10. *)
Example layerHits_stale_sample :
  map snd (layerHits sampleStore identities staleMatches) = [9 # 10; 5 # 10].
Proof. reflexivity. Qed.

(* ================================================================== *)
(** * The HTTP routes and their payloads                               *)
(* ================================================================== *)

Ltac string_field name fields :=
  destruct (lookupField fields name) as [[| | |?s| |]|]; try discriminate.

Lemma parseExtractionPayload_refuses : forall payload,
  typeofObject payload = false \/ payload = JNull ->
  parseExtractionPayload payload = Throw "Invalid extraction payload".
Proof.
  intros payload [H | ->]; [|reflexivity].
  unfold parseExtractionPayload. rewrite H. simpl. now rewrite orb_true_r.
Qed.

Lemma parseContextPayload_refuses : forall payload,
  typeofObject payload = false \/ payload = JNull ->
  parseContextPayload payload = Throw "Invalid context payload".
Proof.
  intros payload [H | ->]; [|reflexivity].
  unfold parseContextPayload. rewrite H. simpl. now rewrite orb_true_r.
Qed.

(** X12.  [parseExtractionPayload] accepts exactly the objects whose
    [telegramUserId], [sourceChatId], [sourceMessageId], [text] and
    [context] are strings, whatever else they hold, and returns those five
    strings; [null] and every value that is not an object are refused as
    an invalid payload, an array as invalid fields. *)
Theorem parseExtractionPayload_accepts : forall (payload : Json) (p : ExtractionPayload),
  (parseExtractionPayload payload = Ok p <->
   exists fields,
     payload = JObject fields
     /\ lookupField fields "telegramUserId" = Some (JString (ex_telegramUserId p))
     /\ lookupField fields "sourceChatId" = Some (JString (ex_sourceChatId p))
     /\ lookupField fields "sourceMessageId" = Some (JString (ex_sourceMessageId p))
     /\ lookupField fields "text" = Some (JString (ex_text p))
     /\ lookupField fields "context" = Some (JString (ex_context p)))
  /\ (typeofObject payload = false \/ payload = JNull ->
      parseExtractionPayload payload = Throw "Invalid extraction payload")
  /\ (forall elements, payload = JArray elements ->
      parseExtractionPayload payload = Throw "Invalid extraction payload fields").
Proof.
  intros payload p. split; [split|split].
  - intro H. destruct payload as [| b | q | s | elements | fields].
    1: rewrite (parseExtractionPayload_refuses JNull (or_intror eq_refl)) in H; discriminate.
    1-3: rewrite parseExtractionPayload_refuses in H by (left; reflexivity); discriminate.
    1: unfold parseExtractionPayload in H; simpl in H; discriminate.
    exists fields. split; [reflexivity|].
    unfold parseExtractionPayload in H. simpl in H.
    string_field "telegramUserId" fields.
    string_field "sourceChatId" fields.
    string_field "sourceMessageId" fields.
    string_field "text" fields.
    string_field "context" fields.
    injection H as <-. simpl. repeat split.
  - intros (fields & -> & H1 & H2 & H3 & H4 & H5).
    unfold parseExtractionPayload. simpl. rewrite H1, H2, H3, H4, H5.
    now destruct p.
  - apply parseExtractionPayload_refuses.
  - intros elements ->. reflexivity.
Qed.

(** X13.  [parseContextPayload] accepts exactly the objects whose
    [telegramUserId] and [query] are strings and returns those two
    strings; [null] and every value that is not an object are refused as
    an invalid payload, an array as invalid fields. *)
Theorem parseContextPayload_accepts : forall (payload : Json) (p : ContextPayload),
  (parseContextPayload payload = Ok p <->
   exists fields,
     payload = JObject fields
     /\ lookupField fields "telegramUserId" = Some (JString (cx_telegramUserId p))
     /\ lookupField fields "query" = Some (JString (cx_query p)))
  /\ (typeofObject payload = false \/ payload = JNull ->
      parseContextPayload payload = Throw "Invalid context payload")
  /\ (forall elements, payload = JArray elements ->
      parseContextPayload payload = Throw "Invalid context payload fields").
Proof.
  intros payload p. split; [split|split].
  - intro H. destruct payload as [| b | q | s | elements | fields].
    1: rewrite (parseContextPayload_refuses JNull (or_intror eq_refl)) in H; discriminate.
    1-3: rewrite parseContextPayload_refuses in H by (left; reflexivity); discriminate.
    1: unfold parseContextPayload in H; simpl in H; discriminate.
    exists fields. split; [reflexivity|].
    unfold parseContextPayload in H. simpl in H.
    string_field "telegramUserId" fields.
    string_field "query" fields.
    injection H as <-. simpl. repeat split.
  - intros (fields & -> & H1 & H2).
    unfold parseContextPayload. simpl. rewrite H1, H2.
    now destruct p.
  - apply parseContextPayload_refuses.
  - intros elements ->. reflexivity.
Qed.

(** X14.  [POST /memory/auto-extract] only schedules: a body that parses
    to a valid payload is answered with status 200 after exactly one job
    for [extractMemories], carrying the parsed payload, has been put
    behind the jobs already waiting; any other body makes the route throw
    with nothing scheduled.  Either way the extraction itself has not
    run: the store and the trace are untouched. *)
Theorem routeAutoExtract_schedules_only : forall (body : Result Json) (server : Server),
  let result := fst (routeAutoExtract body server) in
  let server' := snd (routeAutoExtract body server) in
  world server' = world server
  /\ ((exists payload parsed,
         body = Ok payload
         /\ parseExtractionPayload payload = Ok parsed
         /\ result = Ok (mkHttpResponse 200 OkBody)
         /\ scheduled server' = scheduled server ++ [parsed])
      \/ (exists e,
            result = Throw e
            /\ server' = server
            /\ (body = Throw e
                \/ exists payload, body = Ok payload
                                   /\ parseExtractionPayload payload = Throw e))).
Proof.
  intros body server. unfold routeAutoExtract.
  destruct body as [payload|e]; simpl.
  - destruct (parseExtractionPayload payload) as [parsed|e] eqn:Hp; simpl.
    + split; [reflexivity|]. left. exists payload, parsed. auto.
    + split; [reflexivity|]. right. exists e. split; [reflexivity|].
      split; [reflexivity|]. right. exists payload. auto.
  - split; [reflexivity|]. right. exists e. auto.
Qed.

(** X15.  [POST /memory/context] refuses a body that is not valid JSON or
    not a valid payload before any provider is called, the world staying
    as it was; for a valid payload it ends as [memoryContext] ends on the
    parsed payload, its items answered with status 200 and its error
    thrown on. *)
Theorem routeContext_outcomes : forall env (body : Result Json) (w : World),
  (forall e, body = Throw e -> routeContext env body w = (Throw e, w))
  /\ (forall payload e,
        body = Ok payload -> parseContextPayload payload = Throw e ->
        routeContext env body w = (Throw e, w))
  /\ (forall payload parsed,
        body = Ok payload -> parseContextPayload payload = Ok parsed ->
        routeContext env body w
        = match memoryContext env parsed w with
          | (Ok items, w') => (Ok (mkHttpResponse 200 (ItemsBody items)), w')
          | (Throw e, w') => (Throw e, w')
          end).
Proof.
  intros env body w. split; [|split].
  - intros e ->. reflexivity.
  - intros payload e -> Hp. unfold routeContext. now rewrite Hp.
  - intros payload parsed -> Hp. unfold routeContext. rewrite Hp.
    unfold bind. destruct (memoryContext env parsed w) as [[items|e] w']; reflexivity.
Qed.

(* ================================================================== *)
(** * The worker's helpers                                             *)
(* ================================================================== *)

Lemma normalizeConvexUrl_allSlashes : forall s,
  allSlashes s = true -> normalizeConvexUrl s = "".
Proof.
  induction s as [|c s IH]; simpl; intro H; [reflexivity|].
  apply andb_true_iff in H as [Hc Hs]. now rewrite (IH Hs), Hc.
Qed.

Lemma normalizeConvexUrl_split : forall raw,
  exists slashes,
    allSlashes slashes = true /\ raw = (normalizeConvexUrl raw ++ slashes)%string.
Proof.
  induction raw as [|c raw (slashes & Hs & Hraw)]; simpl.
  - exists ""%string. auto.
  - destruct (normalizeConvexUrl raw) as [|c' r] eqn:Hn.
    + destruct (isSlash c) eqn:Hc.
      * exists (String c slashes). simpl. rewrite Hc, Hs. simpl in Hraw.
        split; [reflexivity | now rewrite <- Hraw].
      * exists slashes. split; [assumption|]. simpl in *. now rewrite <- Hraw.
    + exists slashes. split; [assumption|]. simpl in *. now rewrite <- Hraw.
Qed.

Lemma normalizeConvexUrl_no_slash : forall raw,
  endsWithSlash (normalizeConvexUrl raw) = false.
Proof.
  induction raw as [|c raw IH]; simpl; [reflexivity|].
  destruct (normalizeConvexUrl raw) as [|c' r] eqn:Hn.
  - destruct (isSlash c) eqn:Hc; simpl; [reflexivity | assumption].
  - simpl in *. exact IH.
Qed.

Lemma normalizeConvexUrl_fixed : forall s,
  endsWithSlash s = false -> normalizeConvexUrl s = s.
Proof.
  induction s as [|c s IH]; simpl; intro H; [reflexivity|].
  destruct s as [|c' s'].
  - simpl. now rewrite H.
  - rewrite (IH H). reflexivity.
Qed.

(** X16.  [normalizeConvexUrl] removes the slashes that end the address
    and nothing else: the address is the result followed by slashes only,
    the result does not end with a slash, an address that does not end
    with a slash is returned as it is, and normalising twice changes
    nothing more. *)
Theorem normalizeConvexUrl_strips_trailing_slashes : forall raw,
  (exists slashes,
     allSlashes slashes = true /\ raw = (normalizeConvexUrl raw ++ slashes)%string)
  /\ endsWithSlash (normalizeConvexUrl raw) = false
  /\ (endsWithSlash raw = false -> normalizeConvexUrl raw = raw)
  /\ normalizeConvexUrl (normalizeConvexUrl raw) = normalizeConvexUrl raw.
Proof.
  intro raw. split; [apply normalizeConvexUrl_split|].
  split; [apply normalizeConvexUrl_no_slash|].
  split; [apply normalizeConvexUrl_fixed|].
  apply normalizeConvexUrl_fixed, normalizeConvexUrl_no_slash.
Qed.

Lemma normalizeConvexUrl_strips_trailing_slashes_witness :
  normalizeConvexUrl "https://memory.convex.site//" = "https://memory.convex.site"
  /\ normalizeConvexUrl "https://memory.convex.site/v1" = "https://memory.convex.site/v1".
Proof.
  split; [reflexivity|].
  exact (proj1 (proj2 (proj2 (normalizeConvexUrl_strips_trailing_slashes
                                "https://memory.convex.site/v1"))) eq_refl).
Defined.

Lemma trimEnd_idempotent : forall s, Js.trimEnd (Js.trimEnd s) = Js.trimEnd s.
Proof.
  induction s as [|c s IH]; simpl; [reflexivity|].
  destruct (Js.trimEnd s) as [|c' r] eqn:Hr.
  - destruct (Js.isWhiteSpace c) eqn:Hc; simpl; [reflexivity | now rewrite Hc].
  - simpl in *. now rewrite IH.
Qed.

Lemma trimStart_head : forall s,
  Js.trimStart s = ""%string
  \/ exists c r, Js.trimStart s = String c r /\ Js.isWhiteSpace c = false.
Proof.
  induction s as [|c s IH]; simpl; [now left|].
  destruct (Js.isWhiteSpace c) eqn:Hc; [exact IH|].
  right. exists c, s. auto.
Qed.

Lemma trimEnd_head : forall c r,
  Js.isWhiteSpace c = false ->
  exists r', Js.trimEnd (String c r) = String c r'.
Proof.
  intros c r Hc. simpl. destruct (Js.trimEnd r); [rewrite Hc|]; eexists; reflexivity.
Qed.

Lemma trim_idempotent : forall s, Js.trim (Js.trim s) = Js.trim s.
Proof.
  intro s. unfold Js.trim.
  destruct (trimStart_head s) as [H | (c & r & H & Hc)]; rewrite H.
  - reflexivity.
  - destruct (trimEnd_head c r Hc) as (r' & Hr). rewrite Hr.
    simpl Js.trimStart. rewrite Hc. rewrite <- Hr. apply trimEnd_idempotent.
Qed.

Lemma filter_none : forall (parts : list ContentPart),
  Forall (fun part => isTextPart part = false) parts -> filter isTextPart parts = [].
Proof.
  induction 1 as [|part parts Hp _ IH]; simpl; [reflexivity|]. now rewrite Hp.
Qed.

Lemma filter_filter_same : forall (parts : list ContentPart),
  filter isTextPart (filter isTextPart parts) = filter isTextPart parts.
Proof.
  induction parts as [|part parts IH]; simpl; [reflexivity|].
  destruct (isTextPart part) eqn:Hp; simpl; [now rewrite Hp, IH | exact IH].
Qed.

(** X17.  [messageToText] gives the empty text for a missing message,
    for content that is neither a string nor an array, and for an array
    without text parts.  Of an array only the text parts count, and what
    it returns for an array is trimmed; a string content is returned as it
    is, white space included. *)
Theorem messageToText_cases : forall (parts : list ContentPart) (s : string),
  messageToText None = ""%string
  /\ messageToText (Some ContentOther) = ""%string
  /\ messageToText (Some (ContentString s)) = s
  /\ messageToText (Some (ContentParts parts))
     = messageToText (Some (ContentParts (filter isTextPart parts)))
  /\ Js.trim (messageToText (Some (ContentParts parts)))
     = messageToText (Some (ContentParts parts))
  /\ (Forall (fun part => isTextPart part = false) parts ->
      messageToText (Some (ContentParts parts)) = ""%string)
  /\ messageToText (Some (ContentParts [TextPart s])) = Js.trim s.
Proof.
  intros parts s. repeat split.
  - simpl. now rewrite filter_filter_same.
  - simpl. apply trim_idempotent.
  - intro H. simpl. now rewrite filter_none.
Qed.

(** X19.  [formatMemoryContext] only ever cuts: for every setting of the
    maximum its result is a prefix of the rendering, the empty string for
    no items.  A maximum of 0 switches the cut off, and a negative maximum
    [m] cuts that many characters off the end of the rendering. *)
Theorem formatMemoryContext_only_cuts :
  forall (maxChars : Z) (items : list MemoryContextItem),
    formatMemoryContext maxChars [] = ""%string
    /\ prefix (formatMemoryContext maxChars items) (renderMemoryContext items) = true
    /\ (items <> [] -> maxChars = 0 ->
        formatMemoryContext maxChars items = renderMemoryContext items)
    /\ (items <> [] -> maxChars < 0 ->
        Z.of_nat (String.length (formatMemoryContext maxChars items))
        = Z.max (Z.of_nat (String.length (renderMemoryContext items)) + maxChars) 0).
Proof.
  intros maxChars items. split; [reflexivity|].
  destruct items as [|item items].
  - split; [reflexivity|]. split; intro H; now elim H.
  - unfold formatMemoryContext.
    set (rendering := renderMemoryContext (item :: items)).
    split; [|split].
    + destruct ((maxChars =? 0) || _); [apply prefix_refl | apply slice0_prefix].
    + intros _ ->. reflexivity.
    + intros _ Hneg.
      destruct (Z.eqb_spec maxChars 0); [lia|].
      destruct (Z.leb_spec (Z.of_nat (String.length rendering)) maxChars); [lia|].
      simpl orb. cbv iota. unfold Js.slice0.
      destruct (Z.ltb_spec maxChars 0); [|lia].
      rewrite length_substring_0. lia.
Qed.

Lemma append_empty_r : forall s : string, (s ++ "")%string = s.
Proof. induction s as [|c s IH]; simpl; [reflexivity | now rewrite IH]. Qed.

Lemma append_assoc_string : forall a b c : string,
  ((a ++ b) ++ c)%string = (a ++ (b ++ c))%string.
Proof. induction a as [|x a IH]; intros; simpl; [reflexivity | now rewrite IH]. Qed.

(** X24.  Merging is associative and keeps [null] apart from the empty
    prompt: merging two memory prompts into a base one after the other is
    merging their own merge into it, and the result is [null] only when
    the base is [null] and the memory prompt is empty. *)
Theorem mergeSystemPrompt_associative :
  forall (basePrompt : option string) (first second : string),
    mergeSystemPrompt (mergeSystemPrompt basePrompt first) second
    = mergeSystemPrompt basePrompt
        match mergeSystemPrompt (Some first) second with
        | Some merged => merged
        | None => ""%string
        end
    /\ (mergeSystemPrompt basePrompt first = None <->
        basePrompt = None /\ first = ""%string).
Proof.
  intros basePrompt first second. split.
  - unfold mergeSystemPrompt.
    destruct basePrompt as [[|b base]|], first as [|f first], second as [|c second];
      simpl; try reflexivity.
    + now rewrite !append_assoc_string.
  - unfold mergeSystemPrompt.
    destruct basePrompt as [[|b base]|], first as [|f first]; simpl;
      split; try discriminate; try tauto; intros [H1 H2]; discriminate.
Qed.

Section ContextWindow.

Variable HistoryItem : Type.
Variable extractTextContent : HistoryItem -> string.

Lemma lastItems_recent : forall (older recent : list HistoryItem) limit,
  List.length recent = Z.to_nat limit ->
  lastItems HistoryItem limit (older ++ recent) = recent.
Proof.
  intros older recent limit Hlen. unfold lastItems.
  rewrite length_app, <- Hlen.
  replace (List.length older + List.length recent - List.length recent)%nat
    with (List.length older + 0)%nat by lia.
  rewrite skipn_app, Nat.add_0_r, skipn_all.
  replace (List.length older - List.length older)%nat with 0%nat by lia.
  reflexivity.
Qed.

Lemma lastItems_length : forall (history : list HistoryItem) limit,
  (List.length (lastItems HistoryItem limit history) <= Z.to_nat limit)%nat.
Proof.
  intros history limit. unfold lastItems. rewrite length_skipn. lia.
Qed.

Lemma filter_map_swap : forall A B (f : A -> B) (p : B -> bool) (l : list A),
  filter p (map f l) = map f (filter (fun a => p (f a)) l).
Proof.
  intros A B f p l. induction l as [|a l IH]; simpl; [reflexivity|].
  destruct (p (f a)); simpl; now rewrite IH.
Qed.

(** The test [text && text.trim().length > 0] holds exactly when the
    trimmed text is not empty. *)
Lemma nonBlank_trim : forall text,
  negb (Js.isEmpty text) && (0 <? String.length (Js.trim text))%nat
  = negb (String.eqb (Js.trim text) "").
Proof.
  intros [|c text]; [reflexivity|]. simpl negb. rewrite andb_true_l.
  now destruct (Js.trim (String c text)).
Qed.

(** X18.  [buildContextWindow] is empty for a limit of 0 or less and for
    an empty history; otherwise it reads only the last [limit] entries of
    the history, so older entries never reach the extraction request.  Its
    lines are, in order, a dash and the trimmed text of each of the last
    [limit] entries whose trimmed text is not empty, joined by line feeds:
    entries whose text is blank give no line, and there are at most
    [limit] lines. *)
Theorem buildContextWindow_recent_only : forall (history : list HistoryItem) (limit : Z),
  (limit <= 0 \/ history = [] ->
   buildContextWindow HistoryItem extractTextContent history limit = ""%string)
  /\ (forall older recent,
        0 < limit -> history = older ++ recent ->
        List.length recent = Z.to_nat limit ->
        buildContextWindow HistoryItem extractTextContent history limit
        = buildContextWindow HistoryItem extractTextContent recent limit)
  /\ (let recent := skipn (List.length history - Z.to_nat limit) history in
      let lines :=
        map (fun item => ("- " ++ Js.trim (extractTextContent item))%string)
          (filter (fun item => negb (String.eqb (Js.trim (extractTextContent item)) ""))
             recent) in
      buildContextWindow HistoryItem extractTextContent history limit
      = Js.join Js.nl lines
      /\ (List.length lines <= Z.to_nat limit)%nat
      /\ Forall (fun line => exists item,
                    In item history
                    /\ line = ("- " ++ Js.trim (extractTextContent item))%string
                    /\ Js.trim (extractTextContent item) <> ""%string)
           lines).
Proof.
  intros history limit. split; [|split].
  - intros [H | ->]; unfold buildContextWindow.
    + destruct (Z.leb_spec limit 0); [reflexivity | lia].
    + simpl. now rewrite orb_true_r.
  - intros older recent Hpos -> Hlen. unfold buildContextWindow.
    destruct (Z.leb_spec limit 0); [lia|]. simpl orb.
    assert (Hne : List.length recent <> 0%nat) by lia.
    assert (E1 : (List.length (older ++ recent) =? 0)%nat = false).
    { apply Nat.eqb_neq. rewrite length_app. lia. }
    assert (E2 : (List.length recent =? 0)%nat = false) by now apply Nat.eqb_neq.
    rewrite E1, E2, lastItems_recent by assumption.
    pose proof (lastItems_recent [] recent limit Hlen) as E3. simpl in E3.
    now rewrite E3.
  - intros recent lines. split; [|split].
    + unfold buildContextWindow.
      destruct (Z.leb_spec limit 0) as [Hle|Hpos]; simpl orb.
      * subst lines recent.
        replace (Z.to_nat limit) with 0%nat by lia.
        rewrite Nat.sub_0_r, skipn_all. reflexivity.
      * destruct history as [|item history]; [reflexivity|].
        simpl Nat.eqb. cbv iota.
        rewrite filter_map_swap, map_map.
        subst lines recent. unfold lastItems. f_equal. f_equal.
        apply filter_ext. intro a. apply nonBlank_trim.
    + subst lines. rewrite length_map.
      etransitivity; [apply filter_length_le|].
      subst recent. rewrite length_skipn. lia.
    + subst lines. apply Forall_map. apply Forall_forall. intros item Hin.
      apply filter_In in Hin as [Hin Hkeep].
      exists item. split; [|split; [reflexivity|]].
      * subst recent. rewrite <- (firstn_skipn (List.length history - Z.to_nat limit) history).
        apply in_or_app. now right.
      * intro E. rewrite E in Hkeep. discriminate.
Qed.

End ContextWindow.

Lemma buildContextWindow_recent_only_witness :
  buildContextWindow string (fun text => text)
    ["first"%string; "second"%string; "   "%string; " third "%string] 2
  = buildContextWindow string (fun text => text) ["   "%string; " third "%string] 2
  /\ buildContextWindow string (fun text => text) ["   "%string; " third "%string] 2
     = "- third"%string.
Proof.
  split; [|reflexivity].
  apply (proj1 (proj2 (buildContextWindow_recent_only string (fun text => text)
                         ["first"%string; "second"%string; "   "%string; " third "%string] 2))
           ["first"%string; "second"%string] ["   "%string; " third "%string]);
    reflexivity.
Defined.

(** X21.  The worker and the back end agree on the payloads, a body
    reaching the route as the object the worker built: the body of the
    worker's context request parses to the user and the query it was
    built from, and the route answers it as [memoryContext] does; the
    body of its extraction request parses to the payload it was built
    from, and the route schedules exactly that payload. *)
Theorem worker_requests_are_accepted :
  forall ENV env query message payload (w : World) (server : Server),
    parseContextPayload (request_body (contextRequest ENV query message))
    = Ok (mkContextPayload (resolveUserId message) query)
    /\ routeContext env (Ok (request_body (contextRequest ENV query message))) w
       = match memoryContext env (mkContextPayload (resolveUserId message) query) w with
         | (Ok items, w') => (Ok (mkHttpResponse 200 (ItemsBody items)), w')
         | (Throw e, w') => (Throw e, w')
         end
    /\ parseExtractionPayload (request_body (extractionRequest ENV payload)) = Ok payload
    /\ routeAutoExtract (Ok (request_body (extractionRequest ENV payload))) server
       = (Ok (mkHttpResponse 200 OkBody),
          mkServer (world server) (scheduled server ++ [payload])).
Proof.
  intros ENV env query message payload w server.
  assert (Hc : parseContextPayload (request_body (contextRequest ENV query message))
               = Ok (mkContextPayload (resolveUserId message) query)) by reflexivity.
  assert (He : parseExtractionPayload (request_body (extractionRequest ENV payload))
               = Ok payload) by now destruct payload.
  split; [exact Hc|]. split; [|split; [exact He|]].
  - unfold routeContext. rewrite Hc. unfold bind.
    destruct (memoryContext env _ w) as [[items|e] w']; reflexivity.
  - unfold routeAutoExtract. rewrite He. reflexivity.
Qed.

Lemma extractKey_inj : forall a b, extractKey a = extractKey b -> a = b.
Proof. intros a b H. unfold extractKey in H. simpl in H. now inversion H. Qed.

Lemma lastTrigger_same_entry : forall kv kv' t getRejects key,
  kv' key = kv key ->
  lastTrigger kv' t getRejects key = lastTrigger kv t getRejects key.
Proof.
  intros kv kv' t getRejects key H. unfold lastTrigger, kv_get. now rewrite H.
Qed.

Lemma shouldExtractMemory_other_key : forall I t getRejects owner kv k,
  k <> extractKey owner ->
  snd (shouldExtractMemory I t getRejects owner kv) k = kv k.
Proof.
  intros I t getRejects owner kv k Hk. unfold shouldExtractMemory.
  destruct (I <=? 0); [reflexivity|].
  destruct (lastTrigger kv t getRejects (extractKey owner)) as [last|];
    [destruct (t / 1000 - last <? I); [reflexivity|]|];
    simpl; now apply kv_put_other.
Qed.

(** X25.  The gate keeps owners apart: a call for one owner changes
    nothing that the store holds under another key, so the answer the
    gate gives any other owner, at any time, is the answer it would have
    given without that call. *)
Theorem shouldExtractMemory_owner_independence :
  forall I t getRejects owner other kv,
    other <> owner ->
    let kv' := snd (shouldExtractMemory I t getRejects owner kv) in
    kv' (extractKey other) = kv (extractKey other)
    /\ (forall k, k <> extractKey owner -> kv' k = kv k)
    /\ forall t' getRejects',
         fst (shouldExtractMemory I t' getRejects' other kv')
         = fst (shouldExtractMemory I t' getRejects' other kv).
Proof.
  intros I t getRejects owner other kv Hneq kv'.
  assert (Hk : extractKey other <> extractKey owner).
  { intro H. apply Hneq. now apply extractKey_inj. }
  assert (Hsame : kv' (extractKey other) = kv (extractKey other)).
  { subst kv'. now apply shouldExtractMemory_other_key. }
  split; [exact Hsame|]. split.
  - intros k Hkk. subst kv'. now apply shouldExtractMemory_other_key.
  - intros t' getRejects'. unfold shouldExtractMemory.
    destruct (I <=? 0); [reflexivity|].
    rewrite (lastTrigger_same_entry kv kv' t' getRejects' _ Hsame).
    destruct (lastTrigger kv t' getRejects' (extractKey other)) as [last|];
      [destruct (t' / 1000 - last <? I)|]; reflexivity.
Qed.

Lemma shouldExtractMemory_owner_independence_witness :
  fst (shouldExtractMemory 60 1700000030000 false "43"
         (snd (shouldExtractMemory 60 1700000000000 false "42" emptyKV)))
  = fst (shouldExtractMemory 60 1700000030000 false "43" emptyKV).
Proof.
  refine (proj2 (proj2 (shouldExtractMemory_owner_independence
                          60 1700000000000 false "42" "43" emptyKV _))
            1700000030000 false).
  discriminate.
Defined.

(** X20.  [buildMemoryPrompt] sends nothing and returns the empty prompt
    when memory is switched off or the message has no text.  Otherwise it
    sends exactly one request: to the normalised address followed by
    [/memory/context], with no doubled slash at the join, for the user of
    the message and its text; it leaves the store alone, returns the
    formatted items of a successful answer, and throws on a non-success
    answer or a rejected request. *)
Theorem buildMemoryPrompt_outcomes :
  forall ENV endpoint message params (w : Worker),
    (isMemoryEnabled ENV = false \/ messageToText params = ""%string ->
     buildMemoryPrompt ENV endpoint message params w = (Ok ""%string, w))
    /\ (isMemoryEnabled ENV = true -> messageToText params <> ""%string ->
        let request := contextRequest ENV (messageToText params) message in
        let outcome := buildMemoryPrompt ENV endpoint message params w in
        snd outcome = mkWorker (DATABASE w) (sent w ++ [request])
        /\ (exists base,
              request_url request = (base ++ "/memory/context")%string
              /\ endsWithSlash base = false)
        /\ request_body request
           = contextPayloadJson
               (mkContextPayload (resolveUserId message) (messageToText params))
        /\ (forall e, endpoint request = Throw e -> fst outcome = Throw e)
        /\ (forall answer,
              endpoint request = Ok answer -> context_ok answer = false ->
              fst outcome
              = Throw ("Memory context request failed: " ++ context_statusText answer)%string)
        /\ (forall answer,
              endpoint request = Ok answer -> context_ok answer = true ->
              fst outcome
              = Ok (formatMemoryContext (MEMORY_CONTEXT_MAX_CHARS ENV)
                      match context_items answer with
                      | Some items => items
                      | None => []
                      end))).
Proof.
  intros ENV endpoint message params w. split.
  - intros [H | H]; unfold buildMemoryPrompt; [now rewrite H|].
    destruct (negb (isMemoryEnabled ENV)); [reflexivity | now rewrite H].
  - intros Hon Htext request outcome. subst outcome.
    unfold buildMemoryPrompt, fetchMemoryContext. rewrite Hon. simpl negb. cbv iota.
    destruct (messageToText params) as [|c text] eqn:Hm; [congruence|].
    simpl Js.isEmpty. cbv iota. fold request.
    split; [|split; [|split; [reflexivity|]]].
    + destruct (endpoint request) as [answer|e]; [|reflexivity].
      destruct (context_ok answer); reflexivity.
    + exists (normalizeConvexUrl (MEMORY_CONVEX_URL ENV)).
      split; [reflexivity | apply normalizeConvexUrl_no_slash].
    + split; [|split].
      * intros e ->. reflexivity.
      * intros answer -> ->. reflexivity.
      * intros answer -> ->. reflexivity.
Qed.

Lemma gate_allows_records : forall I t getRejects owner kv,
  0 < I ->
  fst (shouldExtractMemory I t getRejects owner kv) = true ->
  snd (shouldExtractMemory I t getRejects owner kv)
  = kv_put kv t (extractKey owner) (Js.toString (t / 1000)) I.
Proof.
  intros I t getRejects owner kv HI Hallowed.
  rewrite shouldExtractMemory_decision in * by assumption.
  destruct (lastTrigger kv t getRejects (extractKey owner)) as [last|];
    [destruct (t / 1000 - last <? I); [discriminate|]|]; reflexivity.
Qed.

Lemma gate_denies_within : forall I owner kv t1 t,
  0 < I -> t1 <= t -> t / 1000 - t1 / 1000 < I ->
  shouldExtractMemory I t false owner
    (kv_put kv t1 (extractKey owner) (Js.toString (t1 / 1000)) I)
  = (false, kv_put kv t1 (extractKey owner) (Js.toString (t1 / 1000)) I).
Proof.
  intros I owner kv t1 t HI Hle Hlt.
  rewrite shouldExtractMemory_decision by assumption.
  rewrite (lastTrigger_after I owner _ t1 t) by apply kv_put_key.
  assert (Hlive : t < t1 + 1000 * I) by (Z.div_mod_to_equations; lia).
  destruct (Z.ltb_spec t (t1 + 1000 * I)); [|lia].
  destruct (Z.ltb_spec (t / 1000 - t1 / 1000) I); [reflexivity | lia].
Qed.

Section Queue.

Variable HistoryItem : Type.
Variable extractTextContent : HistoryItem -> string.
Variable parseHistory : string -> option (list HistoryItem).
Variable ENV : WorkerEnv.
Variable endpoint : HttpRequest -> Result ExtractAnswer.

Let queue := queueMemoryExtraction HistoryItem extractTextContent parseHistory ENV endpoint.
Let I := MEMORY_EXTRACTION_MIN_INTERVAL_SECONDS ENV.

(** X22.  The gate is passed before the text is looked at: when memory is
    on and the gate allows a message that has no text, nothing is sent but
    the trigger is recorded all the same.  So every later message of the
    same user, whatever its identifier and its text, that comes less than
    [I] seconds after it and whose read of the store succeeds is dropped
    unsent.  A message whose read fails passes the gate whenever
    [I <= now]. *)
Theorem queueMemoryExtraction_textless_consumes_gate :
  forall nowMs getRejects message params chatHistoryKey (w : Worker),
    isMemoryEnabled ENV = true ->
    0 < I ->
    messageToText params = ""%string ->
    fst (shouldExtractMemory I nowMs getRejects (resolveUserId message) (DATABASE w)) = true ->
    let w1 := snd (queue nowMs getRejects message params chatHistoryKey w) in
    fst (queue nowMs getRejects message params chatHistoryKey w) = Ok tt
    /\ sent w1 = sent w
    /\ DATABASE w1 (extractKey (resolveUserId message)) = Some (triggerEntry I nowMs)
    /\ (forall t message' params' chatHistoryKey',
          resolveUserId message' = resolveUserId message ->
          nowMs <= t -> t / 1000 - nowMs / 1000 < I ->
          queue t false message' params' chatHistoryKey' w1 = (Ok tt, w1))
    /\ (forall t message',
          resolveUserId message' = resolveUserId message ->
          I <= t / 1000 ->
          fst (shouldExtractMemory I t true (resolveUserId message') (DATABASE w1)) = true).
Proof.
  intros nowMs getRejects message params chatHistoryKey w Hon HI Htext Hallowed w1.
  assert (Hrun : queue nowMs getRejects message params chatHistoryKey w
                 = (Ok tt,
                    mkWorker (kv_put (DATABASE w) nowMs (extractKey (resolveUserId message))
                                (Js.toString (nowMs / 1000)) I)
                             (sent w))).
  { unfold queue, queueMemoryExtraction. rewrite Hon. simpl negb. cbv iota. fold I.
    pose proof (gate_allows_records I nowMs getRejects (resolveUserId message)
                  (DATABASE w) HI Hallowed) as Hkv.
    destruct (shouldExtractMemory I nowMs getRejects (resolveUserId message) (DATABASE w))
      as [allowed kv1].
    simpl in Hallowed, Hkv. subst allowed kv1. simpl negb. cbv iota.
    now rewrite Htext. }
  subst w1. rewrite Hrun. simpl.
  split; [reflexivity|]. split; [reflexivity|]. split; [apply kv_put_key|].
  split.
  - intros t message' params' chatHistoryKey' Huser Hle Hlt.
    unfold queue, queueMemoryExtraction. rewrite Hon. simpl negb. cbv iota. fold I.
    simpl DATABASE. rewrite Huser.
    now rewrite (gate_denies_within I (resolveUserId message) (DATABASE w) nowMs t HI Hle Hlt).
  - intros t message' Huser Hge.
    rewrite shouldExtractMemory_decision by assumption.
    unfold lastTrigger.
    destruct (Z.ltb_spec (t / 1000 - 0) I); [lia | reflexivity].
Qed.

(** X23.  [queueMemoryExtraction] does nothing at all when memory is off,
    and sends nothing and leaves the store as it was when the gate denies.
    When the gate allows and the message has text it sends exactly one
    request, whose payload names the user, the chat, the message and the
    text, with the context window built from the stored history; a
    non-success answer makes it throw, and the store keeps the state the
    gate left, trigger time included, whether the request succeeded or
    not. *)
Theorem queueMemoryExtraction_outcomes :
  forall nowMs getRejects message params chatHistoryKey (w : Worker),
    let gate := shouldExtractMemory I nowMs getRejects (resolveUserId message) (DATABASE w) in
    let outcome := queue nowMs getRejects message params chatHistoryKey w in
    (isMemoryEnabled ENV = false -> outcome = (Ok tt, w))
    /\ (isMemoryEnabled ENV = true -> fst gate = false ->
        fst outcome = Ok tt
        /\ sent (snd outcome) = sent w
        /\ DATABASE (snd outcome) = DATABASE w)
    /\ (isMemoryEnabled ENV = true -> fst gate = true ->
        messageToText params <> ""%string ->
        let payload :=
          mkExtractionPayload (resolveUserId message) (resolveChatId message)
            (Js.toString (message_id message)) (messageToText params)
            (buildContextWindow HistoryItem extractTextContent
               (loadHistory HistoryItem parseHistory (snd gate) nowMs chatHistoryKey)
               (MEMORY_EXTRACTION_MAX_CONTEXT_MESSAGES ENV)) in
        snd outcome = mkWorker (snd gate) (sent w ++ [extractionRequest ENV payload])
        /\ (forall answer,
              endpoint (extractionRequest ENV payload) = Ok answer ->
              extract_ok answer = true -> fst outcome = Ok tt)
        /\ (forall answer,
              endpoint (extractionRequest ENV payload) = Ok answer ->
              extract_ok answer = false ->
              fst outcome
              = Throw ("Memory extraction request failed: "
                       ++ Js.toString (extract_status answer) ++ " "
                       ++ extract_text answer)%string)
        /\ (forall e,
              endpoint (extractionRequest ENV payload) = Throw e -> fst outcome = Throw e)).
Proof.
  intros nowMs getRejects message params chatHistoryKey w gate outcome.
  subst outcome. unfold queue, queueMemoryExtraction. fold I. fold gate.
  split; [|split].
  - intros ->. reflexivity.
  - intros -> Hdeny. simpl negb. cbv iota.
    assert (Hkv : snd gate = DATABASE w).
    { subst gate. unfold shouldExtractMemory in *.
      destruct (I <=? 0); [discriminate|].
      destruct (lastTrigger _ _ _ _) as [last|];
        [destruct (nowMs / 1000 - last <? I); [reflexivity | discriminate] | discriminate]. }
    destruct gate as [allowed kv1]. simpl in *. subst allowed kv1. simpl. auto.
  - intros Hon Hallow Htext. rewrite Hon. simpl negb. cbv iota.
    destruct gate as [allowed kv1]. simpl in *. subst allowed. simpl negb. cbv iota.
    destruct (messageToText params) as [|c text] eqn:Hm; [congruence|].
    simpl Js.isEmpty. cbv iota.
    unfold sendAutoExtraction.
    rewrite Hon. simpl negb. cbv iota. simpl DATABASE. simpl sent.
    set (request := extractionRequest ENV _).
    split; [|split; [|split]].
    + destruct (endpoint request) as [answer|e]; [|reflexivity].
      destruct (extract_ok answer); reflexivity.
    + intros answer -> ->. reflexivity.
    + intros answer -> ->. reflexivity.
    + intros e ->. reflexivity.
Qed.

End Queue.

(** A photo without caption at second 1700000000, then another message
    of the same user, with text, 30 seconds later: it is dropped. *)
Lemma queueMemoryExtraction_textless_consumes_gate_witness :
  sent workerAfterPhoto = []
  /\ queueMemoryExtraction string (fun text => text) (fun _ => None)
       sampleWorkerEnv acceptingEndpoint 1700000030000 false
       (mkMessage (Some 42) (-1001) 8) (Some (ContentString "I love tea")) "history:-1001"
       workerAfterPhoto
     = (Ok tt, workerAfterPhoto).
Proof.
  destruct (queueMemoryExtraction_textless_consumes_gate
              string (fun text => text) (fun _ => None) sampleWorkerEnv acceptingEndpoint
              1700000000000 false sampleMessage photoOnly "history:-1001" emptyWorker
              eq_refl eq_refl eq_refl eq_refl) as (_ & Hsent & _ & Hnext & _).
  split; [exact Hsent|].
  apply Hnext; [reflexivity | discriminate | reflexivity].
Defined.

(** Without the photo the same text message is sent. *)
Example queueMemoryExtraction_sample :
  map request_url
    (sent (snd (queueMemoryExtraction string (fun text => text) (fun _ => None)
                  sampleWorkerEnv acceptingEndpoint 1700000030000 false
                  sampleMessage (Some (ContentString "I love tea")) "history:-1001"
                  emptyWorker)))
  = ["https://memory.convex.site/memory/auto-extract"%string].
Proof. reflexivity. Qed.
